(** * swagger-docs-mcp: the fetch / parse / merge / cache pipeline

    A shallow embedding of [src/swagger-fetcher.ts] (class [SwaggerFetcher])
    and of [src/auth.ts] (class [AuthManager]), with the properties the
    specification states about them.

    Conventions.
    - A JavaScript string is a [string]; a character stands for one code
      unit in the range 0..255.
    - A plain object used as a dictionary ([Record<string, any>], the header
      bag of a request) is a [gmap string _]: the code only reads such
      objects by key, and no property below speaks about key order.
    - A JavaScript [Map] whose iteration order the code relies on
      ([combinedDocs]) is an association list with the [Map] update rule.
    - [async] methods run one after the other; their effects (the instance
      fields, the remote world, the list of requests sent) are threaded
      through a state-and-exception monad. *)

From Stdlib Require Import ZArith NArith Ascii String.
From stdpp Require Import base option list strings gmap fin_maps pretty.

Set Warnings "-register-all".
Local Open Scope string_scope.

(** ** JavaScript values and strings *)

(** Payloads typed [any] in the source: path items, schema bodies,
    security schemes. *)
Inductive JSON : Type :=
  | JNull
  | JBool (b : bool)
  | JNum (z : Z)
  | JStr (s : string)
  | JArr (items : list JSON)
  | JObj (members : list (string * JSON)).

(** Truthiness of an optional string property: [undefined] and the empty
    string are falsy. *)
Definition truthy (o : option string) : bool :=
  match o with
  | Some s => negb (String.eqb s "")
  | None => false
  end.

(** [s.endsWith(suffix)] *)
Definition endsWith (s suffix : string) : bool :=
  let n := String.length s in
  let k := String.length suffix in
  if (k <=? n)%nat then String.eqb (substring (n - k) k s) suffix else false.

(** White space and line terminators, as [String.prototype.trim] strips
    them, among the code units below 256: TAB, LF, VT, FF, CR, SP, NBSP. *)
Definition isWhiteSpace (c : ascii) : bool :=
  let n := nat_of_ascii c in
  ((9 <=? n) && (n <=? 13) || (n =? 32) || (n =? 160))%nat.

Fixpoint trimStart (s : string) : string :=
  match s with
  | EmptyString => EmptyString
  | String c rest => if isWhiteSpace c then trimStart rest else s
  end.

Fixpoint trimEnd (s : string) : string :=
  match s with
  | EmptyString => EmptyString
  | String c rest =>
      match trimEnd rest with
      | EmptyString => if isWhiteSpace c then EmptyString else String c EmptyString
      | kept => String c kept
      end
  end.

(** [s.trim()] *)
Definition trim (s : string) : string := trimEnd (trimStart s).

(** Every code unit of [s] is white space (the empty string included). *)
Fixpoint blank (s : string) : bool :=
  match s with
  | EmptyString => true
  | String c rest => isWhiteSpace c && blank rest
  end.

(** ** Base64, for [Buffer.from(text).toString('base64')] *)

Definition base64_alphabet : string :=
  "ABCDEFGHIJKLMNOPQRSTUVWXYZabcdefghijklmnopqrstuvwxyz0123456789+/".

Definition base64_digit (n : N) : ascii :=
  default "="%char (String.get (N.to_nat (N.land n 63)) base64_alphabet).

(** [Buffer.from] encodes the text as UTF-8. *)
Definition utf8_unit (c : ascii) : list N :=
  let n := N_of_ascii c in
  if (n <? 128)%N then [n]
  else [N.lor 192 (N.shiftr n 6); N.lor 128 (N.land n 63)].

Fixpoint utf8 (s : string) : list N :=
  match s with
  | EmptyString => []
  | String c rest => utf8_unit c ++ utf8 rest
  end.

Fixpoint base64_bytes (bs : list N) : string :=
  match bs with
  | [] => ""
  | [a] =>
      let w := N.shiftl a 16 in
      String (base64_digit (N.shiftr w 18))
        (String (base64_digit (N.shiftr w 12)) "==")
  | [a; b] =>
      let w := N.lor (N.shiftl a 16) (N.shiftl b 8) in
      String (base64_digit (N.shiftr w 18))
        (String (base64_digit (N.shiftr w 12))
           (String (base64_digit (N.shiftr w 6)) "="))
  | a :: b :: c :: rest =>
      let w := N.lor (N.lor (N.shiftl a 16) (N.shiftl b 8)) c in
      String (base64_digit (N.shiftr w 18))
        (String (base64_digit (N.shiftr w 12))
           (String (base64_digit (N.shiftr w 6))
              (String (base64_digit w) (base64_bytes rest))))
  end.

Definition base64 (s : string) : string := base64_bytes (utf8 s).

(** ** Configuration ([src/config.ts]) *)

Inductive AuthType : Type := AuthNone | AuthBasic | AuthBearer | AuthApiKey.

Record Credentials : Type := {
  username : option string;
  password : option string;
  token : option string;
  apiKey : option string;
  apiKeyHeader : string
}.

Record Auth : Type := {
  type : AuthType;
  credentials : option Credentials
}.

Record Config : Type := {
  swaggerUrl : option string;
  auth : Auth;
  cacheTTL : Z
}.

(** ** AuthManager.applyAuth *)

(** The part of an [AxiosRequestConfig] the program touches. *)
Record AxiosRequestConfig : Type := {
  headers : option (gmap string string);
  responseType : option string
}.

Definition emptyRequestConfig : AxiosRequestConfig :=
  {| headers := None; responseType := None |}.

(** [bag[name] = value] on an ordinary object, for a string [value].  The
    name [__proto__] reaches the accessor of [Object.prototype] unless the
    bag has a property of that name of its own; the accessor ignores a
    string, so that nothing is stored. *)
Definition assignHeader (name value : string) (bag : gmap string string)
  : gmap string string :=
  if String.eqb name "__proto__" && negb (bool_decide (is_Some (bag !! name)))
  then bag
  else <[name := value]> bag.

(** [requestConfig.headers[name] = value], after
    [requestConfig.headers = requestConfig.headers || {}]. *)
Definition setHeader (name value : string) (rc : AxiosRequestConfig)
  : AxiosRequestConfig :=
  {| headers := Some (assignHeader name value (default ∅ (headers rc)));
     responseType := responseType rc |}.

(** [requestConfig.headers = requestConfig.headers || {}] *)
Definition ensureHeaders (rc : AxiosRequestConfig) : AxiosRequestConfig :=
  {| headers := Some (default ∅ (headers rc));
     responseType := responseType rc |}.

(** [auth.credentials?.field], then the truthiness test of the [if]. *)
Definition credential (a : Auth) (field : Credentials -> option string)
  : option string :=
  match credentials a with
  | Some c => if truthy (field c) then field c else None
  | None => None
  end.

Definition applyAuth (config : Config) (requestConfig : AxiosRequestConfig)
  : AxiosRequestConfig :=
  let a := auth config in
  match type a with
  | AuthNone => requestConfig
  | AuthBasic =>
      let rc := ensureHeaders requestConfig in
      match credential a username, credential a password with
      | Some u, Some p =>
          setHeader "Authorization" ("Basic " +:+ base64 (u +:+ ":" +:+ p)) rc
      | _, _ => rc
      end
  | AuthBearer =>
      let rc := ensureHeaders requestConfig in
      match credential a token with
      | Some t => setHeader "Authorization" ("Bearer " +:+ t) rc
      | None => rc
      end
  | AuthApiKey =>
      let rc := ensureHeaders requestConfig in
      match credential a apiKey with
      | Some k =>
          let headerName :=
            match credentials a with
            | Some c =>
                if String.eqb (apiKeyHeader c) "" then "X-API-Key"
                else apiKeyHeader c
            | None => "X-API-Key"
            end in
          setHeader headerName k rc
      | None => rc
      end
  end.

(** Reading one header of a request; a request without a header bag
    carries no header. *)
Definition header (rc : AxiosRequestConfig) (name : string) : option string :=
  default ∅ (headers rc) !! name.

(** ** Documents and the source registry *)

Record Info : Type := {
  title : string;
  version : string;
  description : option string
}.

Record Tag : Type := {
  tag_name : string;
  tag_description : option string
}.

Record Components : Type := {
  schemas : option (gmap string JSON);
  securitySchemes : option (gmap string JSON)
}.

(** [interface SwaggerDoc].  The parsers' output is cast to it unchecked
    ("Just use the parsed data without additional validation"), so every
    property may be missing from a document that was really fetched. *)
Record SwaggerDoc : Type := {
  openapi : option string;
  swagger : option string;
  info : option Info;
  paths : option (gmap string JSON);
  components : option Components;
  definitions : option (gmap string JSON);
  tags : option (list Tag)
}.

(** An object with none of the properties the program reads. *)
Definition noDoc : SwaggerDoc :=
  {| openapi := None; swagger := None; info := None; paths := None;
     components := None; definitions := None; tags := None |}.

(** One entry of [SwaggerConfig.urls]. *)
Record ApiUrl : Type := {
  api_url : string;
  api_name : string
}.

(** [interface SwaggerConfig]: only [urls] is ever read. *)
Record SwaggerConfig : Type := {
  urls : option (list ApiUrl)
}.

(** What [YAML.parse] and [JSON.parse] hand back, typed [any] in the source:
    [null], or a value seen through each of the two interfaces the code
    casts it to.  A scalar or an array is a value that has none of the
    properties. *)
Inductive JSValue : Type :=
  | JSNull
  | JSObject (asDoc : SwaggerDoc) (asConfig : SwaggerConfig).

(** [interface CombinedSwaggerDoc extends SwaggerDoc] *)
Record CombinedSwaggerDoc : Type := {
  doc : SwaggerDoc;
  source : option string
}.

(** [{ ...doc, source }]: spreading [null] adds no property. *)
Definition withSource (v : JSValue) (name : string) : CombinedSwaggerDoc :=
  {| doc := match v with JSNull => noDoc | JSObject d _ => d end;
     source := Some name |}.

(** ** SwaggerFetcher.getSchemas *)

Definition getSchemas (swaggerDoc : SwaggerDoc) : gmap string JSON :=
  if truthy (openapi swaggerDoc)
  then default ∅ (c ← components swaggerDoc; schemas c)
  else default ∅ (definitions swaggerDoc).

(** ** The order-preserving [Map] behind [combinedDocs] *)

Section JSMap.
Context {V : Type}.

(** [map.set(k, v)]: a key already present keeps its place. *)
Fixpoint Map_set (k : string) (v : V) (m : list (string * V))
  : list (string * V) :=
  match m with
  | [] => [(k, v)]
  | (k', v') :: rest =>
      if String.eqb k k' then (k, v) :: rest
      else (k', v') :: Map_set k v rest
  end.

(** [map.get(k)] *)
Fixpoint Map_get (k : string) (m : list (string * V)) : option V :=
  match m with
  | [] => None
  | (k', v') :: rest => if String.eqb k k' then Some v' else Map_get k rest
  end.

(** [map.values().next().value] *)
Definition Map_first (m : list (string * V)) : option V :=
  match m with
  | [] => None
  | (_, v) :: _ => Some v
  end.
End JSMap.

(** ** The merge accumulators of [fetchSwaggerDoc] *)

(** [allPaths], [allSchemas], [allTags] and [tagSet].  [allPaths] and
    [allSchemas] are ordinary objects filled by assignment: besides their
    own properties, the record keeps for each whether the name [__proto__]
    still reaches the accessor of [Object.prototype] through the object's
    prototype chain. *)
Record Merged : Type := {
  allPaths : gmap string JSON;
  allSchemas : gmap string JSON;
  allTags : list Tag;
  tagSet : gset string;
  pathsAccessor : bool;
  schemasAccessor : bool
}.

Definition nothingMerged : Merged :=
  {| allPaths := ∅; allSchemas := ∅; allTags := []; tagSet := ∅;
     pathsAccessor := true; schemasAccessor := true |}.

(** An object under assignment: its own properties, and whether
    [__proto__] reaches the accessor. *)
Definition Target : Type := gmap string JSON * bool.

(** The object has a property [k] of its own. *)
Definition hasOwn (k : string) (value : JSON) : bool :=
  match value with
  | JObj members => bool_decide (is_Some (Map_get k members))
  | _ => false
  end.

(** [target["__proto__"] = v].  While the target has no property of that
    name and the name reaches the accessor, nothing is stored: the accessor
    makes an object or [null] the target's prototype and ignores any other
    value.  After that the name reaches the accessor again unless the new
    prototype is [null] or an object with a [__proto__] property of its
    own; if it does not, or once the target has the property, the
    assignment stores the value like any other. *)
Definition assignProto (v : JSON) (target : Target) : Target :=
  let '(own, accessor) := target in
  if bool_decide (is_Some (own !! "__proto__")) || negb accessor
  then (<["__proto__" := v]> own, accessor)
  else (own, match v with
             | JNull => false
             | JObj _ => negb (hasOwn "__proto__" v)
             | JArr _ | JBool _ | JNum _ | JStr _ => true
             end).

(** [Object.assign(target, source)], and the loop
    [for (const [k, v] of Object.entries(source)) target[k] = v]:
    every key of [source] is assigned to [target].  Every name but
    [__proto__] becomes a property of the target whatever its prototype
    is. *)
Definition Object_assign (target : Target) (source : gmap string JSON) : Target :=
  let written := (delete "__proto__" source ∪ fst target, snd target) in
  match source !! "__proto__" with
  | Some v => assignProto v written
  | None => written
  end.

(** The schema map one document contributes: [components.schemas] when that
    map is there, otherwise [definitions] when that one is. *)
Definition mergedSchemas (d : SwaggerDoc) : gmap string JSON :=
  match c ← components d; schemas c with
  | Some s => s
  | None => default ∅ (definitions d)
  end.

(** The loop over [doc.tags]. *)
Fixpoint mergeTags (ts : list Tag) (seen : gset string) (out : list Tag)
  : gset string * list Tag :=
  match ts with
  | [] => (seen, out)
  | tag :: rest =>
      if decide (tag_name tag ∈ seen) then mergeTags rest seen out
      else mergeTags rest ({[tag_name tag]} ∪ seen) (out ++ [tag])
  end.

(** Lines 214-241 for a document whose [paths] is [p]. *)
Definition mergeDoc (d : SwaggerDoc) (p : gmap string JSON) (acc : Merged)
  : Merged :=
  let '(seen, out) :=
    match tags d with
    | Some ts => mergeTags ts (tagSet acc) (allTags acc)
    | None => (tagSet acc, allTags acc)
    end in
  let paths' := Object_assign (allPaths acc, pathsAccessor acc) p in
  let schemas' :=
    Object_assign (allSchemas acc, schemasAccessor acc) (mergedSchemas d) in
  {| allPaths := fst paths';
     allSchemas := fst schemas';
     allTags := out;
     tagSet := seen;
     pathsAccessor := snd paths';
     schemasAccessor := snd schemas' |}.

(** ** Exceptions *)

(** A thrown value: the error's name and message. *)
Record JSError : Type := {
  error_name : string;
  error_message : string
}.

(** [new Error(message)] *)
Definition Error (message : string) : JSError :=
  {| error_name := "Error"; error_message := message |}.

Definition TypeError (message : string) : JSError :=
  {| error_name := "TypeError"; error_message := message |}.

(** The text an error contributes to a template string. *)
Definition render (e : JSError) : string :=
  error_name e +:+ ": " +:+ error_message e.

Inductive Result (A : Type) : Type :=
  | Returned (a : A)
  | Thrown (e : JSError).
Arguments Returned {A} a.
Arguments Thrown {A} e.

(** ** The fetcher's state *)

(** A value of the [cache] map. *)
Record CacheEntry : Type := {
  data : JSValue;
  timestamp : Z
}.

(** The mutable fields of a [SwaggerFetcher]; the [swaggerConfig] field is
    [None] while it holds [null]. *)
Record SwaggerFetcher : Type := {
  cache : gmap string CacheEntry;
  combinedDocs : list (string * CombinedSwaggerDoc);
  swaggerConfig : option SwaggerConfig
}.

(** [new SwaggerFetcher(config)] *)
Definition newFetcher : SwaggerFetcher :=
  {| cache := ∅; combinedDocs := []; swaggerConfig := None |}.

(** What [response.data] may be: text, as [responseType: 'text'] asks for,
    or a value the HTTP client decoded on its own. *)
Inductive ResponseData : Type :=
  | DataText (text : string)
  | DataValue (value : JSValue).

(** ** SwaggerFetcher.getApiSources and getDocBySource *)

(** The objects [{ name }] it returns are given by their names. *)
Definition getApiSources (this : SwaggerFetcher) : list string :=
  match swaggerConfig this with
  | None => []
  | Some c =>
      match urls c with
      | None => []
      | Some us => map api_name us
      end
  end.

Definition getDocBySource (this : SwaggerFetcher) (sourceName : string)
  : option CombinedSwaggerDoc :=
  Map_get sourceName (combinedDocs this).

(** ** The pipeline *)

Section Pipeline.

(** The world outside the process: remote servers and the wall clock. *)
Context {Env : Type}.

(** [axios.get(url, config)]: the answer, and the world afterwards. *)
Variable axios_get :
  Env -> string -> AxiosRequestConfig -> Result ResponseData * Env.

(** [Date.now()] *)
Variable Date_now : Env -> Z.

(** [YAML.parse] and [JSON.parse]. *)
Variable YAML_parse : string -> Result JSValue.
Variable JSON_parse : string -> Result JSValue.

(** [new URL(url)], then [protocol + "//" + host]. *)
Variable URL_origin : string -> Result string.

Variable config : Config.

(** The state an [async] method runs in: the instance, the world, and the
    requests sent so far, oldest first. *)
Record World : Type := {
  this : SwaggerFetcher;
  env : Env;
  sent : list (string * AxiosRequestConfig)
}.

Definition M (A : Type) : Type := World -> Result A * World.

Definition ret {A} (a : A) : M A := fun w => (Returned a, w).

Definition throw {A} (e : JSError) : M A := fun w => (Thrown e, w).

Definition bind {A B} (m : M A) (k : A -> M B) : M B :=
  fun w =>
    match m w with
    | (Returned a, w') => k a w'
    | (Thrown e, w') => (Thrown e, w')
    end.

(** [try { body } catch (error) { handler }]: what [body] did to the
    state before it threw stays done. *)
Definition try_catch {A} (body : M A) (handler : JSError -> M A) : M A :=
  fun w =>
    match body w with
    | (Returned a, w') => (Returned a, w')
    | (Thrown e, w') => handler e w'
    end.

Definition lift {A} (r : Result A) : M A := fun w => (r, w).

Definition getThis : M SwaggerFetcher := fun w => (Returned (this w), w).

Definition setThis (f : SwaggerFetcher -> SwaggerFetcher) : M unit :=
  fun w => (Returned tt, {| this := f (this w); env := env w; sent := sent w |}).

Definition now : M Z := fun w => (Returned (Date_now (env w)), w).

Notation "x <- m ;; k" := (bind m (fun x => k))
  (at level 100, m at next level, right associativity).
Notation "m ;;; k" := (bind m (fun _ => k))
  (at level 100, right associativity).

(** [AuthManager.authenticatedRequest] *)
Definition authenticatedRequest (url : string)
    (requestConfig : option AxiosRequestConfig) : M ResponseData :=
  fun w =>
    let authConfig := applyAuth config (default emptyRequestConfig requestConfig) in
    let authConfig :=
      {| headers := headers authConfig; responseType := Some "text" |} in
    let '(response, env') := axios_get (env w) url authConfig in
    (response,
     {| this := this w; env := env'; sent := sent w ++ [(url, authConfig)] |}).

(** Field updates of the instance. *)
Definition cache_set (url : string) (entry : CacheEntry)
    (f : SwaggerFetcher) : SwaggerFetcher :=
  {| cache := <[url := entry]> (cache f);
     combinedDocs := combinedDocs f;
     swaggerConfig := swaggerConfig f |}.

Definition combinedDocs_set (name : string) (d : CombinedSwaggerDoc)
    (f : SwaggerFetcher) : SwaggerFetcher :=
  {| cache := cache f;
     combinedDocs := Map_set name d (combinedDocs f);
     swaggerConfig := swaggerConfig f |}.

Definition combinedDocs_clear (f : SwaggerFetcher) : SwaggerFetcher :=
  {| cache := cache f; combinedDocs := []; swaggerConfig := swaggerConfig f |}.

Definition swaggerConfig_assign (v : JSValue) (f : SwaggerFetcher)
  : SwaggerFetcher :=
  {| cache := cache f;
     combinedDocs := combinedDocs f;
     swaggerConfig := match v with JSNull => None | JSObject _ c => Some c end |}.

(** [fetchSwaggerConfig] *)
Definition fetchSwaggerConfig (baseUrl : string) : M JSValue :=
  try_catch
    (configData <- authenticatedRequest (baseUrl +:+ "/swagger-config.json") None ;;
     match configData with
     | DataText text => lift (JSON_parse text)
     | DataValue parsedConfig => ret parsedConfig
     end)
    (fun error =>
       throw (Error ("Failed to fetch swagger-config.json: " +:+ render error))).

(** [fetchIndividualSwaggerDoc] *)
Definition fetchIndividualSwaggerDoc (baseUrl path : string) : M JSValue :=
  try_catch
    (docData <- authenticatedRequest (baseUrl +:+ "/" +:+ path) None ;;
     match docData with
     | DataText text =>
         if String.eqb (trim text) "" then throw (Error "Empty response")
         else
           match YAML_parse text with
           | Returned parsedData => ret parsedData
           | Thrown yamlError =>
               match JSON_parse text with
               | Returned parsedData => ret parsedData
               | Thrown jsonError =>
                   throw (Error
                     ("Unable to parse response as YAML or JSON. YAML error: "
                      +:+ render yamlError +:+ ", JSON error: "
                      +:+ render jsonError))
               end
           end
     | DataValue parsedData => ret parsedData
     end)
    (fun error =>
       throw (Error ("Failed to fetch individual Swagger doc from " +:+ path
                     +:+ ": " +:+ render error))).

(** The body of the loop over [this.swaggerConfig.urls] (lines 201-246):
    the document is stored in [combinedDocs] before its [paths] is read,
    and any exception leaves the accumulators as they were. *)
Definition processApiConfig (baseUrl : string) (apiConfig : ApiUrl)
    (acc : Merged) : M Merged :=
  try_catch
    (parsed <- fetchIndividualSwaggerDoc baseUrl (api_url apiConfig) ;;
     setThis (combinedDocs_set (api_name apiConfig)
                (withSource parsed (api_name apiConfig))) ;;;
     match parsed with
     | JSNull =>
         throw (TypeError "Cannot read properties of null (reading 'paths')")
     | JSObject d _ =>
         match paths d with
         | None => throw (TypeError "Cannot convert undefined or null to object")
         | Some p => ret (mergeDoc d p acc)
         end
     end)
    (fun _ => ret acc).

Fixpoint processAll (baseUrl : string) (entries : list ApiUrl) (acc : Merged)
  : M Merged :=
  match entries with
  | [] => ret acc
  | apiConfig :: rest =>
      acc' <- processApiConfig baseUrl apiConfig acc ;;
      processAll baseUrl rest acc'
  end.

(** The combined document (lines 250-265). *)
Definition combine (firstDoc : option CombinedSwaggerDoc) (sources : nat)
    (acc : Merged) : SwaggerDoc :=
  {| openapi := d ← firstDoc; openapi (doc d);
     swagger := d ← firstDoc; swagger (doc d);
     info := Some
       {| title := "Combined API Documentation";
          version := "1.0.0";
          description := Some ("Combined documentation from "
                               +:+ pretty sources +:+ " API sources") |};
     paths := Some (allPaths acc);
     components := Some
       {| schemas := Some (allSchemas acc);
          securitySchemes :=
            d ← firstDoc; c ← components (doc d); securitySchemes c |};
     definitions := None;
     tags := Some (allTags acc) |}.

(** The direct-file branch (lines 139-174). *)
Definition fetchDirect (url : string) : M JSValue :=
  try_catch
    (docData <- authenticatedRequest url None ;;
     parsedData <-
       match docData with
       | DataText text =>
           match YAML_parse text with
           | Returned v => ret v
           | Thrown _ =>
               match JSON_parse text with
               | Returned v => ret v
               | Thrown _ =>
                   throw (Error "Unable to parse response as YAML or JSON")
               end
           end
       | DataValue v => ret v
       end ;;
     t <- now ;;
     setThis (cache_set url {| data := parsedData; timestamp := t |}) ;;;
     ret parsedData)
    (fun error =>
       throw (Error ("Failed to fetch Swagger documentation: " +:+ render error))).

(** The registry branch (lines 177-274). *)
Definition fetchHub (url : string) : M JSValue :=
  baseUrl <- lift (URL_origin url) ;;
  registry <- fetchSwaggerConfig baseUrl ;;
  setThis (swaggerConfig_assign registry) ;;;
  match registry with
  | JSNull =>
      throw (TypeError "Cannot read properties of null (reading 'urls')")
  | JSObject _ c =>
      match urls c with
      | None | Some [] => throw (Error "No API URLs found in swagger-config.json")
      | Some entries =>
          setThis combinedDocs_clear ;;;
          acc <- processAll baseUrl entries nothingMerged ;;
          self <- getThis ;;
          let firstDoc := Map_first (combinedDocs self) in
          let combinedDoc :=
            JSObject (combine firstDoc (length entries) acc) {| urls := None |} in
          t <- now ;;
          setThis (cache_set url {| data := combinedDoc; timestamp := t |}) ;;;
          ret combinedDoc
      end
  end.

Definition isDirect (url : string) : bool :=
  endsWith url ".json" || endsWith url ".yaml" || endsWith url ".yml".

(** Lines 136-278: what runs when the cache has no fresh entry. *)
Definition fetchFresh (url : string) : M JSValue :=
  try_catch
    (if isDirect url then fetchDirect url else fetchHub url)
    (fun error =>
       throw (Error ("Failed to fetch Swagger documentation: " +:+ render error))).

(** [fetchSwaggerDoc] *)
Definition fetchSwaggerDoc (url : string) : M JSValue :=
  self <- getThis ;;
  t <- now ;;
  match cache self !! url with
  | Some cached =>
      if (t - timestamp cached <? cacheTTL config)%Z then ret (data cached)
      else fetchFresh url
  | None => fetchFresh url
  end.

End Pipeline.

(** ** Reading the pipeline from outside *)

Section Observations.
Context {Env : Type}.
Variable axios_get :
  Env -> string -> AxiosRequestConfig -> Result ResponseData * Env.
Variable YAML_parse : string -> Result JSValue.
Variable JSON_parse : string -> Result JSValue.
Variable config : Config.

(** The request configuration [authenticatedRequest] sends: it is always
    called without a configuration of the caller's. *)
Definition textRequest : AxiosRequestConfig :=
  {| headers := headers (applyAuth config emptyRequestConfig);
     responseType := Some "text" |}.

(** The decoding of a sub-document's answer (lines 92-114). *)
Definition decodeIndividual (r : Result ResponseData) : Result JSValue :=
  match r with
  | Thrown e => Thrown e
  | Returned (DataValue v) => Returned v
  | Returned (DataText text) =>
      if blank text then Thrown (Error "Empty response")
      else
        match YAML_parse text with
        | Returned v => Returned v
        | Thrown yamlError =>
            match JSON_parse text with
            | Returned v => Returned v
            | Thrown jsonError =>
                Thrown (Error
                  ("Unable to parse response as YAML or JSON. YAML error: "
                   +:+ render yamlError +:+ ", JSON error: "
                   +:+ render jsonError))
            end
        end
  end.

Definition wrapIndividual (path : string) (r : Result JSValue)
  : Result JSValue :=
  match r with
  | Returned v => Returned v
  | Thrown e =>
      Thrown (Error ("Failed to fetch individual Swagger doc from " +:+ path
                     +:+ ": " +:+ render e))
  end.

(** The decoding of a direct document's answer (lines 144-161). *)
Definition decodeDirect (r : Result ResponseData) : Result JSValue :=
  match r with
  | Thrown e => Thrown e
  | Returned (DataValue v) => Returned v
  | Returned (DataText text) =>
      match YAML_parse text with
      | Returned v => Returned v
      | Thrown _ =>
          match JSON_parse text with
          | Returned v => Returned v
          | Thrown _ => Thrown (Error "Unable to parse response as YAML or JSON")
          end
      end
  end.

(** The outermost [catch] of [fetchSwaggerDoc]. *)
Definition wrapFetch (e : JSError) : JSError :=
  Error ("Failed to fetch Swagger documentation: " +:+ render e).

(** [fetchIndividualSwaggerDoc] seen from the remote world alone: its
    answer in the world [e], and the world it leaves. *)
Definition individual (baseUrl path : string) (e : Env)
  : Result JSValue * Env :=
  let '(r, w) :=
    fetchIndividualSwaggerDoc axios_get YAML_parse JSON_parse config
      baseUrl path {| this := newFetcher; env := e; sent := [] |} in
  (r, env w).

(** What the merge takes from an answer: the document and its [paths],
    when both are there. *)
Definition contribution (r : Result JSValue)
  : option (SwaggerDoc * gmap string JSON) :=
  match r with
  | Returned (JSObject d _) => p ← paths d; Some (d, p)
  | _ => None
  end.

(** Every entry of the list, fetched in order from the world [e], ends
    in the loop's [catch]. *)
Fixpoint allSkipped (baseUrl : string) (entries : list ApiUrl) (e : Env)
  : Prop :=
  match entries with
  | [] => True
  | apiConfig :: rest =>
      let r := individual baseUrl (api_url apiConfig) e in
      contribution (fst r) = None /\ allSkipped baseUrl rest (snd r)
  end.
End Observations.

Section Worlds.
Context {Env : Type}.
Variable Date_now : Env -> Z.

(** The world in which the loop over the registry starts: the registry is
    assigned to [swaggerConfig] and [combinedDocs] is cleared. *)
Definition registered (registry : JSValue) (w : World (Env := Env))
  : World (Env := Env) :=
  {| this := combinedDocs_clear (swaggerConfig_assign registry (this w));
     env := env w;
     sent := sent w |}.

(** The world a successful registry fetch ends in: the combined document
    [cd] is cached at the time read last. *)
Definition stored (url : string) (cd : JSValue) (w : World (Env := Env))
  : World (Env := Env) :=
  {| this := cache_set url {| data := cd; timestamp := Date_now (env w) |} (this w);
     env := env w;
     sent := sent w |}.

(** The combined document built from the loop's final state. *)
Definition combined (entries : list ApiUrl) (acc : Merged)
    (w : World (Env := Env)) : JSValue :=
  JSObject (combine (Map_first (combinedDocs (this w))) (length entries) acc)
    {| urls := None |}.
End Worlds.

(** The tags of a document, none when the property is missing. *)
Definition tagsOf (d : SwaggerDoc) : list Tag := default [] (tags d).

(** The first tag of a list that bears the name [n]. *)
Definition firstNamed (n : string) (ts : list Tag) : option Tag :=
  List.find (fun t => String.eqb (tag_name t) n) ts.

(** [tagSet] holds the names of [allTags], each once. *)
Definition tagsKept (seen : gset string) (out : list Tag) : Prop :=
  (forall n, n ∈ seen <-> n ∈ map tag_name out) /\ NoDup (map tag_name out).

(** A merged state whose tag bookkeeping is sound. *)
Definition sound (acc : Merged) : Prop := tagsKept (tagSet acc) (allTags acc).

(** The state of the cache for [url] at time [t] under the configured TTL:
    the fresh entry, if there is one. *)
Definition freshEntry (config : Config) (f : SwaggerFetcher) (url : string)
    (t : Z) : option CacheEntry :=
  match cache f !! url with
  | Some cached =>
      if (t - timestamp cached <? cacheTTL config)%Z then Some cached else None
  | None => None
  end.

(** A document is modern when its [openapi] property holds a version, that
    is a non-empty string: this is what [if (swaggerDoc.openapi)] tests. *)
Definition modern (d : SwaggerDoc) : Prop := truthy (openapi d) = true.

(** The credential that would activate the configured branch is missing or
    empty. *)
Definition missingCredential (a : Auth) : bool :=
  match type a with
  | AuthNone => true
  | AuthBasic =>
      negb (truthy (c ← credentials a; username c)
            && truthy (c ← credentials a; password c))
  | AuthBearer => negb (truthy (c ← credentials a; token c))
  | AuthApiKey => negb (truthy (c ← credentials a; apiKey c))
  end.


(** ** A small remote world, for running the pipeline on concrete inputs *)

Module Demo.

(** The world is the wall clock, in milliseconds; every request takes 40. *)
Definition Env : Type := Z.

Definition notFound : JSError :=
  {| error_name := "AxiosError";
     error_message := "Request failed with status code 404" |}.

Definition syntaxError : JSError :=
  {| error_name := "SyntaxError"; error_message := "Unexpected token" |}.

Definition invalidUrl : JSError := TypeError "Invalid URL".

Definition usersText : string :=
  "{openapi: 3.0.0, paths: {/users: {get: {}}, /health: {get: {summary: users}}}}".
Definition billingText : string :=
  "{swagger: 2.0, paths: {/invoices: {post: {}}, /health: {get: {summary: billing}}}}".
Definition legacyText : string :=
  "{swagger: 2.0, paths: {/old: {}}, components: {schemas: {Pet: modern}}, definitions: {Pet: legacy}}".
Definition barePathsText : string := "{title: no paths here}".
Definition registryText : string := "{urls: [users, orders, billing]}".
Definition sameNameText : string := "{urls: [core, orders, core]}".
Definition downText : string := "{urls: [orders, blank, garbage, bare]}".
Definition legacyRegistryText : string := "{urls: [legacy]}".

Definition usersDoc : SwaggerDoc :=
  {| openapi := Some "3.0.0";
     swagger := None;
     info := Some {| title := "Users"; version := "2.1.0"; description := None |};
     paths := Some (<["/users" := JObj [("get", JObj [])]]>
                    (<["/health" := JObj [("get", JObj [("summary", JStr "users")])]]> ∅));
     components := Some
       {| schemas := Some (<["User" := JObj [("type", JStr "object")]]>
                           (<["Error" := JStr "users"]> ∅));
          securitySchemes := Some (<["bearerAuth" := JObj [("type", JStr "http")]]> ∅) |};
     definitions := None;
     tags := Some [ {| tag_name := "users"; tag_description := Some "User accounts" |};
                    {| tag_name := "common"; tag_description := Some "Shared, per users" |} ] |}.

Definition billingDoc : SwaggerDoc :=
  {| openapi := None;
     swagger := Some "2.0";
     info := Some {| title := "Billing"; version := "0.9"; description := None |};
     paths := Some (<["/invoices" := JObj [("post", JObj [])]]>
                    (<["/health" := JObj [("get", JObj [("summary", JStr "billing")])]]> ∅));
     components := None;
     definitions := Some (<["Invoice" := JObj [("type", JStr "object")]]>
                          (<["Error" := JStr "billing"]> ∅));
     tags := Some [ {| tag_name := "common"; tag_description := Some "Shared, per billing" |};
                    {| tag_name := "billing"; tag_description := None |} ] |}.

(** A legacy document that carries both schema maps. *)
Definition legacyDoc : SwaggerDoc :=
  {| openapi := None;
     swagger := Some "2.0";
     info := None;
     paths := Some (<["/old" := JObj []]> ∅);
     components := Some {| schemas := Some (<["Pet" := JStr "modern"]> ∅);
                           securitySchemes := None |};
     definitions := Some (<["Pet" := JStr "legacy"]> ∅);
     tags := None |}.

Definition entry (url name : string) : ApiUrl :=
  {| api_url := url; api_name := name |}.

Definition registry : list ApiUrl :=
  [entry "users.yaml" "users"; entry "orders.yaml" "orders";
   entry "billing.yaml" "billing"].

(** A registry whose first and last entries bear the same name. *)
Definition sameName : list ApiUrl :=
  [entry "users.yaml" "core"; entry "orders.yaml" "orders";
   entry "billing.yaml" "core"].

Definition down : list ApiUrl :=
  [entry "orders.yaml" "orders"; entry "blank.yaml" "blank";
   entry "garbage.yaml" "garbage"; entry "bare.yaml" "bare"].

Definition object (d : SwaggerDoc) : JSValue := JSObject d {| urls := None |}.

Definition registryValue (entries : list ApiUrl) : JSValue :=
  JSObject noDoc {| urls := Some entries |}.

(** The servers: what each URL answers. *)
Definition served : list (string * ResponseData) :=
  [ ("http://api.test/swagger-config.json", DataText registryText);
    ("http://api.test/users.yaml", DataText usersText);
    ("http://api.test/billing.yaml", DataText billingText);
    ("http://api.test/blank.yaml", DataText "  ");
    ("http://api.test/garbage.yaml", DataText "{{{");
    ("http://api.test/bare.yaml", DataText barePathsText);
    ("http://dup.test/swagger-config.json", DataText sameNameText);
    ("http://dup.test/users.yaml", DataText usersText);
    ("http://dup.test/billing.yaml", DataText billingText);
    ("http://down.test/swagger-config.json", DataText downText);
    ("http://down.test/blank.yaml", DataText "  ");
    ("http://down.test/garbage.yaml", DataText "{{{");
    ("http://down.test/bare.yaml", DataText barePathsText);
    ("http://legacy.test/swagger-config.json", DataText legacyRegistryText);
    ("http://legacy.test/legacy.yaml", DataText legacyText);
    ("http://none.test/swagger-config.json", DataText "{urls: []}") ].

Definition axios_get (e : Env) (url : string) (_ : AxiosRequestConfig)
  : Result ResponseData * Env :=
  (match Map_get url served with
   | Some d => Returned d
   | None => Thrown notFound
   end, (e + 40)%Z).

Definition Date_now (e : Env) : Z := e.

(** The parsers, on the texts the servers send.  Like the [yaml]
    package, [YAML_parse] reads an empty document as [null]. *)
Definition parsed : list (string * JSValue) :=
  [ (usersText, object usersDoc);
    (billingText, object billingDoc);
    (legacyText, object legacyDoc);
    (barePathsText, object noDoc);
    (registryText, registryValue registry);
    (sameNameText, registryValue sameName);
    (downText, registryValue down);
    (legacyRegistryText, registryValue [entry "legacy.yaml" "legacy"]);
    ("{urls: []}", registryValue []) ].

Definition YAML_parse (text : string) : Result JSValue :=
  if blank text then Returned JSNull
  else match Map_get text parsed with
       | Some v => Returned v
       | None => Thrown syntaxError
       end.

Definition JSON_parse (text : string) : Result JSValue :=
  match Map_get text parsed with
  | Some v => Returned v
  | None => Thrown syntaxError
  end.

Definition origins : list (string * string) :=
  [ ("http://api.test/docs", "http://api.test");
    ("http://dup.test/docs", "http://dup.test");
    ("http://down.test/docs", "http://down.test");
    ("http://legacy.test/docs", "http://legacy.test");
    ("http://none.test/docs", "http://none.test") ].

Definition URL_origin (url : string) : Result string :=
  match Map_get url origins with
  | Some o => Returned o
  | None => Thrown invalidUrl
  end.

Definition config : Config :=
  {| swaggerUrl := None;
     auth := {| type := AuthBearer;
                credentials := Some {| username := None; password := None;
                                       token := Some "s3cret"; apiKey := None;
                                       apiKeyHeader := "X-API-Key" |} |};
     cacheTTL := 300000 |}.

Definition fetch (url : string) : M JSValue :=
  fetchSwaggerDoc axios_get Date_now YAML_parse JSON_parse URL_origin config url.

(** A new instance, at time [t]. *)
Definition start (t : Z) : World :=
  {| this := newFetcher; env := t; sent := [] |}.

(** The same instance, later: the clock reads [t]. *)
Definition later (t : Z) (w : World (Env := Env)) : World :=
  {| this := this w; env := t; sent := sent w |}.

(** The instance after a first fetch of the api.test registry at time 0. *)
Definition afterHub : World := snd (fetch "http://api.test/docs" (start 0)).

(** An API key configuration with an empty key, and a request that already
    carries a header. *)
Definition emptyKeyConfig : Config :=
  {| swaggerUrl := None;
     auth := {| type := AuthApiKey;
                credentials := Some {| username := None; password := None;
                                       token := None; apiKey := Some "";
                                       apiKeyHeader := "X-Key" |} |};
     cacheTTL := 300000 |}.

Definition acceptJson : AxiosRequestConfig :=
  {| headers := Some {[ "Accept" := "application/json" ]}; responseType := None |}.

End Demo.

(** * The query functions of [SwaggerFetcher] and [validateSwaggerDoc] *)

(** ** More of JavaScript's strings and values *)

(** [String.prototype.toLowerCase] on one code unit below 256: the letters
    A-Z and the Latin-1 capitals (0xC0-0xDE but the sign 0xD7) move up by
    32. *)
Definition lowerUnit (c : ascii) : ascii :=
  let n := nat_of_ascii c in
  if ((65 <=? n) && (n <=? 90) || (192 <=? n) && (n <=? 222) && negb (n =? 215))%nat
  then ascii_of_nat (n + 32)
  else c.

Fixpoint toLowerCase (s : string) : string :=
  match s with
  | EmptyString => EmptyString
  | String c rest => String (lowerUnit c) (toLowerCase rest)
  end.

(** Upper-casing of the letters a-z.  [getEndpoints] applies
    [toUpperCase] only to keys whose lower case is a method name; such a
    key is made of the letters A-Z and a-z (lemma [isMethod_letters]),
    and on those this is [String.prototype.toUpperCase]. *)
Definition upperUnit (c : ascii) : ascii :=
  let n := nat_of_ascii c in
  if ((97 <=? n) && (n <=? 122))%nat then ascii_of_nat (n - 32) else c.

Fixpoint toUpperCase (s : string) : string :=
  match s with
  | EmptyString => EmptyString
  | String c rest => String (upperUnit c) (toUpperCase rest)
  end.

(** [text.includes(piece)] on strings. *)
Fixpoint includes (text piece : string) : bool :=
  String.prefix piece text
  || match text with
     | EmptyString => false
     | String _ rest => includes rest piece
     end.

(** [parts.join(' ')] *)
Fixpoint join (parts : list string) : string :=
  match parts with
  | [] => ""
  | [p] => p
  | p :: rest => p +:+ " " +:+ join rest
  end.

(** Truthiness of a value; [None] stands for [undefined]. *)
Definition truthyValue (o : option JSON) : bool :=
  match o with
  | None | Some JNull => false
  | Some (JBool b) => b
  | Some (JNum z) => negb (z =? 0)%Z
  | Some (JStr s) => negb (String.eqb s "")
  | Some (JArr _) | Some (JObj _) => true
  end.

(** The characters of a string, as [for...of] and spreading yield them. *)
Fixpoint characters (s : string) : list JSON :=
  match s with
  | EmptyString => []
  | String c rest => JStr (String c EmptyString) :: characters rest
  end.

(** The keys ["0"], ["1"], ... of an array or of a string. *)
Definition indexed (items : list JSON) : list (string * JSON) :=
  imap (fun i v => (pretty i, v)) items.

(** [Object.entries(value)] for a value typed [any].  The members of an
    object are its properties in insertion order, each key once; the
    integer-like keys, which JavaScript enumerates first, never name an
    HTTP method. *)
Definition Object_entries (value : JSON) : Result (list (string * JSON)) :=
  match value with
  | JNull => Thrown (TypeError "Cannot convert undefined or null to object")
  | JBool _ | JNum _ => Returned []
  | JStr s => Returned (indexed (characters s))
  | JArr items => Returned (indexed items)
  | JObj members => Returned members
  end.

(** [op.name] for one of the property names [getEndpoints] reads
    (summary, description, operationId, parameters, requestBody, responses,
    tags): on [null] the access throws; only an object can have the
    property. *)
Definition property (op : JSON) (name : string) : Result (option JSON) :=
  match op with
  | JNull =>
      Thrown (TypeError ("Cannot read properties of null (reading '"
                         +:+ name +:+ "')"))
  | JObj members => Returned (Map_get name members)
  | _ => Returned None
  end.

(** Sequencing in [Result]. *)
Definition andThen {A B} (r : Result A) (k : A -> Result B) : Result B :=
  match r with
  | Returned a => k a
  | Thrown e => Thrown e
  end.

(** ** getEndpoints *)

(** [interface EndpointInfo]; the properties copied from the operation
    are whatever values the document holds. *)
Record EndpointInfo : Type := {
  ep_path : string;
  ep_method : string;
  ep_summary : option JSON;
  ep_description : option JSON;
  ep_operationId : option JSON;
  ep_parameters : option JSON;
  ep_requestBody : option JSON;
  ep_responses : option JSON;
  ep_tags : option JSON
}.

Definition httpMethods : list string :=
  ["get"; "post"; "put"; "delete"; "patch"; "options"; "head"].

(** [[...].includes(method.toLowerCase())] *)
Definition isMethod (method : string) : bool :=
  bool_decide (toLowerCase method ∈ httpMethods).

(** The object literal pushed for one operation (lines 297-308). *)
Definition endpointOf (path method : string) (op : JSON) : Result EndpointInfo :=
  andThen (property op "summary") (fun summary =>
  andThen (property op "description") (fun description =>
  andThen (property op "operationId") (fun operationId =>
  andThen (property op "parameters") (fun parameters =>
  andThen (property op "requestBody") (fun requestBody =>
  andThen (property op "responses") (fun responses =>
  andThen (property op "tags") (fun tags =>
  Returned {| ep_path := path; ep_method := toUpperCase method;
              ep_summary := summary; ep_description := description;
              ep_operationId := operationId; ep_parameters := parameters;
              ep_requestBody := requestBody; ep_responses := responses;
              ep_tags := tags |}))))))).

(** The inner loop, over the entries of one path item. *)
Fixpoint operationsOf (path : string) (entries : list (string * JSON))
  : Result (list EndpointInfo) :=
  match entries with
  | [] => Returned []
  | (method, operation) :: rest =>
      if isMethod method then
        andThen (endpointOf path method operation) (fun ep =>
        andThen (operationsOf path rest) (fun eps => Returned (ep :: eps)))
      else operationsOf path rest
  end.

(** The outer loop, over the entries of [paths]. *)
Fixpoint endpointsOf (items : list (string * JSON)) : Result (list EndpointInfo) :=
  match items with
  | [] => Returned []
  | (path, pathItem) :: rest =>
      andThen (Object_entries pathItem) (fun entries =>
      andThen (operationsOf path entries) (fun eps =>
      andThen (endpointsOf rest) (fun more => Returned (eps ++ more)%list)))
  end.

(** [getEndpoints]; the paths are enumerated in the order of
    [map_to_list], which is not JavaScript's: the properties below speak
    of which endpoints are listed, not of the order of the paths. *)
Definition getEndpoints (swaggerDoc : SwaggerDoc) : Result (list EndpointInfo) :=
  match paths swaggerDoc with
  | None => Thrown (TypeError "Cannot convert undefined or null to object")
  | Some p => endpointsOf (map_to_list p)
  end.

(** ** getEndpointsByTag *)

(** [endpoint.tags && endpoint.tags.includes(tag)], as the filter reads
    it: an array includes the tag when one of its items is that string, a
    string when the tag is a piece of it; any other truthy value has no
    [includes] to call. *)
Definition tagsInclude (tags : option JSON) (tag : string) : Result bool :=
  if truthyValue tags then
    match tags with
    | Some (JArr items) =>
        Returned (existsb (fun v => match v with
                                    | JStr s => String.eqb s tag
                                    | _ => false
                                    end) items)
    | Some (JStr s) => Returned (includes s tag)
    | _ => Thrown (TypeError "endpoint.tags.includes is not a function")
    end
  else Returned false.

(** [items.filter(keep)] with a callback that may throw. *)
Fixpoint filterR {A} (keep : A -> Result bool) (items : list A) : Result (list A) :=
  match items with
  | [] => Returned []
  | x :: rest =>
      andThen (keep x) (fun k =>
      andThen (filterR keep rest) (fun kept =>
      Returned (if k then x :: kept else kept)))
  end.

Definition getEndpointsByTag (swaggerDoc : SwaggerDoc) (tag : string)
  : Result (list EndpointInfo) :=
  andThen (getEndpoints swaggerDoc) (fun allEndpoints =>
  filterR (fun endpoint => tagsInclude (ep_tags endpoint) tag) allEndpoints).

(** ** searchEndpoints *)

(** The values of [tags] that can be searched and filtered: the falsy
    ones, the arrays and the strings. *)
Definition spreadable (tags : option JSON) : bool :=
  negb (truthyValue tags)
  || match tags with
     | Some (JArr _) | Some (JStr _) => true
     | _ => false
     end.

Section Search.

(** [String(value)] for a value that is neither a string nor [null], as
    [join] applies it to an element.  It throws where the value has no
    primitive form: an object whose [toString] property is not a function,
    for one. *)
Variable ToString : JSON -> Result string.

(** The text of one element of the array that is joined. *)
Definition elementText (v : JSON) : Result string :=
  match v with
  | JNull => Returned ""
  | JStr s => Returned s
  | other => ToString other
  end.

(** The texts of the elements, taken in order as [join] does. *)
Fixpoint textsOf (elements : list JSON) : Result (list string) :=
  match elements with
  | [] => Returned []
  | v :: rest =>
      andThen (elementText v) (fun text =>
      andThen (textsOf rest) (fun texts => Returned (text :: texts)))
  end.

(** [value || ''] *)
Definition orEmpty (o : option JSON) : JSON :=
  if truthyValue o then default (JStr "") o else JStr "".

(** [...(endpoint.tags || [])]: an array spreads its items, a string its
    characters; no other truthy value can be spread. *)
Definition spreadTags (tags : option JSON) : Result (list JSON) :=
  if truthyValue tags then
    match tags with
    | Some (JArr items) => Returned items
    | Some (JStr s) => Returned (characters s)
    | _ => Thrown (TypeError "Spread syntax requires ...iterable[Symbol.iterator] to be a function")
    end
  else Returned [].

(** The array literal of lines 337-343, once [tags] is spread. *)
Definition searched (endpoint : EndpointInfo) (tags : list JSON) : list JSON :=
  ([JStr (ep_path endpoint); JStr (ep_method endpoint);
    orEmpty (ep_summary endpoint);
    orEmpty (ep_description endpoint);
    orEmpty (ep_operationId endpoint)]
   ++ tags)%list.

(** [searchableText] (lines 336-343). *)
Definition searchableText (endpoint : EndpointInfo) : Result string :=
  andThen (spreadTags (ep_tags endpoint)) (fun tags =>
  andThen (textsOf (searched endpoint tags)) (fun texts =>
  Returned (toLowerCase (join texts)))).

(** The element has a text. *)
Definition textual (v : JSON) : Prop :=
  exists text, elementText v = Returned text.

(** The endpoint can be searched: its tags can be spread, and each value
    that is joined has a text. *)
Definition searchable (endpoint : EndpointInfo) : Prop :=
  spreadable (ep_tags endpoint) = true
  /\ textual (orEmpty (ep_summary endpoint))
  /\ textual (orEmpty (ep_description endpoint))
  /\ textual (orEmpty (ep_operationId endpoint))
  /\ forall items, ep_tags endpoint = Some (JArr items) ->
       forall v, v ∈ items -> textual v.

Definition searchEndpoints (swaggerDoc : SwaggerDoc) (query : string)
  : Result (list EndpointInfo) :=
  andThen (getEndpoints swaggerDoc) (fun allEndpoints =>
  let lowerQuery := toLowerCase query in
  filterR (fun endpoint =>
             andThen (searchableText endpoint) (fun text =>
             Returned (includes text lowerQuery)))
          allEndpoints).

End Search.

(** ** validateSwaggerDoc *)

Section Validation.
Context {Env : Type}.
Variable axios_get :
  Env -> string -> AxiosRequestConfig -> Result ResponseData * Env.
Variable Date_now : Env -> Z.
Variable YAML_parse : string -> Result JSValue.
Variable JSON_parse : string -> Result JSValue.
Variable URL_origin : string -> Result string.
Variable config : Config.

(** [SwaggerParser.validate(doc)]: it returns or throws, and may do to the
    state whatever it likes (it resolves references over the network and
    rewrites the document it is given). *)
Variable SwaggerParser_validate : JSValue -> M (Env := Env) unit.

Definition validateSwaggerDoc (url : string) : M bool :=
  try_catch
    (bind (fetchSwaggerDoc axios_get Date_now YAML_parse JSON_parse URL_origin
             config url) (fun doc =>
     bind (SwaggerParser_validate doc) (fun _ => ret true)))
    (fun _ => ret false).
End Validation.

(** ** Reading a whole registry fetch from outside *)

Section Traces.
Context {Env : Type}.
Variable axios_get :
  Env -> string -> AxiosRequestConfig -> Result ResponseData * Env.
Variable YAML_parse : string -> Result JSValue.
Variable JSON_parse : string -> Result JSValue.
Variable config : Config.

(** The answers to the entries of a registry, fetched in order from the
    world [e]. *)
Fixpoint answersOf (baseUrl : string) (entries : list ApiUrl) (e : Env)
  : list (ApiUrl * Result JSValue) :=
  match entries with
  | [] => []
  | apiConfig :: rest =>
      let r := individual axios_get YAML_parse JSON_parse config
                 baseUrl (api_url apiConfig) e in
      (apiConfig, fst r) :: answersOf baseUrl rest (snd r)
  end.
End Traces.

(** The documents merged, in order: those answers whose [paths] could be
    read. *)
Definition mergedOf (answers : list (ApiUrl * Result JSValue))
  : list (SwaggerDoc * gmap string JSON) :=
  omap (fun a => contribution (snd a)) answers.

(** The documents retained, in order: every answer that was returned. *)
Definition retainedOf (answers : list (ApiUrl * Result JSValue))
  : list (string * CombinedSwaggerDoc) :=
  omap (fun a => match snd a with
                 | Returned v => Some (api_name (fst a), withSource v (api_name (fst a)))
                 | Thrown _ => None
                 end) answers.

(** The value a key has in the last map of a list that holds it. *)
Fixpoint lastOf (k : string) (maps : list (gmap string JSON)) : option JSON :=
  match maps with
  | [] => None
  | m :: rest =>
      match lastOf k rest with
      | Some v => Some v
      | None => m !! k
      end
  end.

Section Effects.
Context {Env : Type}.
Variable config : Config.

(** What a call for [url] may do to the state between [w] and [w']: the
    cache changes, if at all, at [url] only, and every request sent is the
    one [authenticatedRequest] builds. *)
Definition touchesOnly (url : string) (w w' : World (Env := Env)) : Prop :=
  (forall u, u <> url -> cache (this w') !! u = cache (this w) !! u)
  /\ exists more,
       sent w' = (sent w ++ more)%list
       /\ Forall (fun x => snd x = textRequest config) more.
End Effects.

(** The registry lists no entry: [urls] is missing or empty. *)
Definition listsNothing (registry : JSValue) : bool :=
  match registry with
  | JSNull => false
  | JSObject _ c => match urls c with None | Some [] => true | Some _ => false end
  end.

(** The name of the header the configured authentication writes. *)
Definition authHeader (config : Config) : string :=
  match type (auth config) with
  | AuthApiKey =>
      match credentials (auth config) with
      | Some c => if String.eqb (apiKeyHeader c) "" then "X-API-Key" else apiKeyHeader c
      | None => "X-API-Key"
      end
  | _ => "Authorization"
  end.

(** The letters A-Z and a-z, and the letters a-z. *)
Definition letter (c : ascii) : bool :=
  let n := nat_of_ascii c in
  ((65 <=? n) && (n <=? 90) || (97 <=? n) && (n <=? 122))%nat.

Definition smallLetter (c : ascii) : bool :=
  let n := nat_of_ascii c in ((97 <=? n) && (n <=? 122))%nat.

(** [op.name] on an operation that is not [null]. *)
Definition field (op : JSON) (name : string) : option JSON :=
  match op with
  | JObj members => Map_get name members
  | _ => None
  end.

(** The endpoint listed for the key [method] of the item at [path], its
    operation being [op]. *)
Definition listed (path method : string) (op : JSON) : EndpointInfo :=
  {| ep_path := path; ep_method := toUpperCase method;
     ep_summary := field op "summary";
     ep_description := field op "description";
     ep_operationId := field op "operationId";
     ep_parameters := field op "parameters";
     ep_requestBody := field op "requestBody";
     ep_responses := field op "responses";
     ep_tags := field op "tags" |}.

(** The array of an operation's tags includes the tag, or its tags are one
    string and the tag is a piece of it. *)
Definition tagged (tags : option JSON) (tag : string) : Prop :=
  (exists items, tags = Some (JArr items) /\ JStr tag ∈ items)
  \/ (exists s, tags = Some (JStr s) /\ s <> "" /\ includes s tag = true).

Definition capitalMethods : list string :=
  ["GET"; "POST"; "PUT"; "DELETE"; "PATCH"; "OPTIONS"; "HEAD"].

(** ** A second small world: more registries, and documents to query *)

Module Demo2.

Definition mixedText : string := "{urls: [bare, users]}".

(** A registry whose first document has no [paths]. *)
Definition mixed : list ApiUrl :=
  [Demo.entry "bare.yaml" "bare"; Demo.entry "users.yaml" "users"].

(** A registry whose first document has a path and a schema named
    [__proto__]; its second entry is not served. *)
Definition catalogRegistryText : string := "{urls: [catalog, orders, billing]}".

Definition catalogRegistry : list ApiUrl :=
  [Demo.entry "catalog.yaml" "catalog"; Demo.entry "orders.yaml" "orders";
   Demo.entry "billing.yaml" "billing"].

Definition catalogText : string :=
  "{openapi: 3.0.0, paths: {/items: {get: {}}, __proto__: {get: {}}}, components: {schemas: {Item: {}, __proto__: {}}}}".

Definition catalogDoc : SwaggerDoc :=
  {| openapi := Some "3.0.0"; swagger := None; info := None;
     paths := Some (<["/items" := JObj [("get", JObj [])]]>
                    (<["__proto__" := JObj [("get", JObj [])]]> ∅));
     components := Some
       {| schemas := Some (<["Item" := JObj []]> (<["__proto__" := JObj []]> ∅));
          securitySchemes := None |};
     definitions := None; tags := None |}.

Definition served : list (string * ResponseData) :=
  ([ ("http://mixed.test/swagger-config.json", DataText mixedText);
     ("http://mixed.test/bare.yaml", DataText Demo.barePathsText);
     ("http://mixed.test/users.yaml", DataText Demo.usersText);
     ("http://catalog.test/swagger-config.json", DataText catalogRegistryText);
     ("http://catalog.test/catalog.yaml", DataText catalogText);
     ("http://catalog.test/billing.yaml", DataText Demo.billingText) ]
   ++ Demo.served)%list.

Definition axios_get (e : Demo.Env) (url : string) (_ : AxiosRequestConfig)
  : Result ResponseData * Demo.Env :=
  (match Map_get url served with
   | Some d => Returned d
   | None => Thrown Demo.notFound
   end, (e + 40)%Z).

Definition parsed : list (string * JSValue) :=
  ((mixedText, Demo.registryValue mixed)
   :: (catalogRegistryText, Demo.registryValue catalogRegistry)
   :: (catalogText, Demo.object catalogDoc)
   :: Demo.parsed).

Definition YAML_parse (text : string) : Result JSValue :=
  if blank text then Returned JSNull
  else match Map_get text parsed with
       | Some v => Returned v
       | None => Thrown Demo.syntaxError
       end.

Definition JSON_parse (text : string) : Result JSValue :=
  match Map_get text parsed with
  | Some v => Returned v
  | None => Thrown Demo.syntaxError
  end.

(** gone.test has an origin but serves nothing. *)
Definition origins : list (string * string) :=
  ([ ("http://mixed.test/docs", "http://mixed.test");
     ("http://catalog.test/docs", "http://catalog.test");
     ("http://gone.test/docs", "http://gone.test") ]
   ++ Demo.origins)%list.

Definition URL_origin (url : string) : Result string :=
  match Map_get url origins with
  | Some o => Returned o
  | None => Thrown Demo.invalidUrl
  end.

Definition fetch (url : string) : M JSValue :=
  fetchSwaggerDoc axios_get Demo.Date_now YAML_parse JSON_parse URL_origin
    Demo.config url.

(** A validator that accepts the documents bearing an [openapi] version
    and leaves the state alone. *)
Definition validator (v : JSValue) : M (Env := Demo.Env) unit :=
  fun w =>
    (match v with
     | JSObject d _ =>
         if truthy (openapi d) then Returned tt
         else Thrown (Error "not an OpenAPI document")
     | JSNull => Thrown (Error "not an object")
     end, w).

Definition validate (url : string) : M bool :=
  validateSwaggerDoc axios_get Demo.Date_now YAML_parse JSON_parse URL_origin
    Demo.config validator url.

(** Documents to query. *)
Definition listPets : JSON :=
  JObj [("summary", JStr "List all pets"); ("operationId", JStr "listPets");
        ("tags", JArr [JStr "pets"])].

Definition createPet : JSON :=
  JObj [("summary", JStr "Create a pet");
        ("tags", JArr [JStr "pets"; JStr "admin"])].

(** Its [tags] is one string, not an array. *)
Definition findPet : JSON :=
  JObj [("summary", JStr "Find a Pet"); ("tags", JStr "pets")].

Definition petstore : SwaggerDoc :=
  {| openapi := Some "3.0.0"; swagger := None; info := None;
     paths := Some
       (<["/pets" := JObj [("get", listPets); ("POST", createPet);
                          ("parameters", JArr []); ("x-extra", JObj [])]]>
        (<["/pets/{id}" := JObj [("get", findPet); ("delete", JObj [])]]> ∅));
     components := None; definitions := None; tags := None |}.

(** A path item that is [null], and an operation whose [tags] is a
    number. *)
Definition nullItem : SwaggerDoc :=
  {| openapi := None; swagger := None; info := None;
     paths := Some (<["/x" := JNull]> ∅);
     components := None; definitions := None; tags := None |}.

Definition numberTags : SwaggerDoc :=
  {| openapi := None; swagger := None; info := None;
     paths := Some (<["/y" := JObj [("get", JObj [("tags", JNum 5)])]]> ∅);
     components := None; definitions := None; tags := None |}.

(** [String(value)]: an object with a [toString] property of its own
    (not a function, in a parsed document) has no primitive form; an
    array joins the texts of its items with commas.  The numbers are the
    integers the documents below hold. *)
Fixpoint ToString (v : JSON) : Result string :=
  match v with
  | JNull => Returned "null"
  | JBool true => Returned "true"
  | JBool false => Returned "false"
  | JNum z => Returned (pretty z)
  | JStr s => Returned s
  | JArr items =>
      (fix joined (l : list JSON) : Result string :=
         match l with
         | [] => Returned ""
         | x :: rest =>
             andThen (match x with JNull => Returned "" | _ => ToString x end)
               (fun text =>
                  match rest with
                  | [] => Returned text
                  | _ => andThen (joined rest) (fun more =>
                           Returned (text +:+ "," +:+ more))
                  end)
         end) items
  | JObj members =>
      if bool_decide (is_Some (Map_get "toString" members))
      then Thrown (TypeError "Cannot convert object to primitive value")
      else Returned "[object Object]"
  end.

(** An operation whose summary is an object with a [toString] property. *)
Definition oddSummary : SwaggerDoc :=
  {| openapi := None; swagger := None; info := None;
     paths := Some (<["/z" := JObj [("get",
                       JObj [("summary", JObj [("toString", JStr "text")])])]]> ∅);
     components := None; definitions := None; tags := None |}.

Definition basicConfig : Config :=
  {| swaggerUrl := None;
     auth := {| type := AuthBasic;
                credentials := Some {| username := Some "user"; password := Some "pass";
                                       token := None; apiKey := None;
                                       apiKeyHeader := "X-API-Key" |} |};
     cacheTTL := 300000 |}.

Definition keyConfig : Config :=
  {| swaggerUrl := None;
     auth := {| type := AuthApiKey;
                credentials := Some {| username := None; password := None;
                                       token := None; apiKey := Some "k-123";
                                       apiKeyHeader := "" |} |};
     cacheTTL := 300000 |}.

(** An API key to be sent under the header name [__proto__]. *)
Definition protoKeyConfig : Config :=
  {| swaggerUrl := None;
     auth := {| type := AuthApiKey;
                credentials := Some {| username := None; password := None;
                                       token := None; apiKey := Some "k-123";
                                       apiKeyHeader := "__proto__" |} |};
     cacheTTL := 300000 |}.

End Demo2.
(** ** Pure helpers: strings *)

Lemma trimStart_blank (s : string) : blank s = true -> trimStart s = "".
Proof.
  induction s as [|c rest IH]; simpl; [reflexivity|].
  intros [Hc Hrest]%andb_true_iff. rewrite Hc. auto.
Qed.

Lemma trim_blank (s : string) : blank s = true -> trim s = "".
Proof. intros H. unfold trim. rewrite (trimStart_blank s H). reflexivity. Qed.

Lemma trimStart_head (s : string) :
  trimStart s = "" \/ exists c rest, trimStart s = String c rest /\ isWhiteSpace c = false.
Proof.
  induction s as [|c rest IH]; simpl; [now left|].
  destruct (isWhiteSpace c) eqn:Hc; [exact IH|].
  right. exists c, rest. auto.
Qed.

Lemma trimEnd_empty (s : string) : trimEnd s = "" -> blank s = true.
Proof.
  induction s as [|c rest IH]; simpl; [reflexivity|].
  destruct (trimEnd rest) eqn:Hrest; [|discriminate].
  destruct (isWhiteSpace c); [|discriminate].
  intros _. simpl. auto.
Qed.

Lemma trimStart_empty (s : string) : trimStart s = "" -> blank s = true.
Proof.
  induction s as [|c rest IH]; simpl; [reflexivity|].
  destruct (isWhiteSpace c); [simpl; auto | discriminate].
Qed.

(** [!text.trim()] holds exactly for the texts made of white space only. *)
Lemma trim_empty_iff (s : string) : trim s = "" <-> blank s = true.
Proof.
  split; [|apply trim_blank].
  unfold trim. intros H%trimEnd_empty.
  destruct (trimStart_head s) as [E | (c & rest & E & Hc)].
  - now apply trimStart_empty.
  - rewrite E in H. simpl in H. rewrite Hc in H. discriminate.
Qed.

Lemma String_eqb_empty_trim (s : string) :
  String.eqb (trim s) "" = blank s.
Proof.
  destruct (blank s) eqn:Hb.
  - rewrite (proj2 (trim_empty_iff s) Hb). reflexivity.
  - apply String.eqb_neq. intros H%trim_empty_iff. congruence.
Qed.

(** ** Small checks of the helpers *)

Example endsWith_yaml :
  endsWith "http://api.test/users.yaml" ".yaml" = true
  /\ endsWith "http://api.test/docs" ".json" = false
  /\ endsWith "yml" ".yml" = false.
Proof. repeat split. Qed.

Example trim_text :
  trim "  a b  " = "a b" /\ trim "   " = "" /\ trim "" = "".
Proof. repeat split. Qed.

Example base64_rfc :
  base64 "foobar" = "Zm9vYmFy" /\ base64 "fo" = "Zm8=" /\ base64 "f" = "Zg==".
Proof. repeat split. Qed.

Example applyAuth_bearer :
  header (applyAuth Demo.config emptyRequestConfig) "Authorization"
    = Some "Bearer s3cret".
Proof. vm_compute. reflexivity. Qed.

Example Map_set_keeps_place :
  Map_set "a" 3 [("a", 1); ("b", 2)] = [("a", 3); ("b", 2)]
  /\ Map_set "c" 3 [("a", 1); ("b", 2)] = [("a", 1); ("b", 2); ("c", 3)].
Proof. repeat split. Qed.


(** ** getSchemas *)

Lemma modern_version (d : SwaggerDoc) :
  modern d <-> exists v, openapi d = Some v /\ v <> "".
Proof.
  unfold modern, truthy. destruct (openapi d) as [v|].
  - rewrite negb_true_iff, String.eqb_neq. split.
    + intros H. exists v. auto.
    + intros (v' & [= <-] & H). exact H.
  - split; [discriminate | intros (v & [=] & _)].
Qed.

(** C7. For every document, [getSchemas] returns the [components.schemas]
    map when the document has its [openapi] version set and the
    [definitions] map otherwise, whatever the other map holds; when the
    selected map is absent the result is the empty mapping.  [getSchemas] is
    a total function, so it never fails. *)
Theorem getSchemas_reads_by_version (d : SwaggerDoc) :
  (modern d ->
     forall c m, components d = Some c -> schemas c = Some m -> getSchemas d = m)
  /\ (~ modern d -> forall m, definitions d = Some m -> getSchemas d = m)
  /\ (modern d -> (c ← components d; schemas c) = None -> getSchemas d = ∅)
  /\ (~ modern d -> definitions d = None -> getSchemas d = ∅).
Proof.
  unfold modern, getSchemas.
  destruct (truthy (openapi d)); repeat split; try congruence; intros _.
  - intros c m Hc Hm. rewrite Hc. simpl. rewrite Hm. reflexivity.
  - intros E. rewrite E. reflexivity.
  - intros m E. rewrite E. reflexivity.
  - intros E. rewrite E. reflexivity.
Qed.

(** ** applyAuth *)

Lemma credential_falsy (a : Auth) (field : Credentials -> option string) :
  truthy (c ← credentials a; field c) = false -> credential a field = None.
Proof.
  unfold credential. destruct (credentials a) as [c|]; simpl; [|reflexivity].
  intros ->. reflexivity.
Qed.

Lemma header_ensureHeaders (rc : AxiosRequestConfig) (name : string) :
  header (ensureHeaders rc) name = header rc name.
Proof. reflexivity. Qed.

Lemma ensureHeaders_present (rc : AxiosRequestConfig) :
  headers rc <> None -> ensureHeaders rc = rc.
Proof. destruct rc as [[h|] r]; simpl; [reflexivity | congruence]. Qed.

Lemma applyAuth_inactive (config : Config) (rc : AxiosRequestConfig) :
  missingCredential (auth config) = true ->
  applyAuth config rc = rc \/ applyAuth config rc = ensureHeaders rc.
Proof.
  unfold missingCredential, applyAuth.
  destruct (type (auth config)); intros H.
  - now left.
  - right. apply negb_true_iff, andb_false_iff in H as [H|H];
      rewrite (credential_falsy _ _ H); [reflexivity|].
    destruct (credential (auth config) username); reflexivity.
  - right. apply negb_true_iff in H. now rewrite (credential_falsy _ _ H).
  - right. apply negb_true_iff in H. now rewrite (credential_falsy _ _ H).
Qed.

(** C9. With auth type [apiKey] and an empty key, and more generally
    whenever the credential fields that activate the configured branch are
    missing, [applyAuth] hands the request back with every header as it was
    (no authentication header is set), its other fields untouched, and the
    very same request when it already had a header bag.  [applyAuth] is a
    total function, so it never fails. *)
Theorem applyAuth_without_credential (config : Config) (rc : AxiosRequestConfig) :
  (type (auth config) = AuthApiKey
     /\ (c ← credentials (auth config); apiKey c) = Some "")
  \/ missingCredential (auth config) = true ->
  (forall name, header (applyAuth config rc) name = header rc name)
  /\ responseType (applyAuth config rc) = responseType rc
  /\ (headers rc <> None -> applyAuth config rc = rc).
Proof.
  intros H.
  assert (Hmiss : missingCredential (auth config) = true).
  { destruct H as [[Ht Hk] | H]; [|exact H].
    unfold missingCredential. rewrite Ht, Hk. reflexivity. }
  destruct (applyAuth_inactive config rc Hmiss) as [-> | ->].
  - auto.
  - split; [|split].
    + intros name. apply header_ensureHeaders.
    + reflexivity.
    + apply ensureHeaders_present.
Qed.

(** ** The pipeline, step by step *)

Section PipelineFacts.
Context {Env : Type}.
Variable axios_get :
  Env -> string -> AxiosRequestConfig -> Result ResponseData * Env.
Variable Date_now : Env -> Z.
Variable YAML_parse : string -> Result JSValue.
Variable JSON_parse : string -> Result JSValue.
Variable URL_origin : string -> Result string.
Variable config : Config.

Local Abbreviation request := (authenticatedRequest axios_get config).
Local Abbreviation fetchRegistry := (fetchSwaggerConfig axios_get JSON_parse config).
Local Abbreviation fetchOne :=
  (fetchIndividualSwaggerDoc axios_get YAML_parse JSON_parse config).
Local Abbreviation processOne :=
  (processApiConfig axios_get YAML_parse JSON_parse config).
Local Abbreviation processEach := (processAll axios_get YAML_parse JSON_parse config).
Local Abbreviation direct := (fetchDirect axios_get Date_now YAML_parse JSON_parse config).
Local Abbreviation hub :=
  (fetchHub axios_get Date_now YAML_parse JSON_parse URL_origin config).
Local Abbreviation fresh :=
  (fetchFresh axios_get Date_now YAML_parse JSON_parse URL_origin config).
Local Abbreviation fetchDoc :=
  (fetchSwaggerDoc axios_get Date_now YAML_parse JSON_parse URL_origin config).
Local Abbreviation answer := (individual axios_get YAML_parse JSON_parse config).
Local Abbreviation rq := (textRequest config).
Local Abbreviation decode := (decodeIndividual YAML_parse JSON_parse).

(** [authenticatedRequest] sends one request and leaves the instance
    alone. *)
Lemma request_run (url : string) (w : World) :
  request url None w =
    (fst (axios_get (env w) url rq),
     {| this := this w;
        env := snd (axios_get (env w) url rq);
        sent := sent w ++ [(url, rq)] |}).
Proof.
  unfold authenticatedRequest, textRequest. simpl.
  destruct (axios_get _ _ _) as [r e']. reflexivity.
Qed.

Lemma fetchOne_run (baseUrl path : string) (w : World) :
  let url := baseUrl +:+ "/" +:+ path in
  fetchOne baseUrl path w =
    (wrapIndividual path (decode (fst (axios_get (env w) url rq))),
     {| this := this w;
        env := snd (axios_get (env w) url rq);
        sent := sent w ++ [(url, rq)] |}).
Proof.
  intros url. unfold fetchIndividualSwaggerDoc, try_catch, bind.
  fold url. rewrite request_run.
  destruct (axios_get (env w) url rq) as [[[text|v]|e] e']; simpl;
    try reflexivity.
  rewrite String_eqb_empty_trim.
  destruct (blank text); [reflexivity|].
  destruct (YAML_parse text); [reflexivity|].
  destruct (JSON_parse text); reflexivity.
Qed.

Lemma answer_run (baseUrl path : string) (e : Env) :
  let url := baseUrl +:+ "/" +:+ path in
  answer baseUrl path e =
    (wrapIndividual path (decode (fst (axios_get e url rq))),
     snd (axios_get e url rq)).
Proof. intros url. unfold individual. rewrite fetchOne_run. reflexivity. Qed.

(** [fetchIndividualSwaggerDoc] depends on the remote world only, sends
    one request and leaves the instance alone. *)
Lemma fetchOne_frame (baseUrl path : string) (w : World) :
  fetchOne baseUrl path w =
    (fst (answer baseUrl path (env w)),
     {| this := this w;
        env := snd (answer baseUrl path (env w));
        sent := sent w ++ [(baseUrl +:+ "/" +:+ path, rq)] |}).
Proof. rewrite fetchOne_run, answer_run. reflexivity. Qed.

(** One turn of the loop: it never throws; it stores the document as soon
    as the fetch returned one, and merges it when its [paths] can be
    read. *)
Lemma processOne_run (baseUrl : string) (a : ApiUrl) (acc : Merged) (w : World) :
  let r := answer baseUrl (api_url a) (env w) in
  processOne baseUrl a acc w =
    (Returned match contribution (fst r) with
              | Some (d, p) => mergeDoc d p acc
              | None => acc
              end,
     {| this := match fst r with
                | Returned v =>
                    combinedDocs_set (api_name a) (withSource v (api_name a)) (this w)
                | Thrown _ => this w
                end;
        env := snd r;
        sent := sent w ++ [(baseUrl +:+ "/" +:+ api_url a, rq)] |}).
Proof.
  intros r. unfold processApiConfig, try_catch, bind.
  rewrite fetchOne_frame. fold r.
  destruct (fst r) as [[|d c]|e]; simpl; try reflexivity.
  destruct (paths d); reflexivity.
Qed.

(** The whole loop: it never throws, sends one request per entry, in
    order, and touches neither the cache nor the registry field. *)
Lemma processEach_run (baseUrl : string) (entries : list ApiUrl) :
  forall (acc : Merged) (w : World),
  exists acc' w',
    processEach baseUrl entries acc w = (Returned acc', w')
    /\ cache (this w') = cache (this w)
    /\ swaggerConfig (this w') = swaggerConfig (this w)
    /\ sent w' =
         (sent w ++ map (fun a => (baseUrl +:+ "/" +:+ api_url a, rq)) entries)%list.
Proof.
  induction entries as [|a rest IH]; intros acc w; simpl.
  - exists acc, w. unfold ret. rewrite app_nil_r. auto.
  - unfold bind. rewrite processOne_run.
    match goal with |- context [processEach baseUrl rest ?acc1 ?w1] =>
      destruct (IH acc1 w1) as (acc' & w' & Hrun & Hcache & Hcfg & Hsent)
    end.
    exists acc', w'. rewrite Hrun. split; [reflexivity|].
    simpl in Hcache, Hcfg, Hsent.
    rewrite Hcache, Hcfg, Hsent, <- app_assoc.
    destruct (fst (answer baseUrl (api_url a) (env w))); auto.
Qed.

(** When every entry is skipped the accumulators come back as they
    went in. *)
Lemma processEach_allSkipped (baseUrl : string) (entries : list ApiUrl) :
  forall (acc : Merged) (w : World),
  allSkipped axios_get YAML_parse JSON_parse config baseUrl entries (env w) ->
  fst (processEach baseUrl entries acc w) = Returned acc.
Proof.
  induction entries as [|a rest IH]; intros acc w; simpl; [reflexivity|].
  intros [Hnone Hrest]. unfold bind. rewrite processOne_run, Hnone.
  apply IH. exact Hrest.
Qed.

Local Abbreviation decodeFile := (decodeDirect YAML_parse JSON_parse).

(** The registry fetch sends one request and leaves the instance alone. *)
Lemma fetchRegistry_frame (baseUrl : string) (w : World) :
  exists r e',
    fetchRegistry baseUrl w =
      (r, {| this := this w; env := e';
             sent := sent w ++ [(baseUrl +:+ "/swagger-config.json", rq)] |}).
Proof.
  unfold fetchSwaggerConfig, try_catch, bind. rewrite request_run.
  destruct (axios_get (env w) _ rq) as [[[text|v]|e] e']; simpl;
    unfold lift, ret, throw; try (eexists _, _; reflexivity).
  destruct (JSON_parse text); eexists _, _; reflexivity.
Qed.

(** The direct-file branch: one request for the URL itself; the cache is
    written exactly when the answer decodes. *)
Lemma direct_run (url : string) (w : World) :
  let r := axios_get (env w) url rq in
  direct url w =
    match decodeFile (fst r) with
    | Returned v =>
        (Returned v,
         {| this := cache_set url {| data := v; timestamp := Date_now (snd r) |} (this w);
            env := snd r;
            sent := sent w ++ [(url, rq)] |})
    | Thrown e =>
        (Thrown (wrapFetch e),
         {| this := this w; env := snd r; sent := sent w ++ [(url, rq)] |})
    end.
Proof.
  intros r. unfold fetchDirect, try_catch, bind. rewrite request_run. fold r.
  destruct (fst r) as [[text|v]|e]; simpl; try reflexivity.
  destruct (YAML_parse text); [reflexivity|].
  destruct (JSON_parse text); reflexivity.
Qed.

(** The registry branch, once the registry lists at least one entry. *)
Lemma hub_run (url baseUrl : string) (w w0 : World)
    (d0 : SwaggerDoc) (c0 : SwaggerConfig) (entries : list ApiUrl) :
  URL_origin url = Returned baseUrl ->
  fetchRegistry baseUrl w = (Returned (JSObject d0 c0), w0) ->
  urls c0 = Some entries ->
  entries <> [] ->
  exists acc w2,
    processEach baseUrl entries nothingMerged (registered (JSObject d0 c0) w0)
      = (Returned acc, w2)
    /\ hub url w = (Returned (combined entries acc w2),
                    stored Date_now url (combined entries acc w2) w2).
Proof.
  intros Horigin Hreg Hurls Hne.
  destruct (processEach_run baseUrl entries nothingMerged
              (registered (JSObject d0 c0) w0)) as (acc & w2 & Hrun & _).
  exists acc, w2. split; [exact Hrun|].
  unfold fetchHub, bind, lift. rewrite Horigin, Hreg. simpl. rewrite Hurls.
  destruct entries as [|a rest]; [congruence|].
  unfold registered in Hrun. simpl in *. rewrite Hrun. reflexivity.
Qed.

Lemma fresh_direct (url : string) (w : World) :
  isDirect url = true ->
  fresh url w =
    match direct url w with
    | (Returned v, w') => (Returned v, w')
    | (Thrown e, w') => (Thrown (wrapFetch e), w')
    end.
Proof. intros H. unfold fetchFresh, try_catch. rewrite H. reflexivity. Qed.

Lemma fresh_hub (url : string) (w : World) :
  isDirect url = false ->
  fresh url w =
    match hub url w with
    | (Returned v, w') => (Returned v, w')
    | (Thrown e, w') => (Thrown (wrapFetch e), w')
    end.
Proof. intros H. unfold fetchFresh, try_catch. rewrite H. reflexivity. Qed.

(** The cache test at the head of [fetchSwaggerDoc]. *)
Lemma fetchDoc_hit (url : string) (w : World) (c : CacheEntry) :
  freshEntry config (this w) url (Date_now (env w)) = Some c ->
  fetchDoc url w = (Returned (data c), w).
Proof.
  unfold freshEntry, fetchSwaggerDoc, bind, getThis, now. simpl.
  destruct (cache (this w) !! url) as [cached|]; [|discriminate].
  destruct (_ <? _)%Z; [|discriminate].
  intros [= ->]. reflexivity.
Qed.

Lemma fetchDoc_miss (url : string) (w : World) :
  freshEntry config (this w) url (Date_now (env w)) = None ->
  fetchDoc url w = fresh url w.
Proof.
  unfold freshEntry, fetchSwaggerDoc, bind, getThis, now. simpl.
  destruct (cache (this w) !! url) as [cached|]; [|reflexivity].
  destruct (_ <? _)%Z; [discriminate|reflexivity].
Qed.

(** What a registry fetch that returns went through. *)
Lemma hub_returned (url : string) (w w' : World) (v : JSValue) :
  hub url w = (Returned v, w') ->
  exists baseUrl d0 c0 w0 entries acc w2,
    URL_origin url = Returned baseUrl
    /\ fetchRegistry baseUrl w = (Returned (JSObject d0 c0), w0)
    /\ urls c0 = Some entries
    /\ entries <> []
    /\ processEach baseUrl entries nothingMerged (registered (JSObject d0 c0) w0)
         = (Returned acc, w2)
    /\ v = combined entries acc w2
    /\ w' = stored Date_now url v w2.
Proof.
  intros Hrun.
  destruct (URL_origin url) as [baseUrl|e0] eqn:Horigin;
    [|unfold fetchHub, bind, lift in Hrun; rewrite Horigin in Hrun; discriminate].
  destruct (fetchRegistry baseUrl w) as [[[|d0 c0]|e1] w0] eqn:Hreg;
    try (unfold fetchHub, bind, lift in Hrun; rewrite Horigin, Hreg in Hrun;
         discriminate).
  destruct (urls c0) as [[|a rest]|] eqn:Hurls;
    try (unfold fetchHub, bind, lift in Hrun; rewrite Horigin, Hreg in Hrun;
         simpl in Hrun; rewrite Hurls in Hrun; discriminate).
  assert (Hne : a :: rest <> []) by discriminate.
  destruct (hub_run url baseUrl w w0 d0 c0 (a :: rest) Horigin Hreg Hurls Hne)
    as (acc & w2 & Hloop & Hhub).
  rewrite Hhub in Hrun. injection Hrun as <- <-.
  exists baseUrl, d0, c0, w0, (a :: rest), acc, w2. auto 10.
Qed.

(** A registry fetch that throws has not written the cache. *)
Lemma hub_thrown (url : string) (w w' : World) (e : JSError) :
  hub url w = (Thrown e, w') -> cache (this w') = cache (this w).
Proof.
  intros Hrun.
  destruct (URL_origin url) as [baseUrl|e0] eqn:Horigin.
  2:{ unfold fetchHub, bind, lift in Hrun. rewrite Horigin in Hrun.
      injection Hrun as _ <-. reflexivity. }
  destruct (fetchRegistry_frame baseUrl w) as (r & e' & Hreg).
  destruct r as [[|d0 c0]|e1].
  - unfold fetchHub, bind, lift in Hrun. rewrite Horigin, Hreg in Hrun.
    injection Hrun as _ <-. reflexivity.
  - destruct (urls c0) as [[|a rest]|] eqn:Hurls.
    + unfold fetchHub, bind, lift in Hrun. rewrite Horigin, Hreg in Hrun.
      simpl in Hrun. rewrite Hurls in Hrun. injection Hrun as _ <-. reflexivity.
    + assert (Hne : a :: rest <> []) by discriminate.
      destruct (hub_run url baseUrl w _ d0 c0 (a :: rest) Horigin Hreg Hurls Hne)
        as (acc & w2 & _ & Hhub).
      rewrite Hhub in Hrun. discriminate.
    + unfold fetchHub, bind, lift in Hrun. rewrite Horigin, Hreg in Hrun.
      simpl in Hrun. rewrite Hurls in Hrun. injection Hrun as _ <-. reflexivity.
  - unfold fetchHub, bind, lift in Hrun. rewrite Horigin, Hreg in Hrun.
    injection Hrun as _ <-. reflexivity.
Qed.

Lemma fresh_thrown (url : string) (w w' : World) (e : JSError) :
  fresh url w = (Thrown e, w') -> cache (this w') = cache (this w).
Proof.
  destruct (isDirect url) eqn:Hd.
  - rewrite (fresh_direct url w Hd), direct_run.
    destruct (decodeFile _); [discriminate|].
    intros [= _ <-]. reflexivity.
  - rewrite (fresh_hub url w Hd).
    destruct (hub url w) as [[v|e0] w0] eqn:Hhub; [discriminate|].
    intros [= _ <-]. exact (hub_thrown url w w0 e0 Hhub).
Qed.

(** C10. For every URL, if [fetchSwaggerDoc(url)] throws, whatever the
    reason (the direct document cannot be fetched or parsed, the URL has
    no origin, the registry cannot be fetched or lists nothing), the
    cache is exactly what it was before the call: no entry was inserted,
    removed or modified, the one for that URL included. *)
Theorem fetchSwaggerDoc_failure_keeps_cache
    (url : string) (w w' : World) (e : JSError) :
  fetchDoc url w = (Thrown e, w') ->
  cache (this w') = cache (this w)
  /\ cache (this w') !! url = cache (this w) !! url.
Proof.
  intros Hrun.
  assert (H : cache (this w') = cache (this w)); [|now rewrite H].
  destruct (freshEntry config (this w) url (Date_now (env w))) as [c|] eqn:Hc.
  - rewrite (fetchDoc_hit url w c Hc) in Hrun. discriminate.
  - rewrite (fetchDoc_miss url w Hc) in Hrun.
    exact (fresh_thrown url w w' e Hrun).
Qed.

(** A fetch that ran the pipeline and returned has sent at least one
    request and has stored what it returns, stamped with the time read
    when it finished. *)
Lemma fresh_returned (url : string) (w w' : World) (v : JSValue) :
  fresh url w = (Returned v, w') ->
  cache (this w') !! url = Some {| data := v; timestamp := Date_now (env w') |}
  /\ exists more, more <> [] /\ sent w' = (sent w ++ more)%list.
Proof.
  destruct (isDirect url) eqn:Hd.
  - rewrite (fresh_direct url w Hd), direct_run.
    destruct (decodeFile _); [|discriminate].
    intros [= <- <-]. simpl. split; [apply lookup_insert_eq|].
    eexists. split; [|reflexivity]. discriminate.
  - rewrite (fresh_hub url w Hd).
    destruct (hub url w) as [[v0|e0] w0] eqn:Hhub; [|discriminate].
    intros [= <- <-].
    destruct (hub_returned url w w0 v0 Hhub)
      as (baseUrl & d0 & c0 & w1 & entries & acc & w2
          & _ & Hreg & _ & _ & Hloop & _ & ->).
    simpl. split; [apply lookup_insert_eq|].
    destruct (fetchRegistry_frame baseUrl w) as (r & e' & Hframe).
    rewrite Hframe in Hreg. injection Hreg as _ <-.
    destruct (processEach_run baseUrl entries nothingMerged
                (registered (JSObject d0 c0)
                   {| this := this w; env := e';
                      sent := sent w ++ [(baseUrl +:+ "/swagger-config.json", rq)] |}))
      as (acc' & w2' & Hloop' & _ & _ & Hsent).
    rewrite Hloop in Hloop'. injection Hloop' as _ <-.
    rewrite Hsent. simpl. rewrite <- app_assoc.
    eexists. split; [|reflexivity]. discriminate.
Qed.

(** C4. Once [fetchSwaggerDoc(url)] has returned a document, that document
    is in the cache; as long as the entry is there, a call made within
    the TTL window ([now - timestamp < cacheTTL]) returns it and changes
    nothing, so it sends no request; a call made after expiry is the full
    pipeline again, and when that returns it has sent requests and has
    replaced the entry by the new document with a new timestamp. *)
Theorem fetchSwaggerDoc_cache_ttl (url : string) (w w1 : World) (v : JSValue) :
  fetchDoc url w = (Returned v, w1) ->
  exists c,
    cache (this w1) !! url = Some c /\ data c = v
    /\ forall w2 : World,
         cache (this w2) !! url = Some c ->
         ((Date_now (env w2) - timestamp c < cacheTTL config)%Z ->
            fetchDoc url w2 = (Returned v, w2))
         /\ (~ (Date_now (env w2) - timestamp c < cacheTTL config)%Z ->
               fetchDoc url w2 = fresh url w2
               /\ forall v' w3,
                    fetchDoc url w2 = (Returned v', w3) ->
                    cache (this w3) !! url
                      = Some {| data := v'; timestamp := Date_now (env w3) |}
                    /\ exists more, more <> [] /\ sent w3 = (sent w2 ++ more)%list).
Proof.
  intros Hrun.
  assert (Hc : exists c, cache (this w1) !! url = Some c /\ data c = v).
  { destruct (freshEntry config (this w) url (Date_now (env w))) as [c|] eqn:Hc.
    - rewrite (fetchDoc_hit url w c Hc) in Hrun. injection Hrun as <- <-.
      exists c. split; [|reflexivity].
      unfold freshEntry in Hc. destruct (cache (this w) !! url); [|discriminate].
      destruct (_ <? _)%Z; congruence.
    - rewrite (fetchDoc_miss url w Hc) in Hrun.
      destruct (fresh_returned url w w1 v Hrun) as [Hstored _].
      eexists. split; [exact Hstored|reflexivity]. }
  destruct Hc as (c & Hstored & Hdata). exists c.
  split; [exact Hstored|]. split; [exact Hdata|].
  intros w2 Hstill. split.
  - intros Hfresh. rewrite <- Hdata. apply fetchDoc_hit.
    unfold freshEntry. rewrite Hstill.
    apply Z.ltb_lt in Hfresh. rewrite Hfresh. reflexivity.
  - intros Hstale.
    assert (Hmiss : freshEntry config (this w2) url (Date_now (env w2)) = None).
    { unfold freshEntry. rewrite Hstill.
      apply Z.ltb_nlt in Hstale. rewrite Hstale. reflexivity. }
    split; [exact (fetchDoc_miss url w2 Hmiss)|].
    intros v' w3. rewrite (fetchDoc_miss url w2 Hmiss).
    apply fresh_returned.
Qed.

(** ** Single-document mode *)

(** A fetch of a direct file on a cache miss: the answer to the one
    request decides everything. *)
Lemma fetchDoc_direct (url : string) (w : World) :
  isDirect url = true ->
  freshEntry config (this w) url (Date_now (env w)) = None ->
  let r := axios_get (env w) url rq in
  fetchDoc url w =
    match decodeFile (fst r) with
    | Returned v =>
        (Returned v,
         {| this := cache_set url {| data := v; timestamp := Date_now (snd r) |} (this w);
            env := snd r;
            sent := sent w ++ [(url, rq)] |})
    | Thrown e =>
        (Thrown (wrapFetch (wrapFetch e)),
         {| this := this w; env := snd r; sent := sent w ++ [(url, rq)] |})
    end.
Proof.
  intros Hd Hmiss r.
  rewrite (fetchDoc_miss url w Hmiss), (fresh_direct url w Hd), direct_run.
  fold r. destruct (decodeFile (fst r)); reflexivity.
Qed.

(** Whatever its outcome, a fetch in single-document mode touches neither
    the registry field nor the retained documents. *)
Lemma fetchDoc_direct_keeps_sources (url : string) (w : World) :
  isDirect url = true ->
  swaggerConfig (this (snd (fetchDoc url w))) = swaggerConfig (this w)
  /\ combinedDocs (this (snd (fetchDoc url w))) = combinedDocs (this w).
Proof.
  intros Hd.
  destruct (freshEntry config (this w) url (Date_now (env w))) as [c|] eqn:Hc.
  - rewrite (fetchDoc_hit url w c Hc). auto.
  - rewrite (fetchDoc_direct url w Hd Hc).
    destruct (decodeFile _); auto.
Qed.

(** C8, as the code has it. After a top-level fetch in single-document
    mode (URL ending in .json, .yaml or .yml), [getApiSources] and
    [getDocBySource] answer exactly as they did before it: single-document
    mode neither clears nor replaces the registry state and the retained
    per-source documents.  So they answer with the empty sequence and with
    no document when no registry was fetched on the instance before, and
    with the sources and documents of the earlier hub-mode fetch when there
    was one. *)
Theorem direct_fetch_keeps_sources (url : string) (w : World) :
  isDirect url = true ->
  let w' := snd (fetchDoc url w) in
  getApiSources (this w') = getApiSources (this w)
  /\ (forall name, getDocBySource (this w') name = getDocBySource (this w) name)
  /\ (swaggerConfig (this w) = None -> combinedDocs (this w) = [] ->
      getApiSources (this w') = []
      /\ forall name, getDocBySource (this w') name = None).
Proof.
  intros Hd w'.
  destruct (fetchDoc_direct_keeps_sources url w Hd) as [Hcfg Hdocs].
  fold w' in Hcfg, Hdocs.
  unfold getApiSources, getDocBySource. rewrite Hcfg, Hdocs.
  split; [reflexivity|]. split; [reflexivity|].
  intros -> ->. auto.
Qed.

(** ** Hub mode *)

(** ** The merge *)

Lemma firstNamed_app (n : string) (l1 l2 : list Tag) :
  firstNamed n (l1 ++ l2) =
    match firstNamed n l1 with
    | Some t => Some t
    | None => firstNamed n l2
    end.
Proof.
  unfold firstNamed. induction l1 as [|t l1 IH]; simpl; [reflexivity|].
  destruct (String.eqb (tag_name t) n); [reflexivity | exact IH].
Qed.

Lemma firstNamed_present (n : string) (l : list Tag) :
  n ∈ map tag_name l -> exists t, firstNamed n l = Some t.
Proof.
  unfold firstNamed. induction l as [|t l IH]; simpl.
  - intros H. inversion H.
  - intros H. destruct (String.eqb (tag_name t) n) eqn:E; [eauto|].
    apply IH. inversion H; subst; [|assumption].
    rewrite String.eqb_refl in E. discriminate.
Qed.

(** The loop over [doc.tags] keeps one tag per name, and for every name
    the first tag that bore it. *)
Lemma mergeTags_first (ts : list Tag) :
  forall (seen : gset string) (out : list Tag),
  tagsKept seen out ->
  tagsKept (fst (mergeTags ts seen out)) (snd (mergeTags ts seen out))
  /\ forall n, firstNamed n (snd (mergeTags ts seen out)) = firstNamed n (out ++ ts).
Proof.
  induction ts as [|tag rest IH]; intros seen out Hkept; simpl.
  - split; [exact Hkept|]. intros n. now rewrite app_nil_r.
  - destruct Hkept as [Hseen Hnodup].
    destruct (decide (tag_name tag ∈ seen)) as [Hin|Hnotin].
    + destruct (IH seen out (conj Hseen Hnodup)) as [Hk Hfirst].
      split; [exact Hk|]. intros n.
      rewrite Hfirst, !firstNamed_app.
      destruct (firstNamed n out) as [t|] eqn:Hout; [reflexivity|].
      unfold firstNamed at 2. simpl.
      destruct (String.eqb (tag_name tag) n) eqn:E; [|reflexivity].
      apply String.eqb_eq in E. subst n.
      apply Hseen, firstNamed_present in Hin as [t Ht]. congruence.
    + assert (Hkept' : tagsKept ({[tag_name tag]} ∪ seen) (out ++ [tag])).
      { split.
        - intros n. rewrite map_app, elem_of_app, elem_of_union, elem_of_singleton.
          simpl. rewrite list_elem_of_singleton, Hseen. tauto.
        - rewrite map_app. simpl. apply NoDup_app. split; [exact Hnodup|].
          split; [|apply NoDup_singleton].
          intros n Hn ->%list_elem_of_singleton. apply Hnotin, Hseen, Hn. }
      destruct (IH _ _ Hkept') as [Hk Hfirst].
      split; [exact Hk|]. intros n.
      rewrite Hfirst, <- app_assoc. reflexivity.
Qed.

Lemma nothingMerged_sound : sound nothingMerged.
Proof.
  split; simpl; [|apply NoDup_nil_2].
  intros n. split; intros H; inversion H.
Qed.

Lemma union_lookup_later (later earlier : gmap string JSON) (k : string) :
  (later ∪ earlier) !! k =
    match later !! k with
    | Some v => Some v
    | None => earlier !! k
    end.
Proof.
  rewrite lookup_union. destruct (later !! k), (earlier !! k); reflexivity.
Qed.

(** Assignment writes every name but [__proto__] over the target. *)
Lemma Object_assign_lookup (target : Target) (source : gmap string JSON) (k : string) :
  k <> "__proto__" ->
  fst (Object_assign target source) !! k =
    match source !! k with
    | Some v => Some v
    | None => fst target !! k
    end.
Proof.
  intros Hk. destruct target as [own accessor].
  assert (Hw : (delete "__proto__" source ∪ own) !! k =
               match source !! k with Some v => Some v | None => own !! k end).
  { rewrite union_lookup_later, lookup_delete_ne by congruence. reflexivity. }
  unfold Object_assign. destruct (source !! "__proto__") as [v|]; [|exact Hw].
  unfold assignProto. cbn [fst snd].
  destruct (bool_decide _ || negb accessor); cbn [fst]; [|exact Hw].
  rewrite lookup_insert_ne by congruence. exact Hw.
Qed.

(** A source without the name is written over the target as it is. *)
Lemma Object_assign_plain (target : Target) (source : gmap string JSON) :
  source !! "__proto__" = None ->
  Object_assign target source = (source ∪ fst target, snd target).
Proof.
  intros Hnone. unfold Object_assign. rewrite Hnone.
  now rewrite delete_id.
Qed.

Lemma Object_assign_nothing (target : Target) : Object_assign target ∅ = target.
Proof.
  rewrite Object_assign_plain by apply lookup_empty.
  destruct target. cbn [fst snd]. now rewrite (left_id_L ∅ (∪)).
Qed.

(** What merging one document does to the accumulators. *)
Lemma mergeDoc_spec (d : SwaggerDoc) (p : gmap string JSON) (acc : Merged) :
  sound acc ->
  sound (mergeDoc d p acc)
  /\ (allPaths (mergeDoc d p acc), pathsAccessor (mergeDoc d p acc))
       = Object_assign (allPaths acc, pathsAccessor acc) p
  /\ (allSchemas (mergeDoc d p acc), schemasAccessor (mergeDoc d p acc))
       = Object_assign (allSchemas acc, schemasAccessor acc) (mergedSchemas d)
  /\ forall n, firstNamed n (allTags (mergeDoc d p acc))
               = firstNamed n (allTags acc ++ tagsOf d).
Proof.
  intros Hsound. unfold mergeDoc, tagsOf, sound.
  destruct (tags d) as [ts|]; simpl.
  - destruct (mergeTags_first ts _ _ Hsound) as [Hk Hfirst].
    destruct (mergeTags ts (tagSet acc) (allTags acc)) as [seen out]; simpl in *.
    rewrite <- !surjective_pairing. auto.
  - rewrite app_nil_r, <- !surjective_pairing. auto.
Qed.

(** The properties of the accumulators after one document, name by
    name. *)
Lemma mergeDoc_lookup (d : SwaggerDoc) (p : gmap string JSON) (acc : Merged)
    (k : string) :
  k <> "__proto__" ->
  allPaths (mergeDoc d p acc) !! k =
    match p !! k with Some v => Some v | None => allPaths acc !! k end
  /\ allSchemas (mergeDoc d p acc) !! k =
       match mergedSchemas d !! k with
       | Some v => Some v
       | None => allSchemas acc !! k
       end.
Proof.
  intros Hk. unfold mergeDoc.
  destruct (match tags d with Some _ => _ | None => _ end). cbn [allPaths allSchemas].
  split.
  - exact (Object_assign_lookup (allPaths acc, pathsAccessor acc) p k Hk).
  - exact (Object_assign_lookup (allSchemas acc, schemasAccessor acc)
             (mergedSchemas d) k Hk).
Qed.

(** C2, as the code has it. During the merge, the schemas a source
    document contributes are read from [components.schemas] whenever that
    map is there, and from [definitions] only when [components.schemas] is
    missing: the presence of the map decides, not the schema version.  The
    map read is assigned to the schemas merged so far, so that each of its
    names other than [__proto__] is written over them.  The map read is
    the one the schema version selects (the one [getSchemas] reads) for a
    modern document that carries [components.schemas] and for a legacy
    document that carries none. *)
Theorem merge_reads_schemas_by_presence
    (baseUrl : string) (a : ApiUrl) (acc : Merged) (w : World)
    (d : SwaggerDoc) (c : SwaggerConfig) (p : gmap string JSON) :
  fst (answer baseUrl (api_url a) (env w)) = Returned (JSObject d c) ->
  paths d = Some p ->
  exists acc' w',
    processOne baseUrl a acc w = (Returned acc', w')
    /\ (forall s, (x ← components d; schemas x) = Some s ->
        (allSchemas acc', schemasAccessor acc')
          = Object_assign (allSchemas acc, schemasAccessor acc) s
        /\ forall k, k <> "__proto__" ->
             allSchemas acc' !! k =
               match s !! k with Some v => Some v | None => allSchemas acc !! k end)
    /\ (forall s, (x ← components d; schemas x) = None -> definitions d = Some s ->
        (allSchemas acc', schemasAccessor acc')
          = Object_assign (allSchemas acc, schemasAccessor acc) s
        /\ forall k, k <> "__proto__" ->
             allSchemas acc' !! k =
               match s !! k with Some v => Some v | None => allSchemas acc !! k end)
    /\ ((x ← components d; schemas x) = None -> definitions d = None ->
        allSchemas acc' = allSchemas acc
        /\ schemasAccessor acc' = schemasAccessor acc)
    /\ ((modern d /\ (x ← components d; schemas x) <> None)
        \/ (~ modern d /\ (x ← components d; schemas x) = None) ->
        (allSchemas acc', schemasAccessor acc')
          = Object_assign (allSchemas acc, schemasAccessor acc) (getSchemas d)
        /\ forall k, k <> "__proto__" ->
             allSchemas acc' !! k =
               match getSchemas d !! k with
               | Some v => Some v
               | None => allSchemas acc !! k
               end).
Proof.
  intros Hanswer Hpaths.
  exists (mergeDoc d p acc). eexists. split.
  { rewrite processOne_run, Hanswer. cbn -[mergeDoc]. rewrite Hpaths.
    reflexivity. }
  assert (Hs : (allSchemas (mergeDoc d p acc), schemasAccessor (mergeDoc d p acc))
               = Object_assign (allSchemas acc, schemasAccessor acc) (mergedSchemas d)).
  { unfold mergeDoc. destruct (match tags d with Some _ => _ | None => _ end).
    cbn [allSchemas schemasAccessor]. now rewrite <- surjective_pairing. }
  assert (Hl : forall k, k <> "__proto__" ->
               allSchemas (mergeDoc d p acc) !! k =
                 match mergedSchemas d !! k with
                 | Some v => Some v
                 | None => allSchemas acc !! k
                 end).
  { intros k Hk. apply (mergeDoc_lookup d p acc k Hk). }
  revert Hs Hl. generalize (mergeDoc d p acc). intros acc'.
  unfold mergedSchemas, getSchemas, modern. intros Hs Hl.
  split; [|split; [|split]].
  - intros s Hc. rewrite Hc in Hs, Hl. auto.
  - intros s Hc Hdef. rewrite Hc, Hdef in Hs, Hl. auto.
  - intros Hc Hdef. rewrite Hc, Hdef in Hs. simpl in Hs.
    rewrite Object_assign_nothing in Hs. injection Hs as -> ->. auto.
  - intros [[Hm Hc] | [Hm Hc]].
    + rewrite Hm. destruct (x ← components d; schemas x) as [s|]; [|congruence].
      auto.
    + apply not_true_is_false in Hm. rewrite Hm. rewrite Hc in Hs, Hl. auto.
Qed.

(** C6: what the code does with an empty or white-space-only text.  In
    hub mode the text is refused before any parser sees it and the entry
    is skipped: nothing is merged or retained.  In single-document mode
    there is no such test: the text goes to [YAML.parse], and whatever
    that returns for it is cached and returned as the document. *)
Theorem blank_text_refused_in_hub_mode_only (text : string) :
  blank text = true ->
  (forall baseUrl a acc (w : World) e',
     axios_get (env w) (baseUrl +:+ "/" +:+ api_url a) rq
       = (Returned (DataText text), e') ->
     processOne baseUrl a acc w =
       (Returned acc,
        {| this := this w; env := e';
           sent := sent w ++ [(baseUrl +:+ "/" +:+ api_url a, rq)] |}))
  /\ (forall url (w : World) e' v,
        isDirect url = true ->
        freshEntry config (this w) url (Date_now (env w)) = None ->
        axios_get (env w) url rq = (Returned (DataText text), e') ->
        YAML_parse text = Returned v ->
        fetchDoc url w =
          (Returned v,
           {| this := cache_set url {| data := v; timestamp := Date_now e' |} (this w);
              env := e';
              sent := sent w ++ [(url, rq)] |})).
Proof.
  intros Hblank. split.
  - intros baseUrl a acc w e' Hget.
    rewrite processOne_run, answer_run, Hget. simpl. rewrite Hblank. reflexivity.
  - intros url w e' v Hd Hmiss Hget Hyaml.
    rewrite (fetchDoc_direct url w Hd Hmiss), Hget. simpl. rewrite Hyaml.
    reflexivity.
Qed.

End PipelineFacts.

(** C5. For every URL whose string ends in .json, .yaml or .yml,
    [fetchSwaggerDoc], on a cache miss, sends exactly one request, for that
    URL itself, whether the fetch then succeeds or fails; no request goes to
    a swagger-config.json, and the outcome does not depend on how an origin
    would be derived from the URL. *)
Theorem direct_url_single_request {Env : Type}
    (axios_get : Env -> string -> AxiosRequestConfig -> Result ResponseData * Env)
    (Date_now : Env -> Z) (YAML_parse JSON_parse : string -> Result JSValue)
    (config : Config) (url : string) (w : World) :
  isDirect url = true ->
  freshEntry config (this w) url (Date_now (env w)) = None ->
  forall URL_origin : string -> Result string,
    sent (snd (fetchSwaggerDoc axios_get Date_now YAML_parse JSON_parse
                 URL_origin config url w))
      = (sent w ++ [(url, textRequest config)])%list
    /\ forall URL_origin' : string -> Result string,
         fetchSwaggerDoc axios_get Date_now YAML_parse JSON_parse
           URL_origin' config url w
         = fetchSwaggerDoc axios_get Date_now YAML_parse JSON_parse
             URL_origin config url w.
Proof.
  intros Hd Hmiss URL_origin.
  pose proof (fun o => fetchDoc_direct axios_get Date_now YAML_parse JSON_parse
                         o config url w Hd Hmiss) as Hrun.
  simpl in Hrun. split.
  - rewrite Hrun. destruct (decodeDirect _ _ _); reflexivity.
  - intros URL_origin'. rewrite !Hrun. reflexivity.
Qed.

(** ** The theorems at work in the small remote world *)

Section DemoRuns.
Import Demo.

Local Abbreviation get := (individual axios_get YAML_parse JSON_parse config).


(** dup.test: two entries bear the same name.  The later document takes
    the place of the earlier one in [combinedDocs]: users (OpenAPI 3.0.0,
    with security schemes) is fetched first and billing last, orders fails
    in between, and the combined document bears billing's version fields
    and no security scheme. *)
Lemma same_name_takes_version_from_last :
  fst (get "http://dup.test" "users.yaml" 40%Z) = Returned (object usersDoc)
  /\ (exists err, fst (get "http://dup.test" "orders.yaml" 80%Z) = Thrown err)
  /\ fst (get "http://dup.test" "billing.yaml" 120%Z) = Returned (object billingDoc)
  /\ exists cd w',
       fetch "http://dup.test/docs" (start 0) = (Returned (object cd), w')
       /\ openapi usersDoc = Some "3.0.0"
       /\ openapi cd = None
       /\ swagger cd = Some "2.0"
       /\ (c ← components usersDoc; securitySchemes c) <> None
       /\ (c ← components cd; securitySchemes c) = None.
Proof.
  split; [vm_compute; reflexivity|].
  split; [eexists; vm_compute; reflexivity|].
  split; [vm_compute; reflexivity|].
  eexists _, _. split; [vm_compute; reflexivity|].
  repeat split; discriminate.
Qed.

(** The merge step on the users document. *)
Lemma merge_reads_schemas_by_presence_witness :
  exists acc' w',
    processApiConfig axios_get YAML_parse JSON_parse config
      "http://api.test" (entry "users.yaml" "users") nothingMerged (start 0)
      = (Returned acc', w')
    /\ (allSchemas acc', schemasAccessor acc')
         = Object_assign (∅, true) (getSchemas usersDoc)
    /\ forall k, k <> "__proto__" ->
         allSchemas acc' !! k =
           match getSchemas usersDoc !! k with
           | Some v => Some v
           | None => None
           end.
Proof.
  destruct (merge_reads_schemas_by_presence axios_get YAML_parse JSON_parse config
              "http://api.test" (entry "users.yaml" "users") nothingMerged (start 0)
              usersDoc {| urls := None |} (default ∅ (paths usersDoc)))
    as (acc' & w' & Hrun & _ & _ & _ & Hversion).
  - vm_compute; reflexivity.
  - vm_compute; reflexivity.
  - exists acc', w'. split; [exact Hrun|].
    destruct Hversion as [Hassign Hlookup].
    + left. split; [vm_compute; reflexivity | vm_compute; discriminate].
    + split; [exact Hassign|].
      intros k Hk. rewrite (Hlookup k Hk).
      destruct (getSchemas usersDoc !! k); reflexivity.
Defined.

(** A legacy document (swagger 2.0, no [openapi]) that carries both maps:
    the combined document takes the schema from [components.schemas], not
    from [definitions]. *)
Lemma legacy_document_merged_from_components :
  ~ modern legacyDoc
  /\ swagger legacyDoc = Some "2.0"
  /\ default ∅ (definitions legacyDoc) !! "Pet" = Some (JStr "legacy")
  /\ getSchemas legacyDoc !! "Pet" = Some (JStr "legacy")
  /\ exists cd w' S,
       fetch "http://legacy.test/docs" (start 0) = (Returned (object cd), w')
       /\ (c ← components cd; schemas c) = Some S
       /\ S !! "Pet" = Some (JStr "modern")
       /\ S !! "Pet" <> default ∅ (definitions legacyDoc) !! "Pet".
Proof.
  split; [vm_compute; discriminate|].
  split; [reflexivity|].
  split; [vm_compute; reflexivity|].
  split; [vm_compute; reflexivity|].
  eexists _, _, _. split; [vm_compute; reflexivity|].
  split; [reflexivity|].
  split; [vm_compute; reflexivity | vm_compute; discriminate].
Defined.

(** A second call four minutes later is answered from the cache; a call six
    minutes later runs the pipeline again and stamps the entry anew. *)
Lemma fetchSwaggerDoc_cache_ttl_witness :
  exists v,
    fst (fetch "http://api.test/docs" (start 0)) = Returned v
    /\ fetch "http://api.test/docs" (later 240000 afterHub)
       = (Returned v, later 240000 afterHub)
    /\ exists v' w3,
         fetch "http://api.test/docs" (later 360000 afterHub) = (Returned v', w3)
         /\ cache (this w3) !! "http://api.test/docs"
            = Some {| data := v'; timestamp := 360160 |}
         /\ length (sent w3) = 8.
Proof.
  destruct (fetchSwaggerDoc_cache_ttl axios_get Date_now YAML_parse JSON_parse
              URL_origin config "http://api.test/docs" (start 0) afterHub
              (data (default {| data := JSNull; timestamp := 0 |}
                       (cache (this afterHub) !! "http://api.test/docs"))))
    as (c & Hstored & Hdata & Hlater).
  - vm_compute; reflexivity.
  - assert (Hc : c = {| data := data c; timestamp := 160 |}).
    { vm_compute in Hstored. injection Hstored as <-. reflexivity. }
    exists (data c). split; [rewrite Hdata; vm_compute; reflexivity|].
    split.
    + rewrite Hdata. apply (Hlater (later 240000 afterHub)).
      * exact Hstored.
      * rewrite Hc. vm_compute. reflexivity.
    + destruct (Hlater (later 360000 afterHub) Hstored) as [_ Hstale].
      destruct Hstale as [_ Hagain].
      * rewrite Hc. vm_compute. discriminate.
      * eexists _, _. split; [vm_compute; reflexivity|].
        split; [vm_compute; reflexivity | reflexivity].
Defined.

(** A direct file: one request, for the file itself. *)
Lemma direct_url_single_request_witness :
  map fst (sent (snd (fetch "http://api.test/users.yaml" (start 0))))
    = ["http://api.test/users.yaml"]
  /\ fetchSwaggerDoc axios_get Date_now YAML_parse JSON_parse
       (fun _ => Returned "http://elsewhere.test") config
       "http://api.test/users.yaml" (start 0)
     = fetch "http://api.test/users.yaml" (start 0).
Proof.
  destruct (direct_url_single_request axios_get Date_now YAML_parse JSON_parse
              config "http://api.test/users.yaml" (start 0)
              ltac:(vm_compute; reflexivity) ltac:(vm_compute; reflexivity)
              URL_origin) as [Hsent Hsame].
  split.
  - unfold fetch. rewrite Hsent. reflexivity.
  - apply Hsame.
Defined.

(** The text of two spaces: skipped as a registry entry, cached as [null]
    when it is the answer to a direct URL. *)
Lemma blank_text_refused_in_hub_mode_only_witness :
  fst (processApiConfig axios_get YAML_parse JSON_parse config
         "http://api.test" (entry "blank.yaml" "blank") nothingMerged (start 0))
    = Returned nothingMerged
  /\ combinedDocs (this (snd (processApiConfig axios_get YAML_parse JSON_parse config
         "http://api.test" (entry "blank.yaml" "blank") nothingMerged (start 0)))) = []
  /\ fst (fetch "http://api.test/blank.yaml" (start 0)) = Returned JSNull
  /\ cache (this (snd (fetch "http://api.test/blank.yaml" (start 0))))
       !! "http://api.test/blank.yaml"
     = Some {| data := JSNull; timestamp := 40 |}.
Proof.
  destruct (blank_text_refused_in_hub_mode_only axios_get Date_now YAML_parse
              JSON_parse URL_origin config "  " eq_refl) as [Hhub Hdirect].
  rewrite (Hhub "http://api.test" (entry "blank.yaml" "blank") nothingMerged
             (start 0) 40%Z ltac:(vm_compute; reflexivity)).
  unfold fetch.
  rewrite (Hdirect "http://api.test/blank.yaml" (start 0) 40%Z JSNull
             ltac:(vm_compute; reflexivity) ltac:(vm_compute; reflexivity)
             ltac:(vm_compute; reflexivity) ltac:(vm_compute; reflexivity)).
  repeat split; vm_compute; reflexivity.
Defined.

(** [getSchemas] on the documents of the small world. *)
Lemma getSchemas_reads_by_version_witness :
  getSchemas usersDoc !! "Error" = Some (JStr "users")
  /\ getSchemas billingDoc !! "Error" = Some (JStr "billing")
  /\ getSchemas legacyDoc !! "Pet" = Some (JStr "legacy")
  /\ getSchemas noDoc = ∅.
Proof.
  destruct (getSchemas_reads_by_version usersDoc) as (Hmodern & _).
  destruct (getSchemas_reads_by_version billingDoc) as (_ & Hbilling & _).
  destruct (getSchemas_reads_by_version legacyDoc) as (_ & Hlegacy & _).
  destruct (getSchemas_reads_by_version noDoc) as (_ & _ & _ & Hnone).
  split.
  { erewrite Hmodern; [| vm_compute; reflexivity | reflexivity | reflexivity].
    vm_compute. reflexivity. }
  split.
  { erewrite Hbilling; [| vm_compute; discriminate | reflexivity].
    vm_compute. reflexivity. }
  split.
  { erewrite Hlegacy; [| vm_compute; discriminate | reflexivity].
    vm_compute. reflexivity. }
  apply Hnone; [vm_compute; discriminate | reflexivity].
Defined.

(** An empty API key, on a request with a header and on one without. *)
Lemma applyAuth_without_credential_witness :
  applyAuth emptyKeyConfig acceptJson = acceptJson
  /\ header (applyAuth emptyKeyConfig emptyRequestConfig) "X-Key" = None.
Proof.
  destruct (applyAuth_without_credential emptyKeyConfig acceptJson
              (or_introl (conj eq_refl eq_refl))) as (_ & _ & Hsame).
  destruct (applyAuth_without_credential emptyKeyConfig emptyRequestConfig
              (or_intror eq_refl)) as (Hheaders & _).
  split.
  - apply Hsame. discriminate.
  - rewrite Hheaders. reflexivity.
Defined.

(** A direct fetch on a new instance, and on the instance that fetched the
    api.test registry before. *)
Lemma direct_fetch_keeps_sources_witness :
  getApiSources (this (snd (fetch "http://api.test/users.yaml" (start 0)))) = []
  /\ getApiSources (this (snd (fetch "http://api.test/users.yaml" afterHub)))
     = getApiSources (this afterHub).
Proof.
  destruct (direct_fetch_keeps_sources axios_get Date_now YAML_parse JSON_parse
              URL_origin config "http://api.test/users.yaml" (start 0)
              ltac:(vm_compute; reflexivity)) as (_ & _ & Hnew).
  destruct (direct_fetch_keeps_sources axios_get Date_now YAML_parse JSON_parse
              URL_origin config "http://api.test/users.yaml" afterHub
              ltac:(vm_compute; reflexivity)) as (Hsame & _).
  split.
  - apply Hnew; reflexivity.
  - exact Hsame.
Defined.

(** After a hub-mode fetch, a fetch in single-document mode returns its
    document, and the sources and retained documents of the hub-mode fetch
    are still answered. *)
Lemma sources_survive_direct_fetch :
  isDirect "http://api.test/users.yaml" = true
  /\ fst (fetch "http://api.test/users.yaml" afterHub) = Returned (object usersDoc)
  /\ getApiSources (this (snd (fetch "http://api.test/users.yaml" afterHub)))
     = ["users"; "orders"; "billing"]
  /\ getApiSources (this (snd (fetch "http://api.test/users.yaml" afterHub))) <> []
  /\ getDocBySource (this (snd (fetch "http://api.test/users.yaml" afterHub))) "billing"
     = Some (withSource (object billingDoc) "billing")
  /\ getDocBySource (this (snd (fetch "http://api.test/users.yaml" afterHub))) "billing"
     <> None.
Proof.
  split; [vm_compute; reflexivity|].
  split; [vm_compute; reflexivity|].
  split; [vm_compute; reflexivity|].
  split; [vm_compute; discriminate|].
  split; [vm_compute; reflexivity | vm_compute; discriminate].
Defined.

(** A registry that lists nothing: the fetch throws and the cache of the
    instance, filled by the earlier fetch, is as it was. *)
Lemma fetchSwaggerDoc_failure_keeps_cache_witness :
  (exists e, fst (fetch "http://none.test/docs" afterHub) = Thrown e)
  /\ cache (this (snd (fetch "http://none.test/docs" afterHub)))
     = cache (this afterHub).
Proof.
  split; [eexists; vm_compute; reflexivity|].
  eapply (fetchSwaggerDoc_failure_keeps_cache axios_get Date_now YAML_parse
            JSON_parse URL_origin config "http://none.test/docs" afterHub
            (snd (fetch "http://none.test/docs" afterHub))
            (wrapFetch (Error "No API URLs found in swagger-config.json"))).
  vm_compute. reflexivity.
Defined.
End DemoRuns.

(** * More of the fetcher: what a whole registry fetch leaves behind *)

Section RegistryFacts.
Context {Env : Type}.
Variable axios_get :
  Env -> string -> AxiosRequestConfig -> Result ResponseData * Env.
Variable Date_now : Env -> Z.
Variable YAML_parse : string -> Result JSValue.
Variable JSON_parse : string -> Result JSValue.
Variable URL_origin : string -> Result string.
Variable config : Config.

Local Abbreviation fetchRegistry := (fetchSwaggerConfig axios_get JSON_parse config).
Local Abbreviation processEach := (processAll axios_get YAML_parse JSON_parse config).
Local Abbreviation fetchDoc :=
  (fetchSwaggerDoc axios_get Date_now YAML_parse JSON_parse URL_origin config).
Local Abbreviation answers := (answersOf axios_get YAML_parse JSON_parse config).
Local Abbreviation rq := (textRequest config).

(** The loop, read off the answers: the accumulators fold the documents
    that could be merged, [combinedDocs] folds the documents returned. *)
Lemma processEach_trace (baseUrl : string) (entries : list ApiUrl) :
  forall (acc : Merged) (w : World),
  exists w',
    processEach baseUrl entries acc w =
      (Returned (foldl (fun a dp => mergeDoc (fst dp) (snd dp) a) acc
                   (mergedOf (answers baseUrl entries (env w)))), w')
    /\ combinedDocs (this w') =
         foldl (fun m nd => Map_set (fst nd) (snd nd) m) (combinedDocs (this w))
           (retainedOf (answers baseUrl entries (env w)))
    /\ cache (this w') = cache (this w)
    /\ swaggerConfig (this w') = swaggerConfig (this w).
Proof.
  induction entries as [|a rest IH]; intros acc w.
  - exists w. simpl. auto.
  - simpl. unfold bind.
    rewrite (processOne_run axios_get YAML_parse JSON_parse config).
    match goal with |- context [processEach baseUrl rest ?acc1 ?w1] =>
      destruct (IH acc1 w1) as (w' & Hrun & Hdocs & Hcache & Hcfg)
    end.
    exists w'. rewrite Hrun. cbn [env this] in *.
    unfold mergedOf, retainedOf in *. cbn [omap snd fst list_omap] in *.
    destruct (fst (individual axios_get YAML_parse JSON_parse config baseUrl
                     (api_url a) (env w))) as [[|d c]|e] eqn:Hans;
      cbn [contribution] in *.
    + split; [reflexivity|]. rewrite Hdocs, Hcache, Hcfg. auto.
    + destruct (paths d) as [p|]; cbn [mbind option_bind foldl fst snd] in *;
        (split; [reflexivity|]); rewrite Hdocs, Hcache, Hcfg; auto.
    + split; [reflexivity|]. rewrite Hdocs, Hcache, Hcfg. auto.
Qed.

Local Abbreviation mergeAll :=
  (foldl (fun a (dp : SwaggerDoc * gmap string JSON) => mergeDoc (fst dp) (snd dp) a)).
Local Abbreviation retainAll :=
  (foldl (fun m (nd : string * CombinedSwaggerDoc) => Map_set (fst nd) (snd nd) m)).

Lemma mergeAll_paths (k : string) (l : list (SwaggerDoc * gmap string JSON)) :
  k <> "__proto__" ->
  forall acc,
  allPaths (mergeAll acc l) !! k =
    match lastOf k (map snd l) with
    | Some v => Some v
    | None => allPaths acc !! k
    end.
Proof.
  intros Hk.
  induction l as [|[d p] l IH]; intros acc; simpl; [reflexivity|].
  rewrite IH. destruct (lastOf k (map snd l)); [reflexivity|].
  apply (mergeDoc_lookup d p acc k Hk).
Qed.

Lemma mergeAll_schemas (k : string) (l : list (SwaggerDoc * gmap string JSON)) :
  k <> "__proto__" ->
  forall acc,
  allSchemas (mergeAll acc l) !! k =
    match lastOf k (map (fun dp => mergedSchemas (fst dp)) l) with
    | Some v => Some v
    | None => allSchemas acc !! k
    end.
Proof.
  intros Hk.
  induction l as [|[d p] l IH]; intros acc; simpl; [reflexivity|].
  rewrite IH.
  destruct (lastOf k (map (fun dp => mergedSchemas (fst dp)) l)); [reflexivity|].
  apply (mergeDoc_lookup d p acc k Hk).
Qed.

Lemma mergeAll_tags (l : list (SwaggerDoc * gmap string JSON)) :
  forall acc,
  sound acc ->
  sound (mergeAll acc l)
  /\ forall n, firstNamed n (allTags (mergeAll acc l))
               = firstNamed n (allTags acc ++ concat (map (fun dp => tagsOf (fst dp)) l)).
Proof.
  induction l as [|[d p] l IH]; intros acc Hsound; simpl.
  - split; [exact Hsound|]. intros n. now rewrite app_nil_r.
  - destruct (mergeDoc_spec YAML_parse JSON_parse URL_origin d p acc Hsound)
      as (Hs & _ & _ & Htags).
    destruct (IH _ Hs) as [Hs' Hfirst].
    split; [exact Hs'|]. intros n.
    rewrite Hfirst, !firstNamed_app, Htags, firstNamed_app.
    destruct (firstNamed n (allTags acc)); reflexivity.
Qed.

(** A registry fetch that gets as far as the loop, read off the answers
    of its entries. *)
Lemma hub_fetch_trace (url baseUrl : string) (w w0 : World)
    (d0 : SwaggerDoc) (c0 : SwaggerConfig) (entries : list ApiUrl) :
  isDirect url = false ->
  freshEntry config (this w) url (Date_now (env w)) = None ->
  URL_origin url = Returned baseUrl ->
  fetchRegistry baseUrl w = (Returned (JSObject d0 c0), w0) ->
  urls c0 = Some entries ->
  entries <> [] ->
  let ans := answers baseUrl entries (env w0) in
  let docs := retainAll [] (retainedOf ans) in
  let cd := combine (Map_first docs) (length entries)
              (mergeAll nothingMerged (mergedOf ans)) in
  exists w',
    fetchDoc url w = (Returned (JSObject cd {| urls := None |}), w')
    /\ combinedDocs (this w') = docs
    /\ swaggerConfig (this w') = Some c0
    /\ cache (this w') =
         <[url := {| data := JSObject cd {| urls := None |};
                     timestamp := Date_now (env w') |}]> (cache (this w0)).
Proof.
  intros Hd Hmiss Horigin Hreg Hurls Hne ans docs cd.
  destruct (hub_run axios_get Date_now YAML_parse JSON_parse URL_origin config
              url baseUrl w w0 d0 c0 entries Horigin Hreg Hurls Hne)
    as (acc & w2 & Hloop & Hhub).
  rewrite (fetchDoc_miss axios_get Date_now YAML_parse JSON_parse URL_origin
             config url w Hmiss),
          (fresh_hub axios_get Date_now YAML_parse JSON_parse URL_origin
             config url w Hd), Hhub.
  destruct (processEach_trace baseUrl entries nothingMerged
              (registered (JSObject d0 c0) w0))
    as (w2' & Hrun & Hdocs & Hcache & Hcfg).
  rewrite Hloop in Hrun. injection Hrun as -> <-.
  cbn [registered env this combinedDocs_clear swaggerConfig_assign
       combinedDocs cache swaggerConfig] in Hdocs, Hcache, Hcfg.
  eexists. unfold combined. rewrite Hdocs.
  split; [reflexivity|].
  unfold stored. cbn [this cache_set combinedDocs swaggerConfig cache env].
  rewrite Hdocs, Hcfg, Hcache. auto.
Qed.

(** X1. In hub mode, for a registry of any length, the combined document's
    [paths] and schemas are the union of those of the documents merged: a
    name other than [__proto__] is there exactly when one of them has it,
    with the value of the last one, in registry order, that has it. *)
Theorem hub_merge_last_wins (url baseUrl : string) (w w0 : World)
    (d0 : SwaggerDoc) (c0 : SwaggerConfig) (entries : list ApiUrl) :
  isDirect url = false ->
  freshEntry config (this w) url (Date_now (env w)) = None ->
  URL_origin url = Returned baseUrl ->
  fetchRegistry baseUrl w = (Returned (JSObject d0 c0), w0) ->
  urls c0 = Some entries ->
  entries <> [] ->
  let merged := mergedOf (answers baseUrl entries (env w0)) in
  exists cd cfg w' P S,
    fetchDoc url w = (Returned (JSObject cd cfg), w')
    /\ paths cd = Some P
    /\ (forall k, k <> "__proto__" -> P !! k = lastOf k (map snd merged))
    /\ (c ← components cd; schemas c) = Some S
    /\ (forall k, k <> "__proto__" ->
          S !! k = lastOf k (map (fun dp => mergedSchemas (fst dp)) merged)).
Proof.
  intros Hd Hmiss Horigin Hreg Hurls Hne merged.
  destruct (hub_fetch_trace url baseUrl w w0 d0 c0 entries
              Hd Hmiss Horigin Hreg Hurls Hne) as (w' & Hrun & _).
  eexists _, _, _, _, _. split; [exact Hrun|].
  cbn [combine paths components schemas mbind option_bind].
  split; [reflexivity|]. split.
  { intros k Hk. rewrite (mergeAll_paths k _ Hk). fold merged.
    destruct (lastOf k (map snd merged)); reflexivity. }
  split; [reflexivity|].
  intros k Hk. rewrite (mergeAll_schemas k _ Hk). fold merged.
  destruct (lastOf k _); reflexivity.
Qed.

(** X2. In hub mode, for a registry of any length, the combined document's
    tags bear each name once, and for every name the tag kept is the first
    one that bears it in the tags of the documents merged, taken in
    registry order. *)
Theorem hub_merge_first_tag_wins (url baseUrl : string) (w w0 : World)
    (d0 : SwaggerDoc) (c0 : SwaggerConfig) (entries : list ApiUrl) :
  isDirect url = false ->
  freshEntry config (this w) url (Date_now (env w)) = None ->
  URL_origin url = Returned baseUrl ->
  fetchRegistry baseUrl w = (Returned (JSObject d0 c0), w0) ->
  urls c0 = Some entries ->
  entries <> [] ->
  let merged := mergedOf (answers baseUrl entries (env w0)) in
  exists cd cfg w' T,
    fetchDoc url w = (Returned (JSObject cd cfg), w')
    /\ tags cd = Some T
    /\ NoDup (map tag_name T)
    /\ (forall n, firstNamed n T
                  = firstNamed n (concat (map (fun dp => tagsOf (fst dp)) merged))).
Proof.
  intros Hd Hmiss Horigin Hreg Hurls Hne merged.
  destruct (hub_fetch_trace url baseUrl w w0 d0 c0 entries
              Hd Hmiss Horigin Hreg Hurls Hne) as (w' & Hrun & _).
  eexists _, _, _, _. split; [exact Hrun|].
  cbn [combine tags]. split; [reflexivity|].
  destruct (mergeAll_tags merged nothingMerged nothingMerged_sound)
    as [Hsound Hfirst].
  split; [apply Hsound | exact Hfirst].
Qed.

Lemma answers_entries (baseUrl : string) (entries : list ApiUrl) :
  forall e, map fst (answers baseUrl entries e) = entries.
Proof.
  induction entries as [|a rest IH]; intros e; simpl; [reflexivity|].
  now rewrite IH.
Qed.

Lemma retainedOf_names (ans : list (ApiUrl * Result JSValue)) :
  sublist (map fst (retainedOf ans)) (map (fun a => api_name (fst a)) ans).
Proof.
  induction ans as [|[a [v|e]] ans IH]; simpl.
  - constructor.
  - unfold retainedOf. simpl. now constructor.
  - unfold retainedOf. simpl. now constructor.
Qed.

Lemma Map_get_fresh {V} (k : string) (m : list (string * V)) :
  k ∉ map fst m -> Map_get k m = None.
Proof.
  induction m as [|[k' v'] m IH]; simpl; [reflexivity|].
  intros Hk. apply not_elem_of_cons in Hk as [Hne Hk].
  apply String.eqb_neq in Hne. rewrite Hne. auto.
Qed.

Lemma Map_set_fresh {V} (k : string) (v : V) (m : list (string * V)) :
  k ∉ map fst m -> Map_set k v m = (m ++ [(k, v)])%list.
Proof.
  induction m as [|[k' v'] m IH]; simpl; [reflexivity|].
  intros Hk. apply not_elem_of_cons in Hk as [Hne Hk].
  apply String.eqb_neq in Hne. rewrite Hne, IH; auto.
Qed.

(** Setting keys that are all new, in turn, appends them. *)
Lemma retainAll_fresh (l : list (string * CombinedSwaggerDoc)) :
  forall m, NoDup (map fst (m ++ l)) -> retainAll m l = (m ++ l)%list.
Proof.
  induction l as [|[k v] l IH]; intros m Hnd; simpl.
  - now rewrite app_nil_r.
  - rewrite Map_set_fresh.
    + rewrite IH; rewrite <- app_assoc; [reflexivity | exact Hnd].
    + rewrite map_app in Hnd. apply NoDup_app in Hnd as (_ & Hdisj & _).
      intros Hin. apply (Hdisj k Hin). simpl. left.
Qed.

Lemma Map_get_member {V} (k : string) (v : V) (m : list (string * V)) :
  NoDup (map fst m) -> (k, v) ∈ m -> Map_get k m = Some v.
Proof.
  induction m as [|[k' v'] m IH]; simpl; intros Hnd Hin.
  - inversion Hin.
  - apply NoDup_cons in Hnd as [Hk' Hnd].
    apply elem_of_cons in Hin as [[= <- <-]|Hin].
    + now rewrite String.eqb_refl.
    + destruct (String.eqb k k') eqn:E; [|auto].
      apply String.eqb_eq in E. subst k'. exfalso. apply Hk'.
      apply (list_elem_of_fmap_2 fst _ _ Hin).
Qed.

Lemma retainedOf_member (ans : list (ApiUrl * Result JSValue))
    (a : ApiUrl) (r : Result JSValue) :
  (a, r) ∈ ans ->
  match r with
  | Returned v => (api_name a, withSource v (api_name a)) ∈ retainedOf ans
  | Thrown _ => True
  end.
Proof.
  destruct r as [v|e]; [|trivial].
  intros Hin. unfold retainedOf. apply list_elem_of_omap.
  exists (a, Returned v). auto.
Qed.

Lemma retainedOf_thrown (ans : list (ApiUrl * Result JSValue))
    (a : ApiUrl) (e : JSError) :
  NoDup (map (fun x => api_name (fst x)) ans) ->
  (a, Thrown e) ∈ ans ->
  api_name a ∉ map fst (retainedOf ans).
Proof.
  induction ans as [|[a' r'] ans IH]; simpl; intros Hnd Hin.
  - inversion Hin.
  - apply NoDup_cons in Hnd as [Hfresh Hnd].
    apply elem_of_cons in Hin as [[= <- <-]|Hin].
    + unfold retainedOf. simpl. fold (retainedOf ans).
      intros Hmem. apply Hfresh.
      eapply elem_of_sublist; [exact Hmem | apply retainedOf_names].
    + assert (Hne : api_name a <> api_name a').
      { intros Heq. apply Hfresh. rewrite <- Heq.
        apply (list_elem_of_fmap_2 (fun x => api_name (fst x)) _ _ Hin). }
      unfold retainedOf. simpl. fold (retainedOf ans).
      destruct r' as [v'|e']; simpl.
      * apply not_elem_of_cons. split; [exact Hne | auto].
      * auto.
Qed.

Lemma Map_get_set {V} (k k' : string) (v : V) (m : list (string * V)) :
  Map_get k (Map_set k' v m) = if String.eqb k k' then Some v else Map_get k m.
Proof.
  induction m as [|[k1 v1] m IH]; simpl; [reflexivity|].
  destruct (String.eqb k' k1) eqn:E1; simpl.
  - apply String.eqb_eq in E1. subst k1. destruct (String.eqb k k'); reflexivity.
  - rewrite IH. destruct (String.eqb k k1) eqn:E2; [|reflexivity].
    apply String.eqb_eq in E2. subst k1.
    rewrite String.eqb_sym, E1. reflexivity.
Qed.

Lemma retainAll_untouched (l : list (string * CombinedSwaggerDoc)) :
  forall m k, k ∉ map fst l -> Map_get k (retainAll m l) = Map_get k m.
Proof.
  induction l as [|[k1 v1] l IH]; intros m k Hk; simpl; [reflexivity|].
  apply not_elem_of_cons in Hk as [Hne Hk].
  rewrite IH by exact Hk. cbn [fst snd] in *. rewrite Map_get_set.
  apply String.eqb_neq in Hne. now rewrite Hne.
Qed.

(** A name under which a document was set stays bound, to a document
    that was set under it. *)
Lemma retainAll_holds (l : list (string * CombinedSwaggerDoc)) :
  forall m k v, (k, v) ∈ l ->
  exists v', (k, v') ∈ l /\ Map_get k (retainAll m l) = Some v'.
Proof.
  induction l as [|[k1 v1] l IH]; intros m k v Hin; [inversion Hin|].
  simpl. destruct (decide (k ∈ map fst l)) as [Hk|Hk].
  - apply list_elem_of_fmap in Hk as ([k2 v2] & Hk2 & Hin2). simpl in Hk2. subst k2.
    destruct (IH (Map_set k1 v1 m) k v2 Hin2) as (v' & Hin' & Hget).
    exists v'. split; [right; exact Hin' | exact Hget].
  - apply elem_of_cons in Hin as [[= <- <-]|Hin].
    + exists v. split; [left|].
      rewrite retainAll_untouched by exact Hk. cbn [fst snd].
      now rewrite Map_get_set, String.eqb_refl.
    + exfalso. apply Hk. apply (list_elem_of_fmap_2 fst _ _ Hin).
Qed.

Lemma lastOf_present (k : string) (maps : list (gmap string JSON))
    (m : gmap string JSON) :
  m ∈ maps -> is_Some (m !! k) -> is_Some (lastOf k maps).
Proof.
  induction maps as [|m' maps IH]; intros Hin Hsome; [inversion Hin|].
  simpl. destruct (lastOf k maps) as [v|] eqn:E; [eauto|].
  apply elem_of_cons in Hin as [->|Hin]; [exact Hsome|].
  destruct (IH Hin Hsome) as [v Hv]. discriminate.
Qed.

Lemma firstNamed_bears (n : string) (l : list Tag) (t : Tag) :
  firstNamed n l = Some t -> t ∈ l /\ tag_name t = n.
Proof.
  unfold firstNamed. intros Hfind. apply find_some in Hfind as [Hin Heq].
  split; [now apply list_elem_of_In | now apply String.eqb_eq].
Qed.

(** C3. In hub mode, once the registry has been fetched and lists at
    least one entry, [fetchSwaggerDoc] returns a combined document and
    does not throw, whatever the entries' fetches do.  Every entry is
    processed, a failed one not stopping the rest: a request was sent for
    every entry, in registry order, and every entry has its answer; an
    entry whose fetch returned a document is retained under its name
    whatever happened to the entries before and after it; and an entry
    whose document has [paths] is merged, its paths, schemas and tags
    being in the combined document under their names (the name
    [__proto__] apart), with the value of the last document merged that
    has the name.  If every entry ends in the loop's [catch] (transport
    failure, empty or undecodable text, no [paths] to read), the combined
    document has empty [paths] and empty schemas. *)
Theorem hub_fetch_tolerates_failures
    (url baseUrl : string) (w w0 : World)
    (d0 : SwaggerDoc) (c0 : SwaggerConfig) (entries : list ApiUrl) :
  isDirect url = false ->
  freshEntry config (this w) url (Date_now (env w)) = None ->
  URL_origin url = Returned baseUrl ->
  fetchRegistry baseUrl w = (Returned (JSObject d0 c0), w0) ->
  urls c0 = Some entries ->
  entries <> [] ->
  let ans := answers baseUrl entries (env w0) in
  exists cd cfg w' P S T,
    fetchDoc url w = (Returned (JSObject cd cfg), w')
    /\ sent w' =
         (sent w0 ++ map (fun a => (baseUrl +:+ "/" +:+ api_url a, rq)) entries)%list
    /\ (allSkipped axios_get YAML_parse JSON_parse config baseUrl entries (env w0) ->
        paths cd = Some ∅ /\ (c ← components cd; schemas c) = Some ∅)
    /\ map fst ans = entries
    /\ paths cd = Some P
    /\ (c ← components cd; schemas c) = Some S
    /\ tags cd = Some T
    /\ (forall a v, (a, Returned v) ∈ ans ->
        exists a' v',
          (a', Returned v') ∈ ans
          /\ api_name a' = api_name a
          /\ getDocBySource (this w') (api_name a)
               = Some (withSource v' (api_name a)))
    /\ (forall a r d p, (a, r) ∈ ans -> contribution r = Some (d, p) ->
        (forall k, k <> "__proto__" -> is_Some (p !! k) -> is_Some (P !! k))
        /\ (forall k, k <> "__proto__" ->
              is_Some (mergedSchemas d !! k) -> is_Some (S !! k))
        /\ (forall t, t ∈ tagsOf d -> tag_name t ∈ map tag_name T))
    /\ (forall k, k <> "__proto__" -> P !! k = lastOf k (map snd (mergedOf ans)))
    /\ (forall k, k <> "__proto__" ->
          S !! k = lastOf k (map (fun dp => mergedSchemas (fst dp)) (mergedOf ans))).
Proof.
  intros Hd Hmiss Horigin Hreg Hurls Hne ans.
  destruct (hub_run axios_get Date_now YAML_parse JSON_parse URL_origin config
              url baseUrl w w0 d0 c0 entries Horigin Hreg Hurls Hne)
    as (acc & w2 & Hloop & Hhub).
  rewrite (fetchDoc_miss axios_get Date_now YAML_parse JSON_parse URL_origin
             config url w Hmiss),
          (fresh_hub axios_get Date_now YAML_parse JSON_parse URL_origin
             config url w Hd), Hhub.
  destruct (processEach_run axios_get YAML_parse JSON_parse config
              baseUrl entries nothingMerged (registered (JSObject d0 c0) w0))
    as (acc' & w2' & Hloop' & _ & _ & Hsent).
  rewrite Hloop in Hloop'. injection Hloop' as <- <-.
  destruct (processEach_trace baseUrl entries nothingMerged
              (registered (JSObject d0 c0) w0))
    as (w2' & Hrun & Hdocs & _).
  rewrite Hloop in Hrun. injection Hrun as Hacc <-.
  cbn [registered env this combinedDocs_clear swaggerConfig_assign combinedDocs]
    in Hdocs, Hacc.
  fold ans in Hdocs, Hacc.
  set (merged := mergedOf ans) in *.
  assert (HP : forall k, k <> "__proto__" ->
               allPaths acc !! k = lastOf k (map snd merged)).
  { intros k Hk. rewrite Hacc, (mergeAll_paths k _ Hk).
    destruct (lastOf k (map snd merged)); reflexivity. }
  assert (HS : forall k, k <> "__proto__" ->
               allSchemas acc !! k
               = lastOf k (map (fun dp => mergedSchemas (fst dp)) merged)).
  { intros k Hk. rewrite Hacc, (mergeAll_schemas k _ Hk).
    destruct (lastOf k _); reflexivity. }
  assert (HT : forall n, firstNamed n (allTags acc)
               = firstNamed n (concat (map (fun dp => tagsOf (fst dp)) merged))).
  { rewrite Hacc.
    apply (mergeAll_tags merged nothingMerged nothingMerged_sound). }
  exists (combine (Map_first (combinedDocs (this w2))) (length entries) acc),
         {| urls := None |},
         (stored Date_now url (combined entries acc w2) w2),
         (allPaths acc), (allSchemas acc), (allTags acc).
  split; [reflexivity|].
  split; [exact Hsent|].
  split.
  { intros Hall.
    pose proof (processEach_allSkipped axios_get YAML_parse JSON_parse config
                  baseUrl entries nothingMerged
                  (registered (JSObject d0 c0) w0) Hall) as Hnone.
    rewrite Hloop in Hnone. injection Hnone as ->. split; reflexivity. }
  split; [apply answers_entries|].
  split; [reflexivity|]. split; [reflexivity|]. split; [reflexivity|].
  split.
  { intros a v Hin.
    pose proof (retainedOf_member ans a (Returned v) Hin) as Hmem.
    destruct (retainAll_holds (retainedOf ans) [] _ _ Hmem) as (cdoc & Hin' & Hget).
    unfold retainedOf in Hin'. apply list_elem_of_omap in Hin' as ([a' r'] & Hin' & Hsome).
    cbn [fst snd] in Hsome. destruct r' as [v'|e']; [|discriminate].
    injection Hsome as Hname <-.
    exists a', v'. split; [exact Hin'|]. split; [exact Hname|].
    unfold getDocBySource, stored. cbn [this cache_set combinedDocs].
    rewrite Hdocs, Hget, Hname. reflexivity. }
  split.
  { intros a r d p Hin Hcontr.
    assert (Hmem : (d, p) ∈ merged).
    { unfold merged, mergedOf. apply list_elem_of_omap.
      exists (a, r). split; [exact Hin | exact Hcontr]. }
    split; [|split].
    - intros k Hk Hsome. rewrite (HP k Hk).
      apply (lastOf_present k _ p); [|exact Hsome].
      apply (list_elem_of_fmap_2 snd _ _ Hmem).
    - intros k Hk Hsome. rewrite (HS k Hk).
      apply (lastOf_present k _ (mergedSchemas d)); [|exact Hsome].
      apply (list_elem_of_fmap_2 (fun dp => mergedSchemas (fst dp)) _ _ Hmem).
    - intros t Ht.
      assert (Hname : tag_name t
                      ∈ map tag_name (concat (map (fun dp => tagsOf (fst dp)) merged))).
      { apply (list_elem_of_fmap_2 tag_name). apply list_elem_of_In, in_concat.
        exists (tagsOf d). split; [|now apply list_elem_of_In].
        apply list_elem_of_In.
        apply (list_elem_of_fmap_2 (fun dp => tagsOf (fst dp)) _ _ Hmem). }
      apply firstNamed_present in Hname as [t' Hfirst].
      rewrite <- HT in Hfirst. apply firstNamed_bears in Hfirst as [Hin' <-].
      apply (list_elem_of_fmap_2 tag_name _ _ Hin'). }
  split; [exact HP | exact HS].
Qed.

(** X3. After a hub-mode fetch over a registry whose names are distinct,
    [getApiSources] lists every entry of the registry, in order, whether
    its fetch succeeded or not; [getDocBySource] finds, under an entry's
    name, the document its fetch returned (with that name as [source]),
    also when the document could not be merged; it finds nothing for an
    entry whose fetch threw, and nothing under any other name, whatever
    the instance retained before. *)
Theorem hub_fetch_sources (url baseUrl : string) (w w0 : World)
    (d0 : SwaggerDoc) (c0 : SwaggerConfig) (entries : list ApiUrl) :
  isDirect url = false ->
  freshEntry config (this w) url (Date_now (env w)) = None ->
  URL_origin url = Returned baseUrl ->
  fetchRegistry baseUrl w = (Returned (JSObject d0 c0), w0) ->
  urls c0 = Some entries ->
  entries <> [] ->
  NoDup (map api_name entries) ->
  let w' := snd (fetchDoc url w) in
  getApiSources (this w') = map api_name entries
  /\ (forall a r, (a, r) ∈ answers baseUrl entries (env w0) ->
      getDocBySource (this w') (api_name a) =
        match r with
        | Returned v => Some (withSource v (api_name a))
        | Thrown _ => None
        end)
  /\ (forall name, name ∉ map api_name entries ->
      getDocBySource (this w') name = None).
Proof.
  intros Hd Hmiss Horigin Hreg Hurls Hne Hnames w'.
  destruct (hub_fetch_trace url baseUrl w w0 d0 c0 entries
              Hd Hmiss Horigin Hreg Hurls Hne) as (w1 & Hrun & Hdocs & Hcfg & _).
  subst w'. rewrite Hrun. cbn [snd].
  set (ans := answers baseUrl entries (env w0)) in *.
  assert (Hans : map (fun x => api_name (fst x)) ans = map api_name entries).
  { rewrite <- (answers_entries baseUrl entries (env w0)).
    fold ans. now rewrite <- list_fmap_compose. }
  assert (Hnd : NoDup (map fst (retainedOf ans))).
  { eapply sublist_NoDup; [|apply retainedOf_names]. now rewrite Hans. }
  assert (Hall : retainAll [] (retainedOf ans) = retainedOf ans).
  { now rewrite retainAll_fresh. }
  unfold getApiSources, getDocBySource. rewrite Hcfg, Hurls, Hdocs, Hall.
  split; [reflexivity|]. split.
  - intros a [v|e] Hin.
    + apply Map_get_member; [exact Hnd|].
      exact (retainedOf_member ans a (Returned v) Hin).
    + apply Map_get_fresh. apply (retainedOf_thrown ans a e); [|exact Hin].
      now rewrite Hans.
  - intros name Hname. apply Map_get_fresh. intros Hin. apply Hname.
    rewrite <- Hans.
    eapply elem_of_sublist; [exact Hin | apply retainedOf_names].
Qed.

Lemma retainAll_first (l : list (string * CombinedSwaggerDoc)) :
  NoDup (map fst l) -> Map_first (retainAll [] l) = snd <$> head l.
Proof.
  intros Hnd. rewrite retainAll_fresh; [|exact Hnd].
  destruct l as [|[k v] l]; reflexivity.
Qed.

(** X4. In hub mode over a registry whose names are distinct, the combined
    document's [openapi] and [swagger] fields and its [securitySchemes] are
    those of the first document a fetch returned, in registry order; a
    document that was returned but could not be merged (it has no [paths])
    supplies them all the same, and when no fetch returned anything the
    fields are missing. *)
Theorem hub_version_from_first_returned (url baseUrl : string) (w w0 : World)
    (d0 : SwaggerDoc) (c0 : SwaggerConfig) (entries : list ApiUrl) :
  isDirect url = false ->
  freshEntry config (this w) url (Date_now (env w)) = None ->
  URL_origin url = Returned baseUrl ->
  fetchRegistry baseUrl w = (Returned (JSObject d0 c0), w0) ->
  urls c0 = Some entries ->
  entries <> [] ->
  NoDup (map api_name entries) ->
  let first := snd <$> head (retainedOf (answers baseUrl entries (env w0))) in
  exists cd cfg w',
    fetchDoc url w = (Returned (JSObject cd cfg), w')
    /\ openapi cd = (f ← first; openapi (doc f))
    /\ swagger cd = (f ← first; swagger (doc f))
    /\ (c ← components cd; securitySchemes c)
       = (f ← first; c ← components (doc f); securitySchemes c).
Proof.
  intros Hd Hmiss Horigin Hreg Hurls Hne Hnames first.
  destruct (hub_fetch_trace url baseUrl w w0 d0 c0 entries
              Hd Hmiss Horigin Hreg Hurls Hne) as (w1 & Hrun & _).
  set (ans := answers baseUrl entries (env w0)) in *.
  assert (Hnd : NoDup (map fst (retainedOf ans))).
  { eapply sublist_NoDup; [|apply retainedOf_names].
    replace (map (fun a => api_name (fst a)) ans) with (map api_name entries);
      [exact Hnames|].
    rewrite <- (answers_entries baseUrl entries (env w0)).
    fold ans. now rewrite <- list_fmap_compose. }
  rewrite (retainAll_first _ Hnd) in Hrun. fold first in Hrun.
  eexists _, _, _. split; [exact Hrun|].
  cbn [combine openapi swagger components securitySchemes mbind option_bind].
  auto.
Qed.

(** X5. What [getSchemas] reads from the combined document of a hub-mode
    fetch: the merged schemas when the combined document bears an [openapi]
    version, and nothing at all otherwise, the merged schemas being stored
    under [components.schemas] whatever the version.  So when the first
    document returned is a legacy one, the schemas merged from every source
    are out of [getSchemas]'s reach. *)
Theorem getSchemas_of_combined (url baseUrl : string) (w w0 : World)
    (d0 : SwaggerDoc) (c0 : SwaggerConfig) (entries : list ApiUrl) :
  isDirect url = false ->
  freshEntry config (this w) url (Date_now (env w)) = None ->
  URL_origin url = Returned baseUrl ->
  fetchRegistry baseUrl w = (Returned (JSObject d0 c0), w0) ->
  urls c0 = Some entries ->
  entries <> [] ->
  exists cd cfg w' S,
    fetchDoc url w = (Returned (JSObject cd cfg), w')
    /\ (c ← components cd; schemas c) = Some S
    /\ definitions cd = None
    /\ getSchemas cd = if truthy (openapi cd) then S else ∅.
Proof.
  intros Hd Hmiss Horigin Hreg Hurls Hne.
  destruct (hub_fetch_trace url baseUrl w w0 d0 c0 entries
              Hd Hmiss Horigin Hreg Hurls Hne) as (w1 & Hrun & _).
  eexists _, _, _, _. split; [exact Hrun|].
  split; [reflexivity|]. split; [reflexivity|].
  unfold getSchemas. cbn [combine openapi components definitions schemas
                          mbind option_bind default].
  destruct (truthy _); reflexivity.
Qed.

Local Abbreviation quiet := (@touchesOnly Env config).

Lemma quiet_refl (url : string) (w : World) : quiet url w w.
Proof.
  split; [reflexivity|]. exists []. split; [now rewrite app_nil_r | constructor].
Qed.

Lemma quiet_mk (url : string) (w w' : World) (more : list (string * AxiosRequestConfig)) :
  (forall u, u <> url -> cache (this w') !! u = cache (this w) !! u) ->
  sent w' = (sent w ++ more)%list ->
  Forall (fun x => snd x = rq) more ->
  quiet url w w'.
Proof. intros H1 H2 H3. split; [exact H1|]. exists more. auto. Qed.

Lemma hub_quiet (url : string) (w w' : World) (r : Result JSValue) :
  fetchHub axios_get Date_now YAML_parse JSON_parse URL_origin config url w = (r, w') ->
  quiet url w w'.
Proof.
  intros Hrun.
  destruct (URL_origin url) as [baseUrl|e0] eqn:Horigin.
  2:{ unfold fetchHub, bind, lift in Hrun. rewrite Horigin in Hrun.
      injection Hrun as _ <-. apply quiet_refl. }
  destruct (fetchRegistry_frame axios_get JSON_parse config baseUrl w)
    as (r0 & e' & Hreg).
  assert (Hone : Forall (fun x : string * AxiosRequestConfig => snd x = rq)
                   [(baseUrl +:+ "/swagger-config.json", rq)]).
  { repeat constructor. }
  destruct r0 as [[|d0 c0]|e1].
  - unfold fetchHub, bind, lift in Hrun. rewrite Horigin, Hreg in Hrun.
    injection Hrun as _ <-. eapply quiet_mk; [reflexivity|reflexivity|exact Hone].
  - destruct (urls c0) as [[|a rest]|] eqn:Hurls.
    + unfold fetchHub, bind, lift in Hrun. rewrite Horigin, Hreg in Hrun.
      simpl in Hrun. rewrite Hurls in Hrun. injection Hrun as _ <-.
      eapply quiet_mk; [reflexivity|reflexivity|exact Hone].
    + assert (Hne : a :: rest <> []) by discriminate.
      destruct (hub_run axios_get Date_now YAML_parse JSON_parse URL_origin config
                  url baseUrl w _ d0 c0 (a :: rest) Horigin Hreg Hurls Hne)
        as (acc & w2 & Hloop & Hhub).
      rewrite Hhub in Hrun. injection Hrun as _ <-.
      destruct (processEach_run axios_get YAML_parse JSON_parse config
                  baseUrl (a :: rest) nothingMerged
                  (registered (JSObject d0 c0)
                     {| this := this w; env := e';
                        sent := sent w ++ [(baseUrl +:+ "/swagger-config.json", rq)] |}))
        as (acc' & w2' & Hloop' & Hcache & _ & Hsent).
      rewrite Hloop in Hloop'. injection Hloop' as _ <-.
      eapply quiet_mk.
      * intros u Hu. unfold stored. cbn [this cache_set cache].
        rewrite lookup_insert_ne by congruence. rewrite Hcache. reflexivity.
      * unfold stored. cbn [sent]. rewrite Hsent. cbn [registered sent].
        rewrite <- app_assoc. reflexivity.
      * apply Forall_app. split; [exact Hone|].
        apply Forall_fmap, Forall_forall. intros x _. reflexivity.
    + unfold fetchHub, bind, lift in Hrun. rewrite Horigin, Hreg in Hrun.
      simpl in Hrun. rewrite Hurls in Hrun. injection Hrun as _ <-.
      eapply quiet_mk; [reflexivity|reflexivity|exact Hone].
  - unfold fetchHub, bind, lift in Hrun. rewrite Horigin, Hreg in Hrun.
    injection Hrun as _ <-. eapply quiet_mk; [reflexivity|reflexivity|exact Hone].
Qed.

Lemma fetchDoc_quiet (url : string) (w w' : World) (r : Result JSValue) :
  fetchDoc url w = (r, w') -> quiet url w w'.
Proof.
  destruct (freshEntry config (this w) url (Date_now (env w))) as [c|] eqn:Hc.
  - rewrite (fetchDoc_hit axios_get Date_now YAML_parse JSON_parse URL_origin
               config url w c Hc).
    intros [= _ <-]. apply quiet_refl.
  - rewrite (fetchDoc_miss axios_get Date_now YAML_parse JSON_parse URL_origin
               config url w Hc).
    destruct (isDirect url) eqn:Hd.
    + rewrite (fresh_direct axios_get Date_now YAML_parse JSON_parse URL_origin
                 config url w Hd),
              (direct_run axios_get Date_now YAML_parse JSON_parse config).
      destruct (decodeDirect _ _ _); intros [= _ <-];
        (eapply quiet_mk; [|reflexivity|repeat constructor]).
      * intros u Hu. cbn [this cache_set cache].
        now rewrite lookup_insert_ne by congruence.
      * reflexivity.
    + rewrite (fresh_hub axios_get Date_now YAML_parse JSON_parse URL_origin
                 config url w Hd).
      destruct (fetchHub _ _ _ _ _ _ url w) as [[v|e] w1] eqn:Hhub;
        intros [= _ <-]; exact (hub_quiet url w w1 _ Hhub).
Qed.

(** X6. Whatever [fetchSwaggerDoc(url)] does and however it ends, the
    cache entries of all other URLs are as they were before the call. *)
Theorem fetchSwaggerDoc_keeps_other_entries
    (url other : string) (w w' : World) (r : Result JSValue) :
  fetchDoc url w = (r, w') ->
  other <> url ->
  cache (this w') !! other = cache (this w) !! other.
Proof.
  intros Hrun Hother. exact (proj1 (fetchDoc_quiet url w w' r Hrun) other Hother).
Qed.

(** X7. Every request a call of [fetchSwaggerDoc] sends, for the registry,
    for a sub-document or for a direct file, asks for the answer as text
    and carries the headers [applyAuth] sets on an empty configuration:
    the same authentication goes to every URL. *)
Theorem fetchSwaggerDoc_requests_authenticated
    (url : string) (w w' : World) (r : Result JSValue) :
  fetchDoc url w = (r, w') ->
  exists more,
    sent w' = (sent w ++ more)%list
    /\ Forall (fun x => responseType (snd x) = Some "text"
                        /\ headers (snd x) = headers (applyAuth config emptyRequestConfig))
         more.
Proof.
  intros Hrun.
  destruct (proj2 (fetchDoc_quiet url w w' r Hrun)) as (more & Hsent & Hall).
  exists more. split; [exact Hsent|].
  eapply Forall_impl; [exact Hall|].
  intros x ->. split; reflexivity.
Qed.

(** X8. In hub mode, a URL from which no origin can be derived makes
    [fetchSwaggerDoc] throw before anything is done: no request is sent and
    the instance is untouched. *)
Theorem hub_invalid_url_sends_nothing (url : string) (w : World) (e : JSError) :
  isDirect url = false ->
  freshEntry config (this w) url (Date_now (env w)) = None ->
  URL_origin url = Thrown e ->
  fetchDoc url w = (Thrown (wrapFetch e), w).
Proof.
  intros Hd Hmiss Horigin.
  rewrite (fetchDoc_miss axios_get Date_now YAML_parse JSON_parse URL_origin
             config url w Hmiss),
          (fresh_hub axios_get Date_now YAML_parse JSON_parse URL_origin
             config url w Hd).
  unfold fetchHub, bind, lift. rewrite Horigin. reflexivity.
Qed.

(** X9. In hub mode, when the registry cannot be fetched or read,
    [fetchSwaggerDoc] throws after that single request, to
    [origin/swagger-config.json]: no sub-document is asked for and the
    instance (cache, registry state, retained documents) is untouched. *)
Theorem hub_registry_failure_stops (url baseUrl : string) (w w0 : World)
    (e : JSError) :
  isDirect url = false ->
  freshEntry config (this w) url (Date_now (env w)) = None ->
  URL_origin url = Returned baseUrl ->
  fetchRegistry baseUrl w = (Thrown e, w0) ->
  fetchDoc url w = (Thrown (wrapFetch e), w0)
  /\ this w0 = this w
  /\ sent w0 = (sent w ++ [(baseUrl +:+ "/swagger-config.json", rq)])%list.
Proof.
  intros Hd Hmiss Horigin Hreg.
  rewrite (fetchDoc_miss axios_get Date_now YAML_parse JSON_parse URL_origin
             config url w Hmiss),
          (fresh_hub axios_get Date_now YAML_parse JSON_parse URL_origin
             config url w Hd).
  unfold fetchHub, bind, lift. rewrite Horigin, Hreg.
  split; [reflexivity|].
  destruct (fetchRegistry_frame axios_get JSON_parse config baseUrl w)
    as (r & e' & Hframe).
  rewrite Hframe in Hreg. injection Hreg as _ <-. auto.
Qed.

(** X10. In hub mode, a registry that lists no entry makes
    [fetchSwaggerDoc] throw, with the message "Failed to fetch Swagger
    documentation: Error: No API URLs found in swagger-config.json"; the
    registry has been assigned by then, so [getApiSources] answers with the
    empty sequence from now on, while the cache and the retained documents
    of an earlier fetch stay: [getDocBySource] still finds them. *)
Theorem hub_empty_registry (url baseUrl : string) (w w0 : World)
    (registry : JSValue) :
  isDirect url = false ->
  freshEntry config (this w) url (Date_now (env w)) = None ->
  URL_origin url = Returned baseUrl ->
  fetchRegistry baseUrl w = (Returned registry, w0) ->
  listsNothing registry = true ->
  exists w',
    fetchDoc url w =
      (Thrown (Error "Failed to fetch Swagger documentation: Error: No API URLs found in swagger-config.json"),
       w')
    /\ getApiSources (this w') = []
    /\ (forall name, getDocBySource (this w') name = getDocBySource (this w) name)
    /\ cache (this w') = cache (this w).
Proof.
  intros Hd Hmiss Horigin Hreg Hnothing.
  rewrite (fetchDoc_miss axios_get Date_now YAML_parse JSON_parse URL_origin
             config url w Hmiss),
          (fresh_hub axios_get Date_now YAML_parse JSON_parse URL_origin
             config url w Hd).
  destruct (fetchRegistry_frame axios_get JSON_parse config baseUrl w)
    as (r & e' & Hframe).
  rewrite Hframe in Hreg. injection Hreg as -> <-.
  unfold fetchHub, bind, lift. rewrite Horigin, Hframe.
  destruct registry as [|d0 c0]; [discriminate|].
  unfold listsNothing in Hnothing. cbn [setThis].
  unfold getApiSources, getDocBySource.
  destruct (urls c0) as [[|a rest]|] eqn:Hurls; try discriminate;
    (eexists; split; [reflexivity|]);
    cbn [this swaggerConfig_assign swaggerConfig combinedDocs cache];
    rewrite Hurls; auto.
Qed.
End RegistryFacts.

(** X11. JSON.parse is a fallback only: a text that YAML.parse accepts is
    the document as YAML.parse read it, for a direct file and for a
    sub-document alike, and nothing depends on what JSON.parse would make
    of the text. *)
Theorem yaml_parse_decides {Env : Type}
    (axios_get : Env -> string -> AxiosRequestConfig -> Result ResponseData * Env)
    (Date_now : Env -> Z) (YAML_parse : string -> Result JSValue)
    (URL_origin : string -> Result string) (config : Config)
    (text : string) (v : JSValue) :
  YAML_parse text = Returned v ->
  forall JSON_parse JSON_parse' : string -> Result JSValue,
    (forall url (w : World) e',
       isDirect url = true ->
       freshEntry config (this w) url (Date_now (env w)) = None ->
       axios_get (env w) url (textRequest config) = (Returned (DataText text), e') ->
       fst (fetchSwaggerDoc axios_get Date_now YAML_parse JSON_parse URL_origin
              config url w) = Returned v
       /\ fetchSwaggerDoc axios_get Date_now YAML_parse JSON_parse' URL_origin
            config url w
          = fetchSwaggerDoc axios_get Date_now YAML_parse JSON_parse URL_origin
              config url w)
    /\ (forall baseUrl path (w : World) e',
          blank text = false ->
          axios_get (env w) (baseUrl +:+ "/" +:+ path) (textRequest config)
            = (Returned (DataText text), e') ->
          fst (fetchIndividualSwaggerDoc axios_get YAML_parse JSON_parse config
                 baseUrl path w) = Returned v
          /\ fetchIndividualSwaggerDoc axios_get YAML_parse JSON_parse' config
               baseUrl path w
             = fetchIndividualSwaggerDoc axios_get YAML_parse JSON_parse config
                 baseUrl path w).
Proof.
  intros Hyaml JSON_parse JSON_parse'. split.
  - intros url w e' Hd Hmiss Hget.
    rewrite !(fun j => fetchDoc_direct axios_get Date_now YAML_parse j URL_origin
                         config url w Hd Hmiss).
    rewrite Hget. simpl. rewrite Hyaml. auto.
  - intros baseUrl path w e' Hblank Hget.
    rewrite !(fun j => fetchOne_run axios_get YAML_parse j config baseUrl path w).
    rewrite Hget. simpl. rewrite Hblank, Hyaml. auto.
Qed.

Section ValidationFacts.
Context {Env : Type}.
Variable axios_get :
  Env -> string -> AxiosRequestConfig -> Result ResponseData * Env.
Variable Date_now : Env -> Z.
Variable YAML_parse : string -> Result JSValue.
Variable JSON_parse : string -> Result JSValue.
Variable URL_origin : string -> Result string.
Variable config : Config.
Variable SwaggerParser_validate : JSValue -> M (Env := Env) unit.

Local Abbreviation fetchDoc :=
  (fetchSwaggerDoc axios_get Date_now YAML_parse JSON_parse URL_origin config).
Local Abbreviation validateDoc :=
  (validateSwaggerDoc axios_get Date_now YAML_parse JSON_parse URL_origin config
     SwaggerParser_validate).

(** X12. [validateSwaggerDoc] never throws.  When the fetch throws it
    answers [false] without consulting the validator, in the state the
    failed fetch left, whose cache is the one before the call; it answers
    [true] only when the fetch returned a document and the validator
    returned on it. *)
Theorem validateSwaggerDoc_outcomes (url : string) (w : World) :
  (exists b w', validateDoc url w = (Returned b, w'))
  /\ (forall e w1, fetchDoc url w = (Thrown e, w1) ->
      validateDoc url w = (Returned false, w1)
      /\ cache (this w1) = cache (this w))
  /\ (forall w', validateDoc url w = (Returned true, w') ->
      exists v w1, fetchDoc url w = (Returned v, w1)
                   /\ SwaggerParser_validate v w1 = (Returned tt, w')).
Proof.
  unfold validateSwaggerDoc, try_catch, bind, ret.
  destruct (fetchDoc url w) as [[v|e] w1] eqn:Hfetch.
  - destruct (SwaggerParser_validate v w1) as [[[]|e'] w2] eqn:Hval.
    + split; [eauto|]. split; [discriminate|].
      intros w' [= <-]. eauto.
    + split; [eauto|]. split; [discriminate|]. discriminate.
  - split; [eauto|]. split.
    + intros e0 w0 [= <- <-]. split; [reflexivity|].
      destruct (freshEntry config (this w) url (Date_now (env w))) as [c|] eqn:Hc.
      * rewrite (fetchDoc_hit axios_get Date_now YAML_parse JSON_parse URL_origin
                   config url w c Hc) in Hfetch. discriminate.
      * rewrite (fetchDoc_miss axios_get Date_now YAML_parse JSON_parse URL_origin
                   config url w Hc) in Hfetch.
        exact (fresh_thrown axios_get Date_now YAML_parse JSON_parse URL_origin
                 config url w w1 e Hfetch).
    + discriminate.
Qed.
End ValidationFacts.

(** * More of [AuthManager.applyAuth] *)

Lemma header_setHeader_other (name value other : string) (rc : AxiosRequestConfig) :
  name <> other -> header (setHeader name value rc) other = header rc other.
Proof.
  intros Hne. unfold header, setHeader, assignHeader. simpl.
  destruct (String.eqb name "__proto__" && _); [reflexivity|].
  now apply lookup_insert_ne.
Qed.

Lemma header_setHeader_same (name value : string) (rc : AxiosRequestConfig) :
  name <> "__proto__" -> header (setHeader name value rc) name = Some value.
Proof.
  intros Hne. unfold header, setHeader, assignHeader. simpl.
  apply String.eqb_neq in Hne. rewrite Hne. simpl. apply lookup_insert_eq.
Qed.

Lemma credential_truthy (a : Auth) (field : Credentials -> option string) (v : string) :
  (c ← credentials a; field c) = Some v -> v <> "" -> credential a field = Some v.
Proof.
  unfold credential. destruct (credentials a) as [c|]; simpl; [|discriminate].
  intros -> Hv. simpl. apply String.eqb_neq in Hv. now rewrite Hv.
Qed.

(** X13. [applyAuth] writes at most one header, the one named by the
    configuration ([Authorization], or the API key's header): every other
    header of the request, and its other fields, are as they were. *)
Theorem applyAuth_touches_one_header
    (config : Config) (rc : AxiosRequestConfig) (name : string) :
  name <> authHeader config ->
  header (applyAuth config rc) name = header rc name
  /\ responseType (applyAuth config rc) = responseType rc.
Proof.
  unfold applyAuth, authHeader. intros Hname. apply not_eq_sym in Hname.
  destruct (type (auth config)).
  - auto.
  - destruct (credential (auth config) username), (credential (auth config) password);
      rewrite ?(header_setHeader_other _ _ _ _ Hname); auto.
  - destruct (credential (auth config) token);
      rewrite ?(header_setHeader_other _ _ _ _ Hname); auto.
  - destruct (credential (auth config) apiKey);
      rewrite ?(header_setHeader_other _ _ _ _ Hname); auto.
Qed.

(** X14. With the credentials of the configured type present and not
    empty, [applyAuth] sets the authentication header, over any header of
    that name the request had: [Authorization: Bearer <token>] for a bearer
    token; [Authorization: Basic <base64 of user:password>] for basic
    authentication; the key itself, under [apiKeyHeader] (under
    [X-API-Key] when that name is empty), for an API key whose header is
    not named [__proto__]. *)
Theorem applyAuth_sets_credential (config : Config) (rc : AxiosRequestConfig) :
  (forall t,
     type (auth config) = AuthBearer ->
     (c ← credentials (auth config); token c) = Some t -> t <> "" ->
     header (applyAuth config rc) "Authorization" = Some ("Bearer " +:+ t))
  /\ (forall u p,
        type (auth config) = AuthBasic ->
        (c ← credentials (auth config); username c) = Some u -> u <> "" ->
        (c ← credentials (auth config); password c) = Some p -> p <> "" ->
        header (applyAuth config rc) "Authorization"
          = Some ("Basic " +:+ base64 (u +:+ ":" +:+ p)))
  /\ (forall k,
        type (auth config) = AuthApiKey ->
        (c ← credentials (auth config); apiKey c) = Some k -> k <> "" ->
        authHeader config <> "__proto__" ->
        header (applyAuth config rc) (authHeader config) = Some k).
Proof.
  assert (Hauth : "Authorization" <> "__proto__") by discriminate.
  unfold applyAuth. split; [|split].
  - intros t -> Ht Hne. rewrite (credential_truthy _ _ _ Ht Hne).
    apply (header_setHeader_same _ _ _ Hauth).
  - intros u p -> Hu Hune Hp Hpne.
    rewrite (credential_truthy _ _ _ Hu Hune), (credential_truthy _ _ _ Hp Hpne).
    apply (header_setHeader_same _ _ _ Hauth).
  - intros k Htype Hk Hne. unfold authHeader. rewrite Htype.
    rewrite (credential_truthy _ _ _ Hk Hne). intros Hname.
    apply (header_setHeader_same _ _ _ Hname).
Qed.

(** An API key whose header is named [__proto__] sets no header on a
    request that has none of that name. *)
Example applyAuth_proto_header :
  header (applyAuth Demo2.protoKeyConfig emptyRequestConfig) "__proto__" = None
  /\ headers (applyAuth Demo2.protoKeyConfig Demo.acceptJson) = headers Demo.acceptJson.
Proof. split; vm_compute; reflexivity. Qed.

Lemma ensureHeaders_setHeader (name value : string) (rc : AxiosRequestConfig) :
  ensureHeaders (setHeader name value rc) = setHeader name value rc.
Proof. reflexivity. Qed.

Lemma assignHeader_twice (name value : string) (bag : gmap string string) :
  assignHeader name value (assignHeader name value bag)
  = assignHeader name value bag.
Proof.
  unfold assignHeader.
  destruct (String.eqb name "__proto__" && negb (bool_decide (is_Some (bag !! name))))
    eqn:E.
  - now rewrite E.
  - rewrite lookup_insert_eq, bool_decide_eq_true_2 by eauto.
    rewrite andb_false_r. apply insert_insert_eq.
Qed.

Lemma setHeader_twice (name value : string) (rc : AxiosRequestConfig) :
  setHeader name value (setHeader name value rc) = setHeader name value rc.
Proof. unfold setHeader. simpl. now rewrite assignHeader_twice. Qed.

(** X15. Applying [applyAuth] to a request it has already decorated
    changes nothing. *)
Theorem applyAuth_idempotent (config : Config) (rc : AxiosRequestConfig) :
  applyAuth config (applyAuth config rc) = applyAuth config rc.
Proof.
  unfold applyAuth.
  destruct (type (auth config)).
  - reflexivity.
  - destruct (credential (auth config) username), (credential (auth config) password);
      rewrite ?ensureHeaders_setHeader, ?setHeader_twice; reflexivity.
  - destruct (credential (auth config) token);
      rewrite ?ensureHeaders_setHeader, ?setHeader_twice; reflexivity.
  - destruct (credential (auth config) apiKey);
      rewrite ?ensureHeaders_setHeader, ?setHeader_twice; reflexivity.
Qed.

(** * Base64 and the routing test *)

Lemma base64_bytes_length :
  forall bs, String.length (base64_bytes bs) = 4 * ((length bs + 2) / 3).
Proof.
  fix IH 1. intros [|a [|b [|c rest]]]; [reflexivity | reflexivity | reflexivity |].
  cbn [base64_bytes String.length length]. rewrite IH.
  replace (S (S (S (length rest))) + 2) with (length rest + 2 + 1 * 3) by lia.
  rewrite Nat.div_add by lia. lia.
Qed.

Lemma base64_digit_alphabet (n : N) :
  In (base64_digit n) (list_ascii_of_string base64_alphabet).
Proof.
  unfold base64_digit.
  assert (H : (N.to_nat (N.land n 63) < 64)%nat).
  { change 63%N with (N.ones 6). rewrite N.land_ones.
    pose proof (N.mod_upper_bound n (2 ^ 6) ltac:(discriminate)) as Hlt.
    change (2 ^ 6)%N with 64%N in *. lia. }
  revert H. generalize (N.to_nat (N.land n 63)). intros m Hm.
  do 64 (destruct m as [|m]; [vm_compute; tauto|]). lia.
Qed.

Lemma base64_bytes_alphabet :
  forall bs c,
  In c (list_ascii_of_string (base64_bytes bs)) ->
  In c (list_ascii_of_string base64_alphabet) \/ c = "="%char.
Proof.
  fix IH 1. intros [|a [|b [|x rest]]] c; cbn [base64_bytes list_ascii_of_string In].
  - tauto.
  - intros [<-|[<-|[<-|[<-|[]]]]]; auto using base64_digit_alphabet.
  - intros [<-|[<-|[<-|[<-|[]]]]]; auto using base64_digit_alphabet.
  - intros [<-|[<-|[<-|[<-|H]]]]; auto using base64_digit_alphabet.
    exact (IH rest c H).
Qed.

(** The Base64 text of a credential is made of the 64 characters of
    the alphabet and of the padding sign, and its length is four times the
    number of three-byte groups of the UTF-8 bytes, the last group being
    padded: a multiple of four, always. *)
Lemma base64_shape (s : string) :
  String.length (base64 s) = 4 * ((length (utf8 s) + 2) / 3)
  /\ forall c, In c (list_ascii_of_string (base64 s)) ->
       In c (list_ascii_of_string base64_alphabet) \/ c = "="%char.
Proof.
  split; [apply base64_bytes_length | apply base64_bytes_alphabet].
Qed.

Lemma substring_all (s : string) : substring 0 (String.length s) s = s.
Proof. induction s as [|c s IH]; simpl; [reflexivity | now rewrite IH]. Qed.

Lemma substring_skip (p s : string) (k : nat) :
  substring (String.length p) k (p +:+ s) = substring 0 k s.
Proof. induction p as [|c p IH]; simpl; [reflexivity | exact IH]. Qed.

Lemma substring_split (s : string) :
  forall m k, m + k = String.length s ->
  s = substring 0 m s +:+ substring m k s.
Proof.
  induction s as [|c s IH]; intros m k Hlen; simpl in *.
  - assert (m = 0) as -> by lia. assert (k = 0) as -> by lia. reflexivity.
  - destruct m as [|m]; simpl.
    + destruct k as [|k]; [discriminate|]. simpl.
      injection Hlen as ->. now rewrite substring_all.
    + change (String c s = String c (substring 0 m s +:+ substring m k s)).
      f_equal. apply IH. lia.
Qed.

Lemma length_append (a b : string) :
  String.length (a +:+ b) = String.length a + String.length b.
Proof. induction a as [|c a IH]; simpl; [reflexivity | now rewrite IH]. Qed.

(** [endsWith] holds exactly for the strings that are a prefix followed by
    the suffix. *)
Lemma endsWith_iff (s suffix : string) :
  endsWith s suffix = true <-> exists p, s = p +:+ suffix.
Proof.
  unfold endsWith. split.
  - destruct (Nat.leb_spec (String.length suffix) (String.length s)) as [Hle|];
      [|discriminate].
    intros Heq%String.eqb_eq.
    exists (substring 0 (String.length s - String.length suffix) s).
    pose proof (substring_split s (String.length s - String.length suffix)
                  (String.length suffix) ltac:(lia)) as Hsplit.
    rewrite Heq in Hsplit. exact Hsplit.
  - intros [p ->]. rewrite length_append.
    destruct (Nat.leb_spec (String.length suffix)
                (String.length p + String.length suffix)) as [_|]; [|lia].
    replace (String.length p + String.length suffix - String.length suffix)
      with (String.length p) by lia.
    rewrite substring_skip, substring_all. apply String.eqb_refl.
Qed.

(** X16. [fetchSwaggerDoc] treats a URL as a direct file exactly when the
    URL is some text followed by .json, .yaml or .yml, in lower case and
    with nothing after it: a query string or an upper-case extension sends
    the URL to the registry branch. *)
Theorem isDirect_iff (url : string) :
  isDirect url = true <->
  exists p, url = p +:+ ".json" \/ url = p +:+ ".yaml" \/ url = p +:+ ".yml".
Proof.
  unfold isDirect. rewrite !orb_true_iff, !endsWith_iff. split.
  - intros [[[p Hp] | [p Hp]] | [p Hp]]; exists p; auto.
  - intros [p [Hp | [Hp | Hp]]]; eauto.
Qed.

(** * The query functions *)

(** ** Strings *)

#[local] Arguments String.append !s1 s2 : simpl nomatch.

Lemma append_cons (x : ascii) (a b : string) :
  String x a +:+ b = String x (a +:+ b).
Proof. reflexivity. Qed.

Lemma append_assoc (a b c : string) : (a +:+ b) +:+ c = a +:+ (b +:+ c).
Proof.
  induction a as [|x a IH]; [reflexivity|].
  rewrite !append_cons. f_equal. exact IH.
Qed.

Lemma append_empty_r (a : string) : a +:+ "" = a.
Proof.
  induction a as [|x a IH]; [reflexivity|].
  rewrite append_cons. f_equal. exact IH.
Qed.

Lemma prefix_iff (p : string) :
  forall t, String.prefix p t = true <-> exists y, t = p +:+ y.
Proof.
  induction p as [|a p IH]; intros t.
  - destruct t; simpl; split; eauto.
  - destruct t as [|b t]; simpl.
    + split; [discriminate | intros [y Hy]; discriminate].
    + destruct (ascii_dec a b) as [->|Hne].
      * rewrite IH. split; intros [y Hy]; exists y; congruence.
      * split; [discriminate | intros [y Hy]; congruence].
Qed.

(** [text.includes(piece)] holds exactly when [piece] lies somewhere in
    [text]. *)
Lemma includes_iff (text piece : string) :
  includes text piece = true <-> exists x y, text = x +:+ piece +:+ y.
Proof.
  induction text as [|c text IH].
  - change (includes "" piece) with (String.prefix piece "" || false).
    rewrite orb_false_r, prefix_iff. split.
    + intros [y Hy]. exists "", y. exact Hy.
    + intros (x & y & Hxy). destruct x; simpl in Hxy; [eauto | discriminate].
  - change (includes (String c text) piece)
      with (String.prefix piece (String c text) || includes text piece).
    rewrite orb_true_iff, IH, prefix_iff. split.
    + intros [[y Hy] | (x & y & Hxy)].
      * exists "", y. exact Hy.
      * exists (String c x), y. simpl. now rewrite Hxy.
    + intros (x & y & Hxy). destruct x as [|c' x]; simpl in Hxy.
      * left. eauto.
      * right. injection Hxy as _ Hxy. eauto.
Qed.

Lemma includes_empty (text : string) : includes text "" = true.
Proof. apply includes_iff. exists "", text. reflexivity. Qed.

Lemma includes_within (before text after piece : string) :
  includes text piece = true ->
  includes (before +:+ text +:+ after) piece = true.
Proof.
  rewrite !includes_iff. intros (x & y & ->).
  exists (before +:+ x), (y +:+ after). now rewrite !append_assoc.
Qed.

Lemma toLowerCase_append (a b : string) :
  toLowerCase (a +:+ b) = toLowerCase a +:+ toLowerCase b.
Proof. induction a as [|x a IH]; simpl; [reflexivity | f_equal; exact IH]. Qed.

Lemma lowerUnit_idempotent (c : ascii) : lowerUnit (lowerUnit c) = lowerUnit c.
Proof. destruct c as [[] [] [] [] [] [] [] []]; reflexivity. Qed.

Lemma toLowerCase_idempotent (s : string) :
  toLowerCase (toLowerCase s) = toLowerCase s.
Proof.
  induction s as [|c s IH]; simpl; [reflexivity|].
  now rewrite lowerUnit_idempotent, IH.
Qed.

(** A piece of the array that is joined lies in the joined text. *)
Lemma join_member (part : string) (parts : list string) :
  In part parts -> exists x y, join parts = x +:+ part +:+ y.
Proof.
  induction parts as [|p parts IH]; [intros []|].
  intros [->|Hin].
  - destruct parts as [|q parts].
    + exists "", "". simpl. now rewrite append_empty_r.
    + exists "", (" " +:+ join (q :: parts)). reflexivity.
  - destruct (IH Hin) as (x & y & Hxy).
    destruct parts as [|q parts]; [destruct Hin|].
    exists (p +:+ " " +:+ x), y.
    change (join (p :: q :: parts)) with (p +:+ " " +:+ join (q :: parts)).
    rewrite Hxy, !append_assoc. reflexivity.
Qed.

(** ** Method names *)

Lemma lowerUnit_small (c : ascii) :
  smallLetter (lowerUnit c) = true ->
  letter c = true /\ upperUnit c = upperUnit (lowerUnit c).
Proof. destruct c as [[] [] [] [] [] [] [] []]; vm_compute; auto; discriminate. Qed.

Lemma toLowerCase_small (m : string) :
  forallb smallLetter (list_ascii_of_string (toLowerCase m)) = true ->
  forallb letter (list_ascii_of_string m) = true
  /\ toUpperCase m = toUpperCase (toLowerCase m).
Proof.
  induction m as [|c m IH]; simpl; [auto|].
  intros [Hc Hm]%andb_true_iff.
  destruct (lowerUnit_small c Hc) as [Hl Hu], (IH Hm) as [Hls Hus].
  rewrite Hl, Hls, <- Hu, <- Hus. auto.
Qed.

(** A key that names a method is made of the letters A-Z and a-z, and its
    upper case is one of the seven method names in capitals. *)
Lemma isMethod_letters (m : string) :
  isMethod m = true ->
  forallb letter (list_ascii_of_string m) = true
  /\ toUpperCase m ∈ ["GET"; "POST"; "PUT"; "DELETE"; "PATCH"; "OPTIONS"; "HEAD"].
Proof.
  unfold isMethod. intros H%bool_decide_eq_true.
  assert (Hsmall : forallb smallLetter (list_ascii_of_string (toLowerCase m)) = true).
  { unfold httpMethods in H.
    repeat (apply elem_of_cons in H as [-> | H]; [reflexivity|]).
    inversion H. }
  destruct (toLowerCase_small m Hsmall) as [Hl Hu].
  split; [exact Hl|]. rewrite Hu.
  unfold httpMethods in H.
  repeat (apply elem_of_cons in H as [-> | H]; [vm_compute; set_solver|]).
  inversion H.
Qed.

(** ** getEndpoints *)

Lemma endpointOf_spec (path method : string) (op : JSON) :
  endpointOf path method op =
    match op with
    | JNull => Thrown (TypeError "Cannot read properties of null (reading 'summary')")
    | _ => Returned (listed path method op)
    end.
Proof. destruct op; reflexivity. Qed.

Lemma operationsOf_member (path : string) (entries : list (string * JSON)) :
  forall eps, operationsOf path entries = Returned eps ->
  forall ep, ep ∈ eps <->
    exists m op, (m, op) ∈ entries /\ isMethod m = true /\ op <> JNull
                 /\ ep = listed path m op.
Proof.
  induction entries as [|[m op] rest IH]; intros eps Hrun ep.
  - injection Hrun as <-. split; [intros H; inversion H|].
    intros (m & op & H & _). inversion H.
  - simpl in Hrun. destruct (isMethod m) eqn:Hm.
    + rewrite endpointOf_spec in Hrun.
      destruct (operationsOf path rest) as [eps'|e] eqn:Hrest;
        [|destruct op; discriminate].
      assert (Hop : op <> JNull /\ eps = listed path m op :: eps').
      { destruct op; simpl in Hrun; try discriminate;
          injection Hrun as <-; split; congruence. }
      destruct Hop as [Hop ->].
      rewrite elem_of_cons, (IH eps' eq_refl ep). split.
      * intros [-> | (m' & op' & Hin & H)].
        -- exists m, op. split; [left|]. auto.
        -- exists m', op'. split; [now right | exact H].
      * intros (m' & op' & Hin & Hm' & Hop' & ->).
        apply elem_of_cons in Hin as [[= -> ->] | Hin]; [now left|].
        right. eauto 6.
    + rewrite (IH eps Hrun ep). split.
      * intros (m' & op' & Hin & H). exists m', op'. split; [now right | exact H].
      * intros (m' & op' & Hin & Hm' & H).
        apply elem_of_cons in Hin as [[= -> ->] | Hin]; [congruence|]. eauto 6.
Qed.

Lemma endpointsOf_member (items : list (string * JSON)) :
  forall l, endpointsOf items = Returned l ->
  forall ep, ep ∈ l <->
    exists path item entries m op,
      (path, item) ∈ items /\ Object_entries item = Returned entries
      /\ (m, op) ∈ entries /\ isMethod m = true /\ op <> JNull
      /\ ep = listed path m op.
Proof.
  induction items as [|[path item] rest IH]; intros l Hrun ep.
  - injection Hrun as <-. split; [intros H; inversion H|].
    intros (? & ? & ? & ? & ? & H & _). inversion H.
  - simpl in Hrun.
    destruct (Object_entries item) as [entries|e] eqn:Hentries; [|discriminate].
    simpl in Hrun.
    destruct (operationsOf path entries) as [eps|e] eqn:Hops; [|discriminate].
    simpl in Hrun.
    destruct (endpointsOf rest) as [more|e] eqn:Hrest; [|discriminate].
    injection Hrun as <-.
    rewrite elem_of_app, (operationsOf_member path entries eps Hops ep),
            (IH more eq_refl ep).
    split.
    + intros [(m & op & Hin & H) | (p' & i' & e' & m & op & Hin & H)].
      * exists path, item, entries, m, op. split; [left|]. auto.
      * exists p', i', e', m, op. split; [now right | exact H].
    + intros (p' & i' & e' & m & op & Hin & He & H).
      apply elem_of_cons in Hin as [[= -> ->] | Hin].
      * left. rewrite Hentries in He. injection He as <-. eauto.
      * right. eauto 10.
Qed.

Lemma operationsOf_null (path : string) (entries : list (string * JSON)) (m : string) :
  (m, JNull) ∈ entries -> isMethod m = true ->
  exists e, operationsOf path entries = Thrown e.
Proof.
  induction entries as [|[m' op'] rest IH]; intros Hin Hm; [inversion Hin|].
  simpl. apply elem_of_cons in Hin as [[= <- <-] | Hin].
  - rewrite Hm. simpl. eauto.
  - destruct (IH Hin Hm) as [e He]. rewrite He.
    destruct (isMethod m'); [|eauto].
    destruct (endpointOf path m' op'); simpl; eauto.
Qed.

Lemma endpointsOf_thrown (items : list (string * JSON)) (path : string) (item : JSON) :
  (path, item) ∈ items ->
  (exists e, Object_entries item = Thrown e)
  \/ (exists entries e, Object_entries item = Returned entries
                        /\ operationsOf path entries = Thrown e) ->
  exists e, endpointsOf items = Thrown e.
Proof.
  induction items as [|[p' i'] rest IH]; intros Hin Hbad; [inversion Hin|].
  simpl. apply elem_of_cons in Hin as [[= <- <-] | Hin].
  - destruct Hbad as [[e He] | (entries & e & He & Hops)]; rewrite He; simpl.
    + eauto.
    + rewrite Hops. simpl. eauto.
  - destruct (IH Hin Hbad) as [e He]. rewrite He.
    destruct (Object_entries i') as [entries'|]; simpl; [|eauto].
    destruct (operationsOf p' entries'); simpl; eauto.
Qed.

Lemma operationsOf_exact (path : string) (entries : list (string * JSON)) :
  forall eps, operationsOf path entries = Returned eps ->
  eps = map (fun mo => listed path (fst mo) (snd mo))
          (filter (fun mo => toLowerCase (fst mo) ∈ httpMethods) entries).
Proof.
  induction entries as [|[m op] rest IH]; intros eps Hrun.
  - injection Hrun as <-. reflexivity.
  - simpl in Hrun. unfold isMethod in Hrun. rewrite filter_cons. cbn [fst].
    destruct (decide (toLowerCase m ∈ httpMethods)) as [Hm|Hm].
    + rewrite bool_decide_eq_true_2 in Hrun by exact Hm.
      rewrite endpointOf_spec in Hrun.
      destruct (operationsOf path rest) as [eps'|e] eqn:Hrest;
        [|destruct op; discriminate].
      rewrite map_cons, <- (IH eps' eq_refl).
      destruct op; simpl in Hrun; try discriminate; injection Hrun as <-;
        reflexivity.
    + rewrite bool_decide_eq_false_2 in Hrun by exact Hm. auto.
Qed.

Lemma filter_path_same (path : string) (eps : list EndpointInfo) :
  Forall (fun ep => ep_path ep = path) eps ->
  filter (fun ep => ep_path ep = path) eps = eps.
Proof.
  induction 1 as [|ep eps Hep _ IH]; [reflexivity|].
  rewrite filter_cons_True by exact Hep. now rewrite IH.
Qed.

Lemma filter_path_other (path : string) (eps : list EndpointInfo) :
  Forall (fun ep => ep_path ep <> path) eps ->
  filter (fun ep => ep_path ep = path) eps = [].
Proof.
  induction 1 as [|ep eps Hep _ IH]; [reflexivity|].
  now rewrite filter_cons_False by exact Hep.
Qed.

Lemma listed_paths (path : string) (entries : list (string * JSON)) :
  Forall (fun ep => ep_path ep = path)
    (map (fun mo => listed path (fst mo) (snd mo)) entries).
Proof. induction entries; constructor; auto. Qed.

(** The endpoints of one path, in the order of the whole list. *)
Lemma endpointsOf_exact (items : list (string * JSON)) :
  NoDup (map fst items) ->
  forall l, endpointsOf items = Returned l ->
  forall path item entries,
  (path, item) ∈ items -> Object_entries item = Returned entries ->
  filter (fun ep => ep_path ep = path) l
  = map (fun mo => listed path (fst mo) (snd mo))
      (filter (fun mo => toLowerCase (fst mo) ∈ httpMethods) entries).
Proof.
  induction items as [|[path0 item0] rest IH]; intros Hnd l Hrun path item entries Hin He.
  - inversion Hin.
  - apply NoDup_cons in Hnd as [Hfresh Hnd]. simpl in Hrun.
    destruct (Object_entries item0) as [entries0|e] eqn:He0; [|discriminate].
    simpl in Hrun.
    destruct (operationsOf path0 entries0) as [eps|e] eqn:Hops; [|discriminate].
    simpl in Hrun.
    destruct (endpointsOf rest) as [more|e] eqn:Hrest; [|discriminate].
    injection Hrun as <-.
    rewrite (operationsOf_exact path0 entries0 eps Hops), filter_app.
    apply elem_of_cons in Hin as [[= -> ->] | Hin].
    + rewrite He0 in He. injection He as <-.
      rewrite (filter_path_same path0) by apply listed_paths.
      rewrite (filter_path_other path0 more), app_nil_r; [reflexivity|].
      apply Forall_forall. intros ep Hep Heq.
      apply (endpointsOf_member rest more Hrest ep) in Hep
        as (p' & i' & e' & m & op & Hin' & _ & _ & _ & _ & ->).
      apply Hfresh. simpl in Heq. subst p'.
      apply (list_elem_of_fmap_2 fst _ _ Hin').
    + assert (Hne : path0 <> path).
      { intros ->. apply Hfresh. apply (list_elem_of_fmap_2 fst _ _ Hin). }
      rewrite (filter_path_other path); [exact (IH Hnd more eq_refl path item entries Hin He)|].
      eapply Forall_impl; [apply listed_paths|].
      intros ep Hep. simpl in Hep. congruence.
Qed.

(** X17. The endpoints [getEndpoints] lists are exactly these: one for
    every property of a path item whose key, in any letter case, is one of
    get, post, put, delete, patch, options and head, with the path, the key
    in capitals and the seven properties read from the operation.  Keys
    that name no method (vendor extensions, [parameters]) give no
    endpoint.  The endpoints of one path are listed once each, in the
    order of the path item's properties. *)
Theorem getEndpoints_lists (swaggerDoc : SwaggerDoc) (l : list EndpointInfo) :
  getEndpoints swaggerDoc = Returned l ->
  (forall ep, ep ∈ l <->
     exists p path item entries m op,
       paths swaggerDoc = Some p /\ p !! path = Some item
       /\ Object_entries item = Returned entries
       /\ (m, op) ∈ entries /\ toLowerCase m ∈ httpMethods
       /\ ep = listed path m op)
  /\ (forall p path item entries,
        paths swaggerDoc = Some p -> p !! path = Some item ->
        Object_entries item = Returned entries ->
        filter (fun ep => ep_path ep = path) l
        = map (fun mo => listed path (fst mo) (snd mo))
            (filter (fun mo => toLowerCase (fst mo) ∈ httpMethods) entries)).
Proof.
  unfold getEndpoints. destruct (paths swaggerDoc) as [p|]; [|discriminate].
  intros Hrun. split.
  - intros ep. rewrite (endpointsOf_member _ l Hrun ep). split.
    + intros (path & item & entries & m & op & Hin & He & Hm & Him & _ & ->).
      exists p, path, item, entries, m, op.
      apply elem_of_map_to_list in Hin. apply bool_decide_eq_true in Him. auto 10.
    + intros (p' & path & item & entries & m & op & [= <-] & Hp & He & Hm & Him & ->).
      assert (Him' : isMethod m = true) by now apply bool_decide_eq_true.
      assert (Hin : (path, item) ∈ map_to_list p) by now apply elem_of_map_to_list.
      exists path, item, entries, m, op. repeat (split; [assumption|]).
      split; [|reflexivity].
      intros ->.
      destruct (operationsOf_null path entries m Hm Him') as [e Hops].
      destruct (endpointsOf_thrown (map_to_list p) path item Hin) as [e' He'].
      { right. eauto. }
      congruence.
  - intros p' path item entries [= <-] Hp He.
    apply (endpointsOf_exact (map_to_list p) (NoDup_fst_map_to_list p) l Hrun
             path item entries); [|exact He].
    now apply elem_of_map_to_list.
Qed.

(** X18. Every endpoint [getEndpoints] lists bears as its method one of
    GET, POST, PUT, DELETE, PATCH, OPTIONS and HEAD, whatever the letter
    case of the key in the document, and as its path a key of [paths]. *)
Theorem getEndpoints_methods (swaggerDoc : SwaggerDoc) (l : list EndpointInfo)
    (ep : EndpointInfo) :
  getEndpoints swaggerDoc = Returned l ->
  ep ∈ l ->
  ep_method ep ∈ capitalMethods
  /\ exists p item, paths swaggerDoc = Some p /\ p !! ep_path ep = Some item.
Proof.
  unfold getEndpoints. destruct (paths swaggerDoc) as [p|]; [|discriminate].
  intros Hrun Hep.
  apply (endpointsOf_member _ l Hrun ep) in Hep
    as (path & item & entries & m & op & Hin & _ & _ & Hm & _ & ->).
  split.
  - exact (proj2 (isMethod_letters m Hm)).
  - exists p, item. split; [reflexivity|]. now apply elem_of_map_to_list.
Qed.

Lemma operationsOf_returns (path : string) (entries : list (string * JSON)) :
  (forall m, isMethod m = true -> (m, JNull) ∉ entries) ->
  exists eps, operationsOf path entries = Returned eps.
Proof.
  induction entries as [|[m op] rest IH]; intros Hok; simpl; [eauto|].
  destruct IH as [eps Heps].
  { intros m' Hm' Hin. apply (Hok m' Hm'). now right. }
  rewrite Heps. destruct (isMethod m) eqn:Hm; [|eauto].
  rewrite endpointOf_spec. destruct op; simpl; eauto.
  exfalso. apply (Hok m Hm). left.
Qed.

Lemma endpointsOf_returns (items : list (string * JSON)) :
  (forall path item, (path, item) ∈ items ->
     item <> JNull
     /\ forall entries m, Object_entries item = Returned entries ->
          isMethod m = true -> (m, JNull) ∉ entries) ->
  exists l, endpointsOf items = Returned l.
Proof.
  induction items as [|[path item] rest IH]; intros Hok; simpl; [eauto|].
  destruct IH as [more Hmore].
  { intros p' i' Hin. apply (Hok p' i'). now right. }
  destruct (Hok path item) as [Hitem Hops]; [left|].
  destruct (Object_entries item) as [entries|e] eqn:He;
    [|destruct item; try discriminate; congruence].
  simpl. destruct (operationsOf_returns path entries) as [eps Heps].
  { intros m Hm. now apply Hops. }
  rewrite Heps, Hmore. simpl. eauto.
Qed.

(** X19. [getEndpoints] throws exactly when the document has no [paths],
    or a path item is [null], or an operation under a method key is
    [null]; in every other case it returns a list. *)
Theorem getEndpoints_returns_iff (swaggerDoc : SwaggerDoc) :
  (exists l, getEndpoints swaggerDoc = Returned l) <->
  exists p,
    paths swaggerDoc = Some p
    /\ forall path item, p !! path = Some item ->
         item <> JNull
         /\ forall entries m, Object_entries item = Returned entries ->
              toLowerCase m ∈ httpMethods -> (m, JNull) ∉ entries.
Proof.
  unfold getEndpoints. destruct (paths swaggerDoc) as [p|].
  2:{ split; [intros [l Hl]; discriminate | intros (p & [=] & _)]. }
  split.
  - intros [l Hl]. exists p. split; [reflexivity|].
    intros path item Hitem.
    assert (Hin : (path, item) ∈ map_to_list p) by now apply elem_of_map_to_list.
    split.
    + intros ->.
      destruct (endpointsOf_thrown (map_to_list p) path JNull Hin) as [e He].
      { left. simpl. eauto. }
      congruence.
    + intros entries m He Hm Hnull.
      assert (Him : isMethod m = true) by now apply bool_decide_eq_true.
      destruct (operationsOf_null path entries m Hnull Him) as [e Hops].
      destruct (endpointsOf_thrown (map_to_list p) path item Hin) as [e' He'].
      { right. eauto. }
      congruence.
  - intros (p' & [= <-] & Hok). apply endpointsOf_returns.
    intros path item Hin%elem_of_map_to_list.
    destruct (Hok path item Hin) as [Hitem Hops]. split; [exact Hitem|].
    intros entries m He Hm. apply (Hops entries m He).
    now apply bool_decide_eq_true in Hm.
Qed.

(** ** Filtering with a callback that may throw *)

Lemma filterR_returned {A} (keep : A -> Result bool) (items : list A) :
  forall kept, filterR keep items = Returned kept ->
  sublist kept items
  /\ (forall x, x ∈ items -> exists b, keep x = Returned b)
  /\ (forall x, x ∈ kept <-> x ∈ items /\ keep x = Returned true).
Proof.
  induction items as [|x rest IH]; intros kept Hrun.
  - injection Hrun as <-. split; [constructor|].
    split; [intros x H; inversion H|].
    intros x. split; [intros H; inversion H | intros [H _]; inversion H].
  - simpl in Hrun. destruct (keep x) as [b|e] eqn:Hx; [|discriminate].
    simpl in Hrun.
    destruct (filterR keep rest) as [kept'|e] eqn:Hrest; [|discriminate].
    injection Hrun as <-.
    destruct (IH kept' eq_refl) as (Hsub & Hall & Hmem).
    split; [destruct b; now constructor|]. split.
    + intros y [->|Hy]%elem_of_cons; eauto.
    + intros y. destruct b.
      * rewrite !elem_of_cons, Hmem. split.
        -- intros [->|[Hy Hk]]; auto.
        -- intros [[->|Hy] Hk]; auto.
      * rewrite elem_of_cons, Hmem. split.
        -- intros [Hy Hk]; auto.
        -- intros [[->|Hy] Hk]; [congruence | auto].
Qed.

Lemma filterR_returns {A} (keep : A -> Result bool) (items : list A) :
  (forall x, x ∈ items -> exists b, keep x = Returned b) ->
  exists kept, filterR keep items = Returned kept.
Proof.
  induction items as [|x rest IH]; intros Hok; simpl; [eauto|].
  destruct (Hok x) as [b Hb]; [left|]. rewrite Hb. simpl.
  destruct IH as [kept Hkept]; [intros y Hy; apply Hok; now right|].
  rewrite Hkept. simpl. eauto.
Qed.

Lemma filterR_all {A} (keep : A -> Result bool) (items : list A) :
  (forall x, x ∈ items -> keep x = Returned true) ->
  filterR keep items = Returned items.
Proof.
  induction items as [|x rest IH]; intros Hok; simpl; [reflexivity|].
  rewrite (Hok x) by left. simpl.
  rewrite IH; [reflexivity|]. intros y Hy. apply Hok. now right.
Qed.

Lemma tagsInclude_returns (tags : option JSON) (tag : string) :
  (exists b, tagsInclude tags tag = Returned b) <-> spreadable tags = true.
Proof.
  unfold tagsInclude, spreadable.
  destruct tags as [[|[]|z|s|items|members]|]; simpl;
    try (split; [reflexivity | eauto]);
    try (split; [intros [b Hb]; discriminate | discriminate]).
  - destruct (z =? 0)%Z; simpl; split; eauto; try discriminate.
    intros [b Hb]. discriminate.
  - destruct (String.eqb s ""); simpl; split; eauto.
Qed.

Lemma tagsInclude_true (tags : option JSON) (tag : string) :
  tagsInclude tags tag = Returned true <-> tagged tags tag.
Proof.
  unfold tagsInclude, tagged.
  destruct tags as [[|[]|z|s|items|members]|]; simpl;
    try (split; [discriminate | intros [(? & [=] & _) | (? & [=] & _)]]).
  - destruct (z =? 0)%Z; simpl;
      (split; [discriminate | intros [(? & [=] & _) | (? & [=] & _)]]).
  - destruct (String.eqb s "") eqn:Hs; simpl.
    + apply String.eqb_eq in Hs. subst s.
      split; [discriminate|].
      intros [(? & [=] & _) | (s & [= <-] & Hne & _)]. congruence.
    + apply String.eqb_neq in Hs. split.
      * intros [= H]. right. eauto.
      * intros [(? & [=] & _) | (s' & [= <-] & _ & H)]. now rewrite H.
  - split.
    + intros [= H]. left. exists items. split; [reflexivity|].
      apply existsb_exists in H as (v & Hv & Heq).
      destruct v; try discriminate. apply String.eqb_eq in Heq. subst.
      now apply list_elem_of_In.
    + intros [(items' & [= <-] & Hin) | (? & [=] & _)].
      f_equal. apply existsb_exists. exists (JStr tag).
      split; [now apply list_elem_of_In | apply String.eqb_refl].
Qed.

(** ** getEndpointsByTag *)

(** X20. [getEndpointsByTag] returns, in the order of [getEndpoints], the
    endpoints whose tags include the tag: an array of tags that has the tag
    among its items, with the same letter case; or, when an operation's
    [tags] is one string rather than an array, a string that has the tag as
    a piece of it.  Endpoints without tags are left out. *)
Theorem getEndpointsByTag_lists (swaggerDoc : SwaggerDoc) (tag : string)
    (l : list EndpointInfo) :
  getEndpointsByTag swaggerDoc tag = Returned l ->
  exists allEndpoints,
    getEndpoints swaggerDoc = Returned allEndpoints
    /\ sublist l allEndpoints
    /\ forall ep, ep ∈ l <-> ep ∈ allEndpoints /\ tagged (ep_tags ep) tag.
Proof.
  unfold getEndpointsByTag.
  destruct (getEndpoints swaggerDoc) as [allEndpoints|e]; [|discriminate].
  simpl. intros Hrun. exists allEndpoints. split; [reflexivity|].
  destruct (filterR_returned _ _ l Hrun) as (Hsub & _ & Hmem).
  split; [exact Hsub|]. intros ep.
  rewrite Hmem, tagsInclude_true. reflexivity.
Qed.

(** ** searchEndpoints *)

Section SearchFacts.
Variable ToString : JSON -> Result string.

Local Abbreviation search := (searchEndpoints ToString).
Local Abbreviation textOf := (searchableText ToString).
Local Abbreviation textOfElement := (elementText ToString).
Local Abbreviation texts := (textsOf ToString).

Lemma spreadTags_returns (tags : option JSON) :
  (exists items, spreadTags tags = Returned items) <-> spreadable tags = true.
Proof.
  unfold spreadTags, spreadable.
  destruct tags as [[|[]|z|s|items|members]|]; simpl;
    try (split; [reflexivity | eauto]);
    try (split; [intros [b Hb]; discriminate | discriminate]).
  - destruct (z =? 0)%Z; simpl; split; eauto; try discriminate.
    intros [b Hb]. discriminate.
  - destruct (String.eqb s ""); simpl; split; eauto.
Qed.

(** [join] has a text exactly when every element has one; the texts are
    then those of the elements, in order. *)
Lemma texts_returns (elements : list JSON) :
  (exists parts, texts elements = Returned parts)
  <-> forall v, v ∈ elements -> textual ToString v.
Proof.
  unfold textual. induction elements as [|v rest IH]; simpl.
  - split; [intros _ v H; inversion H | eauto].
  - split.
    + intros [parts Hrun] x Hx.
      destruct (textOfElement v) as [text|] eqn:Hv; [|discriminate].
      simpl in Hrun. destruct (texts rest) as [more|] eqn:Hrest; [|discriminate].
      apply elem_of_cons in Hx as [->|Hx]; [eauto|].
      apply (proj1 IH); eauto.
    + intros Hall. destruct (Hall v) as [text Hv]; [left|]. rewrite Hv. simpl.
      destruct (proj2 IH) as [more Hmore]; [intros x Hx; apply Hall; now right|].
      rewrite Hmore. simpl. eauto.
Qed.

Lemma texts_member (elements : list JSON) (parts : list string) (s : string) :
  texts elements = Returned parts -> JStr s ∈ elements -> In s parts.
Proof.
  revert parts. induction elements as [|v rest IH]; intros parts Hrun Hin.
  - inversion Hin.
  - simpl in Hrun. destruct (textOfElement v) as [text|] eqn:Hv; [|discriminate].
    simpl in Hrun. destruct (texts rest) as [more|] eqn:Hrest; [|discriminate].
    injection Hrun as <-.
    apply elem_of_cons in Hin as [<-|Hin].
    + simpl in Hv. injection Hv as <-. now left.
    + right. now apply IH.
Qed.

Lemma characters_textual (s : string) (v : JSON) :
  v ∈ characters s -> textual ToString v.
Proof.
  induction s as [|c s IH]; simpl; intros Hin; [inversion Hin|].
  apply elem_of_cons in Hin as [->|Hin]; [|auto].
  eexists. reflexivity.
Qed.

Lemma textOf_returns (ep : EndpointInfo) :
  (exists text, textOf ep = Returned text) <-> searchable ToString ep.
Proof.
  unfold searchableText, searchable.
  rewrite <- spreadTags_returns.
  destruct (spreadTags (ep_tags ep)) as [tags|e] eqn:Htags; simpl.
  2:{ split; [intros [text Ht]; discriminate | intros ([items Hi] & _); discriminate]. }
  assert (Hparts : (exists text,
                      andThen (texts (searched ep tags))
                        (fun parts => Returned (toLowerCase (join parts)))
                      = Returned text)
                   <-> forall v, v ∈ searched ep tags -> textual ToString v).
  { rewrite <- texts_returns.
    destruct (texts (searched ep tags)); simpl; split; eauto;
      intros [x Hx]; discriminate. }
  rewrite Hparts. unfold searched. split.
  - intros Hall. split; [eauto|].
    split; [apply Hall, elem_of_app; left; rewrite !elem_of_cons; auto|].
    split; [apply Hall, elem_of_app; left; rewrite !elem_of_cons; auto|].
    split; [apply Hall, elem_of_app; left; rewrite !elem_of_cons; auto 6|].
    intros items Hitems v Hv. apply Hall.
    rewrite Hitems in Htags. simpl in Htags. injection Htags as <-.
    apply elem_of_app. now right.
  - intros (_ & Hs & Hd & Ho & Hitems) v Hv.
    apply elem_of_app in Hv as [Hv|Hv].
    + rewrite !elem_of_cons in Hv.
      destruct Hv as [->|[->|[->|[->|[->|Hv]]]]]; auto;
        try (eexists; reflexivity).
      inversion Hv.
    + unfold spreadTags in Htags.
      destruct (truthyValue (ep_tags ep));
        [|injection Htags as <-; inversion Hv].
      destruct (ep_tags ep) as [[| | |s|items|]|]; try discriminate;
        injection Htags as <-.
      * exact (characters_textual s v Hv).
      * exact (Hitems items eq_refl v Hv).
Qed.

(** X21. [getEndpointsByTag] throws exactly when [getEndpoints] throws or
    some listed operation has for [tags] a truthy value that is neither an
    array nor a string (a number, [true], an object); otherwise it
    returns, whatever the tag.  [searchEndpoints] throws exactly when
    [getEndpoints] throws or some listed operation cannot be searched: its
    [tags] is such a value, or one of the values that are joined (its
    summary, description or operationId when truthy, an item of its tags)
    has no text; otherwise it returns, whatever the query. *)
Theorem queries_return_iff (swaggerDoc : SwaggerDoc) (tag query : string) :
  ((exists l, getEndpointsByTag swaggerDoc tag = Returned l) <->
   exists allEndpoints,
     getEndpoints swaggerDoc = Returned allEndpoints
     /\ forall ep, ep ∈ allEndpoints -> spreadable (ep_tags ep) = true)
  /\ ((exists l, search swaggerDoc query = Returned l) <->
      exists allEndpoints,
        getEndpoints swaggerDoc = Returned allEndpoints
        /\ forall ep, ep ∈ allEndpoints -> searchable ToString ep).
Proof.
  unfold getEndpointsByTag, searchEndpoints.
  destruct (getEndpoints swaggerDoc) as [allEndpoints|e]; simpl.
  2:{ split; (split; [intros [l Hl]; discriminate | intros (a & [=] & _)]). }
  split; split.
  - intros [l Hl]. exists allEndpoints. split; [reflexivity|].
    intros ep Hep. apply (tagsInclude_returns _ tag).
    exact (proj1 (proj2 (filterR_returned _ _ l Hl)) ep Hep).
  - intros (a & [= <-] & Hok). apply filterR_returns.
    intros ep Hep. apply tagsInclude_returns. auto.
  - intros [l Hl]. exists allEndpoints. split; [reflexivity|].
    intros ep Hep. apply textOf_returns.
    destruct (proj1 (proj2 (filterR_returned _ _ l Hl)) ep Hep) as [b Hb].
    destruct (textOf ep); [eauto | discriminate].
  - intros (a & [= <-] & Hok). apply filterR_returns.
    intros ep Hep. destruct (proj2 (textOf_returns ep) (Hok ep Hep)) as [text Ht].
    rewrite Ht. simpl. eauto.
Qed.

(** X22. What [searchEndpoints] returns is a selection of what
    [getEndpoints] lists, in the same order; with the empty query it is the
    whole list. *)
Theorem search_selects (swaggerDoc : SwaggerDoc) (query : string)
    (l : list EndpointInfo) :
  search swaggerDoc query = Returned l ->
  exists allEndpoints,
    getEndpoints swaggerDoc = Returned allEndpoints
    /\ sublist l allEndpoints
    /\ (query = "" -> l = allEndpoints).
Proof.
  unfold searchEndpoints.
  destruct (getEndpoints swaggerDoc) as [allEndpoints|e]; [|discriminate].
  simpl. intros Hrun. exists allEndpoints. split; [reflexivity|].
  destruct (filterR_returned _ _ l Hrun) as (Hsub & Hall & _).
  split; [exact Hsub|]. intros ->.
  rewrite filterR_all in Hrun; [congruence|].
  intros ep Hep. destruct (Hall ep Hep) as [b Hb].
  destruct (textOf ep) as [text|]; [|discriminate].
  simpl. now rewrite includes_empty.
Qed.

(** X23. [searchEndpoints] does not tell the letter case of the query:
    two queries with the same lower case give the same result, and so do a
    query and its lower case. *)
Theorem search_ignores_query_case (swaggerDoc : SwaggerDoc) (query : string) :
  search swaggerDoc (toLowerCase query) = search swaggerDoc query
  /\ forall query', toLowerCase query' = toLowerCase query ->
       search swaggerDoc query' = search swaggerDoc query.
Proof.
  unfold searchEndpoints. split.
  - now rewrite toLowerCase_idempotent.
  - intros query' ->. reflexivity.
Qed.

Lemma includes_joined (parts : list string) (part piece : string) :
  In part parts ->
  includes (toLowerCase part) piece = true ->
  includes (toLowerCase (join parts)) piece = true.
Proof.
  intros Hin Hinc. destruct (join_member part parts Hin) as (x & y & ->).
  rewrite !toLowerCase_append. now apply includes_within.
Qed.

(** X24. [searchEndpoints] finds an endpoint as soon as the query, letter
    case apart, is a piece of its path, of its method, of its summary, of
    its description, of its operationId or of one of its tags. *)
Theorem search_finds (swaggerDoc : SwaggerDoc) (query : string)
    (allEndpoints l : list EndpointInfo) (ep : EndpointInfo) :
  getEndpoints swaggerDoc = Returned allEndpoints ->
  search swaggerDoc query = Returned l ->
  ep ∈ allEndpoints ->
  (exists piece,
     includes (toLowerCase piece) (toLowerCase query) = true
     /\ (piece = ep_path ep \/ piece = ep_method ep
         \/ ep_summary ep = Some (JStr piece)
         \/ ep_description ep = Some (JStr piece)
         \/ ep_operationId ep = Some (JStr piece)
         \/ exists items, ep_tags ep = Some (JArr items) /\ JStr piece ∈ items)) ->
  ep ∈ l.
Proof.
  unfold searchEndpoints. intros -> Hrun Hep (piece & Hinc & Hwhere).
  cbn [andThen] in Hrun.
  destruct (filterR_returned _ _ l Hrun) as (_ & Hall & Hmem).
  apply Hmem. split; [exact Hep|].
  destruct (Hall ep Hep) as [b Hb].
  unfold searchableText in *.
  destruct (spreadTags (ep_tags ep)) as [tags|] eqn:Htags; [|discriminate].
  cbn [andThen] in *.
  destruct (texts (searched ep tags)) as [parts|] eqn:Hparts; [|discriminate].
  cbn [andThen]. f_equal. apply (includes_joined _ piece); [|exact Hinc].
  apply (texts_member _ _ _ Hparts). unfold searched.
  assert (Htext : forall s, orEmpty (Some (JStr s)) = JStr s).
  { intros s. unfold orEmpty. simpl.
    destruct (String.eqb s "") eqn:E; simpl; [|reflexivity].
    apply String.eqb_eq in E. now subst. }
  apply elem_of_app.
  destruct Hwhere as [-> | [-> | [H | [H | [H | (items & H & Hin)]]]]].
  - left. rewrite !elem_of_cons. auto.
  - left. rewrite !elem_of_cons. auto.
  - left. rewrite H, Htext, !elem_of_cons. auto.
  - left. rewrite H, Htext, !elem_of_cons. auto.
  - left. rewrite H, Htext, !elem_of_cons. auto 6.
  - right. rewrite H in Htags. simpl in Htags. injection Htags as <-. exact Hin.
Qed.
End SearchFacts.

(** * The further theorems at work in the small worlds *)

Section MoreRuns.
Import Demo.

Local Abbreviation registryOf :=
  (fun origin => snd (fetchSwaggerConfig axios_get JSON_parse config origin (start 0))).
Local Abbreviation registryOf2 :=
  (fun origin => snd (fetchSwaggerConfig Demo2.axios_get Demo2.JSON_parse config
                        origin (start 0))).

(** api.test: the health path and the Error schema are billing's, the
    last to have them; the users path is users'. *)
Lemma hub_merge_last_wins_witness :
  exists cd w' P S,
    fetch "http://api.test/docs" (start 0) = (Returned (object cd), w')
    /\ paths cd = Some P
    /\ P !! "/health" = default ∅ (paths billingDoc) !! "/health"
    /\ P !! "/users" = default ∅ (paths usersDoc) !! "/users"
    /\ P !! "/orders" = None
    /\ (c ← components cd; schemas c) = Some S
    /\ S !! "Error" = Some (JStr "billing").
Proof.
  destruct (hub_merge_last_wins axios_get Date_now YAML_parse JSON_parse
              URL_origin config "http://api.test/docs" "http://api.test"
              (start 0) (registryOf "http://api.test")
              noDoc {| urls := Some registry |} registry)
    as (cd & cfg & w' & P & S & Hrun & HP & Hpaths & HS & Hschemas);
    try (vm_compute; reflexivity); [discriminate|].
  assert (Hcfg : cfg = {| urls := None |}).
  { vm_compute in Hrun. congruence. }
  subst cfg.
  exists cd, w', P, S. split; [exact Hrun|]. split; [exact HP|].
  rewrite !Hpaths, Hschemas by discriminate.
  split; [vm_compute; reflexivity|]. split; [vm_compute; reflexivity|].
  split; [vm_compute; reflexivity|]. split; [exact HS|].
  vm_compute. reflexivity.
Defined.

(** api.test: the tag "common" is met in users first. *)
Lemma hub_merge_first_tag_wins_witness :
  exists cd cfg w' T,
    fetch "http://api.test/docs" (start 0) = (Returned (JSObject cd cfg), w')
    /\ tags cd = Some T
    /\ NoDup (map tag_name T)
    /\ firstNamed "common" T
       = Some {| tag_name := "common"; tag_description := Some "Shared, per users" |}.
Proof.
  destruct (hub_merge_first_tag_wins axios_get Date_now YAML_parse JSON_parse
              URL_origin config "http://api.test/docs" "http://api.test"
              (start 0) (registryOf "http://api.test")
              noDoc {| urls := Some registry |} registry)
    as (cd & cfg & w' & T & Hrun & HT & Hnd & Hfirst);
    try (vm_compute; reflexivity); [discriminate|].
  exists cd, cfg, w', T. repeat (split; [assumption|]).
  rewrite Hfirst. vm_compute. reflexivity.
Defined.

(** api.test: three sources are listed; users is retained, orders, whose
    fetch failed, is not. *)
Lemma hub_fetch_sources_witness :
  getApiSources (this afterHub) = ["users"; "orders"; "billing"]
  /\ getDocBySource (this afterHub) "users" = Some (withSource (object usersDoc) "users")
  /\ getDocBySource (this afterHub) "orders" = None
  /\ getDocBySource (this afterHub) "legacy" = None.
Proof.
  destruct (hub_fetch_sources axios_get Date_now YAML_parse JSON_parse
              URL_origin config "http://api.test/docs" "http://api.test"
              (start 0) (registryOf "http://api.test")
              noDoc {| urls := Some registry |} registry)
    as (Hsources & Hdocs & Hother);
    try (vm_compute; reflexivity); [discriminate | |].
  { refine (bool_decide_unpack _ _); vm_compute; exact I. }
  fold (fetch "http://api.test/docs" (start 0)) in Hsources, Hdocs, Hother.
  fold afterHub in Hsources, Hdocs, Hother.
  split; [exact Hsources|]. split; [|split].
  - apply (Hdocs (entry "users.yaml" "users") (Returned (object usersDoc))).
    vm_compute. left.
  - apply (Hdocs (entry "orders.yaml" "orders")
             (Thrown (Error ("Failed to fetch individual Swagger doc from orders.yaml: "
                             +:+ render notFound)))).
    vm_compute. right. left.
  - apply Hother. refine (bool_decide_unpack _ _); vm_compute; exact I.
Defined.

(** mixed.test: the first document returned has no [paths]; the combined
    document has users' paths and no version field. *)
Lemma hub_version_from_first_returned_witness :
  exists cd cfg w',
    Demo2.fetch "http://mixed.test/docs" (start 0) = (Returned (JSObject cd cfg), w')
    /\ openapi cd = None
    /\ swagger cd = None
    /\ (c ← components cd; securitySchemes c) = None
    /\ paths cd = paths usersDoc.
Proof.
  destruct (hub_version_from_first_returned Demo2.axios_get Date_now
              Demo2.YAML_parse Demo2.JSON_parse Demo2.URL_origin config
              "http://mixed.test/docs" "http://mixed.test"
              (start 0) (registryOf2 "http://mixed.test")
              noDoc {| urls := Some Demo2.mixed |} Demo2.mixed)
    as (cd & cfg & w' & Hrun & Hopenapi & Hswagger & Hsec);
    try (vm_compute; reflexivity); [discriminate | |].
  { refine (bool_decide_unpack _ _); vm_compute; exact I. }
  exists cd, cfg, w'. split; [exact Hrun|].
  split; [rewrite Hopenapi; vm_compute; reflexivity|].
  split; [rewrite Hswagger; vm_compute; reflexivity|].
  split; [rewrite Hsec; vm_compute; reflexivity|].
  unfold Demo2.fetch in Hrun. vm_compute in Hrun.
  injection Hrun as <- _ _. vm_compute. reflexivity.
Defined.

(** legacy.test: the combined document holds the schema Pet, and
    [getSchemas] reads nothing from it. *)
Lemma getSchemas_of_combined_witness :
  exists cd cfg w' S,
    fetch "http://legacy.test/docs" (start 0) = (Returned (JSObject cd cfg), w')
    /\ (c ← components cd; schemas c) = Some S
    /\ S !! "Pet" = Some (JStr "modern")
    /\ getSchemas cd = ∅.
Proof.
  destruct (getSchemas_of_combined axios_get Date_now YAML_parse JSON_parse
              URL_origin config "http://legacy.test/docs" "http://legacy.test"
              (start 0) (registryOf "http://legacy.test")
              noDoc {| urls := Some [entry "legacy.yaml" "legacy"] |}
              [entry "legacy.yaml" "legacy"])
    as (cd & cfg & w' & S & Hrun & HS & Hdefs & Hget);
    try (vm_compute; reflexivity); [discriminate|].
  exists cd, cfg, w', S. split; [exact Hrun|]. split; [exact HS|].
  unfold fetch in Hrun. vm_compute in Hrun. injection Hrun as <- _ _.
  vm_compute in HS. injection HS as <-.
  split; vm_compute; reflexivity.
Defined.

(** A direct fetch on the instance that fetched the api.test registry. *)
Lemma fetchSwaggerDoc_keeps_other_entries_witness :
  cache (this (snd (fetch "http://api.test/users.yaml" afterHub))) !! "http://api.test/docs"
    = cache (this afterHub) !! "http://api.test/docs"
  /\ cache (this afterHub) !! "http://api.test/docs" <> None.
Proof.
  split; [|vm_compute; discriminate].
  eapply (fetchSwaggerDoc_keeps_other_entries axios_get Date_now YAML_parse
            JSON_parse URL_origin config "http://api.test/users.yaml"
            "http://api.test/docs" afterHub).
  - apply surjective_pairing.
  - discriminate.
Defined.

(** api.test: four requests, each with the bearer token. *)
Lemma fetchSwaggerDoc_requests_authenticated_witness :
  length (sent afterHub) = 4
  /\ Forall (fun x => header (snd x) "Authorization" = Some "Bearer s3cret"
                      /\ responseType (snd x) = Some "text") (sent afterHub).
Proof.
  destruct (fetchSwaggerDoc_requests_authenticated axios_get Date_now YAML_parse
              JSON_parse URL_origin config "http://api.test/docs" (start 0)
              afterHub (fst (fetch "http://api.test/docs" (start 0)))
              (surjective_pairing _))
    as (more & Hsent & Hall).
  simpl in Hsent. split; [vm_compute; reflexivity|].
  rewrite Hsent. eapply Forall_impl; [exact Hall|].
  intros x [Htype Hheaders]. split; [|exact Htype].
  unfold header. rewrite Hheaders. vm_compute. reflexivity.
Defined.

(** A URL without an origin. *)
Lemma hub_invalid_url_sends_nothing_witness :
  fetch "not a url" (start 0)
    = (Thrown (Error "Failed to fetch Swagger documentation: TypeError: Invalid URL"),
       start 0).
Proof.
  apply (hub_invalid_url_sends_nothing axios_get Date_now YAML_parse JSON_parse
           URL_origin config "not a url" (start 0) invalidUrl);
    vm_compute; reflexivity.
Defined.

(** gone.test serves no registry. *)
Lemma hub_registry_failure_stops_witness :
  (exists e, fst (Demo2.fetch "http://gone.test/docs" afterHub) = Thrown e)
  /\ this (snd (Demo2.fetch "http://gone.test/docs" afterHub)) = this afterHub
  /\ map fst (sent (snd (Demo2.fetch "http://gone.test/docs" afterHub)))
     = (map fst (sent afterHub) ++ ["http://gone.test/swagger-config.json"])%list.
Proof.
  destruct (hub_registry_failure_stops Demo2.axios_get Date_now Demo2.YAML_parse
              Demo2.JSON_parse Demo2.URL_origin config
              "http://gone.test/docs" "http://gone.test" afterHub
              (snd (fetchSwaggerConfig Demo2.axios_get Demo2.JSON_parse config
                      "http://gone.test" afterHub))
              (Error ("Failed to fetch swagger-config.json: " +:+ render notFound)))
    as (Hrun & Hthis & Hsent);
    try (vm_compute; reflexivity).
  unfold Demo2.fetch. rewrite Hrun. cbn [fst snd].
  split; [eauto|]. split; [exact Hthis|].
  rewrite Hsent, map_app. reflexivity.
Defined.

(** none.test lists nothing: after the failed fetch no source is listed,
    and the documents of api.test are still found. *)
Lemma hub_empty_registry_witness :
  exists w',
    fetch "http://none.test/docs" afterHub =
      (Thrown (Error "Failed to fetch Swagger documentation: Error: No API URLs found in swagger-config.json"),
       w')
    /\ getApiSources (this w') = []
    /\ getDocBySource (this w') "users" = Some (withSource (object usersDoc) "users")
    /\ cache (this w') = cache (this afterHub).
Proof.
  destruct (hub_empty_registry axios_get Date_now YAML_parse JSON_parse
              URL_origin config "http://none.test/docs" "http://none.test" afterHub
              (snd (fetchSwaggerConfig axios_get JSON_parse config
                      "http://none.test" afterHub))
              (registryValue []))
    as (w' & Hrun & Hsources & Hdocs & Hcache);
    try (vm_compute; reflexivity).
  exists w'. split; [exact Hrun|]. split; [exact Hsources|].
  split; [|exact Hcache].
  rewrite Hdocs. vm_compute. reflexivity.
Defined.

(** The users document, read by the YAML parser, with a JSON parser that
    would read every text as [null]. *)
Lemma yaml_parse_decides_witness :
  fst (fetchSwaggerDoc axios_get Date_now YAML_parse (fun _ => Returned JSNull)
         URL_origin config "http://api.test/users.yaml" (start 0))
    = Returned (object usersDoc).
Proof.
  destruct (yaml_parse_decides axios_get Date_now YAML_parse URL_origin config
              usersText (object usersDoc) ltac:(vm_compute; reflexivity)
              (fun _ => Returned JSNull) JSON_parse) as [Hdirect _].
  apply (Hdirect "http://api.test/users.yaml" (start 0) 40%Z);
    vm_compute; reflexivity.
Defined.

(** Validation of a registry that cannot be fetched, on the instance that
    fetched api.test. *)
Lemma validateSwaggerDoc_outcomes_witness :
  fst (Demo2.validate "http://gone.test/docs" afterHub) = Returned false
  /\ cache (this (snd (Demo2.validate "http://gone.test/docs" afterHub)))
     = cache (this afterHub)
  /\ fst (Demo2.validate "http://api.test/docs" (start 0)) = Returned true.
Proof.
  destruct (validateSwaggerDoc_outcomes Demo2.axios_get Date_now Demo2.YAML_parse
              Demo2.JSON_parse Demo2.URL_origin config Demo2.validator
              "http://gone.test/docs" afterHub) as (_ & Hfalse & _).
  destruct (Hfalse
              (wrapFetch (Error ("Failed to fetch swagger-config.json: "
                                 +:+ render notFound)))
              (snd (Demo2.fetch "http://gone.test/docs" afterHub))
              ltac:(vm_compute; reflexivity)) as [Hrun Hcache].
  unfold Demo2.validate. rewrite Hrun. cbn [fst snd].
  split; [reflexivity|]. split; [exact Hcache|]. vm_compute. reflexivity.
Defined.

(** The bearer configuration on a request that carries an Accept header. *)
Lemma applyAuth_touches_one_header_witness :
  header (applyAuth config acceptJson) "Accept" = Some "application/json".
Proof.
  destruct (applyAuth_touches_one_header config acceptJson "Accept"
              ltac:(vm_compute; discriminate)) as [Hheader _].
  rewrite Hheader. vm_compute. reflexivity.
Defined.

(** A bearer token, a user with a password, and an API key whose header
    name is empty. *)
Lemma applyAuth_sets_credential_witness :
  header (applyAuth config acceptJson) "Authorization" = Some "Bearer s3cret"
  /\ header (applyAuth Demo2.basicConfig acceptJson) "Authorization"
     = Some "Basic dXNlcjpwYXNz"
  /\ header (applyAuth Demo2.keyConfig acceptJson) "X-API-Key" = Some "k-123".
Proof.
  destruct (applyAuth_sets_credential config acceptJson) as (Hbearer & _ & _).
  destruct (applyAuth_sets_credential Demo2.basicConfig acceptJson) as (_ & Hbasic & _).
  destruct (applyAuth_sets_credential Demo2.keyConfig acceptJson) as (_ & _ & Hkey).
  split; [|split].
  - apply (Hbearer "s3cret"); [reflexivity | reflexivity | discriminate].
  - apply (Hbasic "user" "pass");
      [reflexivity | reflexivity | discriminate | reflexivity | discriminate].
  - apply (Hkey "k-123");
      [reflexivity | reflexivity | discriminate | vm_compute; discriminate].
Defined.

(** The petstore document: the key POST is listed in capitals, the keys
    parameters and x-extra are not listed; the path /pets has its two
    endpoints, in the order of its keys. *)
Lemma getEndpoints_lists_witness :
  exists l,
    getEndpoints Demo2.petstore = Returned l
    /\ listed "/pets" "POST" Demo2.createPet ∈ l
    /\ ep_method (listed "/pets" "POST" Demo2.createPet) = "POST"
    /\ (listed "/pets" "x-extra" (JObj []) ∉ l)
    /\ filter (fun ep => ep_path ep = "/pets") l
       = [listed "/pets" "get" Demo2.listPets; listed "/pets" "POST" Demo2.createPet]
    /\ length l = 4.
Proof.
  destruct (getEndpoints Demo2.petstore) as [l|e] eqn:Hrun;
    [|vm_compute in Hrun; discriminate].
  exists l. split; [reflexivity|].
  destruct (getEndpoints_lists Demo2.petstore l Hrun) as [Hlists Hpath].
  split; [|split; [reflexivity|split; [|split]]].
  - apply Hlists. eexists _, "/pets", _, _, "POST", Demo2.createPet.
    split; [reflexivity|]. split; [vm_compute; reflexivity|].
    split; [reflexivity|]. split; [right; left|].
    split; [|reflexivity]. refine (bool_decide_unpack _ _); vm_compute; exact I.
  - vm_compute in Hrun. injection Hrun as <-. intros Hin. vm_compute in Hin.
    repeat (apply elem_of_cons in Hin as [Heq | Hin]; [discriminate Heq|]).
    inversion Hin.
  - rewrite (Hpath _ "/pets" _ _ eq_refl ltac:(vm_compute; reflexivity) eq_refl).
    vm_compute. reflexivity.
  - vm_compute in Hrun. injection Hrun as <-. reflexivity.
Defined.

(** The endpoint of the key POST of the petstore document. *)
Lemma getEndpoints_methods_witness :
  exists l,
    getEndpoints Demo2.petstore = Returned l
    /\ ep_method (listed "/pets" "POST" Demo2.createPet) ∈ capitalMethods.
Proof.
  destruct (getEndpoints Demo2.petstore) as [l|e] eqn:Hrun;
    [|vm_compute in Hrun; discriminate].
  exists l. split; [reflexivity|].
  apply (getEndpoints_methods Demo2.petstore l _ Hrun).
  vm_compute in Hrun. injection Hrun as <-. vm_compute. do 3 right. left.
Defined.

(** The tag "pet" on the petstore document: it is no item of the arrays
    of tags, and a piece of the string "pets". *)
Lemma getEndpointsByTag_lists_witness :
  exists l,
    getEndpointsByTag Demo2.petstore "pet" = Returned l
    /\ listed "/pets/{id}" "get" Demo2.findPet ∈ l
    /\ (listed "/pets" "get" Demo2.listPets ∉ l).
Proof.
  destruct (getEndpointsByTag Demo2.petstore "pet") as [l|e] eqn:Hrun;
    [|vm_compute in Hrun; discriminate].
  exists l. split; [reflexivity|].
  destruct (getEndpointsByTag_lists Demo2.petstore "pet" l Hrun)
    as (allEndpoints & Hall & _ & Hmem).
  vm_compute in Hall. injection Hall as <-.
  split.
  - apply Hmem. split; [vm_compute; left|].
    right. exists "pets". split; [reflexivity|]. split; [discriminate | reflexivity].
  - intros Hin. apply Hmem in Hin as [_ [(items & [= <-] & Hin) | (s & [=] & _)]].
    apply list_elem_of_singleton in Hin. discriminate.
Defined.

(** The petstore document searched with the empty query and with
    "a PET". *)
Lemma search_selects_witness :
  searchEndpoints Demo2.ToString Demo2.petstore "" = getEndpoints Demo2.petstore.
Proof.
  destruct (searchEndpoints Demo2.ToString Demo2.petstore "") as [l|e] eqn:Hrun;
    [|vm_compute in Hrun; discriminate].
  destruct (search_selects Demo2.ToString Demo2.petstore "" l Hrun)
    as (allEndpoints & Hall & _ & Hsame).
  rewrite Hall, (Hsame eq_refl). reflexivity.
Defined.

Lemma search_finds_witness :
  exists l,
    searchEndpoints Demo2.ToString Demo2.petstore "a PET" = Returned l
    /\ listed "/pets/{id}" "get" Demo2.findPet ∈ l.
Proof.
  destruct (searchEndpoints Demo2.ToString Demo2.petstore "a PET") as [l|e] eqn:Hrun;
    [|vm_compute in Hrun; discriminate].
  exists l. split; [reflexivity|].
  destruct (getEndpoints Demo2.petstore) as [allEndpoints|e] eqn:Hall;
    [|vm_compute in Hall; discriminate].
  apply (search_finds Demo2.ToString Demo2.petstore "a PET" allEndpoints l _ Hall Hrun).
  - vm_compute in Hall. injection Hall as <-. vm_compute. left.
  - exists "Find a Pet". split; [vm_compute; reflexivity|].
    right. right. left. reflexivity.
Defined.
(** down.test: four entries, none of which can be merged.  api.test:
    orders fails, and billing, which comes after it, is retained and
    merged all the same. *)
Lemma hub_fetch_tolerates_failures_witness :
  (exists cd cfg w',
     fetch "http://down.test/docs" (start 0) = (Returned (JSObject cd cfg), w')
     /\ map fst (sent w') =
          ["http://down.test/swagger-config.json"; "http://down.test/orders.yaml";
           "http://down.test/blank.yaml"; "http://down.test/garbage.yaml";
           "http://down.test/bare.yaml"]
     /\ paths cd = Some ∅
     /\ (c ← components cd; schemas c) = Some ∅)
  /\ (exists cd cfg w' P S,
        fetch "http://api.test/docs" (start 0) = (Returned (JSObject cd cfg), w')
        /\ paths cd = Some P
        /\ is_Some (P !! "/invoices")
        /\ (c ← components cd; schemas c) = Some S
        /\ S !! "Invoice" = Some (JObj [("type", JStr "object")])
        /\ is_Some (getDocBySource (this w') "billing")).
Proof.
  split.
  - destruct (hub_fetch_tolerates_failures axios_get Date_now YAML_parse JSON_parse
                URL_origin config "http://down.test/docs" "http://down.test"
                (start 0) (registryOf "http://down.test")
                noDoc {| urls := Some down |} down)
      as (cd & cfg & w' & P & S & T & Hrun & Hsent & Hall & _);
      try (vm_compute; reflexivity); [discriminate|].
    exists cd, cfg, w'. split; [exact Hrun|].
    split; [rewrite Hsent; vm_compute; reflexivity|].
    apply Hall. vm_compute. repeat split.
  - destruct (hub_fetch_tolerates_failures axios_get Date_now YAML_parse JSON_parse
                URL_origin config "http://api.test/docs" "http://api.test"
                (start 0) (registryOf "http://api.test")
                noDoc {| urls := Some registry |} registry)
      as (cd & cfg & w' & P & S & T & Hrun & _ & _ & _ & HP & HS & _
          & Hretained & Hmerged & _ & Hschemas);
      try (vm_compute; reflexivity); [discriminate|].
    exists cd, cfg, w', P, S. split; [exact Hrun|]. split; [exact HP|].
    destruct (Hmerged (entry "billing.yaml" "billing") (Returned (object billingDoc))
                billingDoc (default ∅ (paths billingDoc)))
      as (Hpaths & _ & _).
    { vm_compute. right. right. left. }
    { reflexivity. }
    split; [apply Hpaths; [discriminate | vm_compute; eauto]|].
    split; [exact HS|].
    split; [rewrite Hschemas by discriminate; vm_compute; reflexivity|].
    destruct (Hretained (entry "billing.yaml" "billing") (object billingDoc))
      as (a' & v' & _ & _ & Hget).
    { vm_compute. right. right. left. }
    simpl in Hget. rewrite Hget. eauto.
Defined.


(** An operation whose summary is an object with a [toString] property:
    it can be filtered by tag, and cannot be searched. *)
Lemma queries_return_iff_witness :
  (exists l, getEndpointsByTag Demo2.oddSummary "pets" = Returned l)
  /\ ~ (exists l, searchEndpoints Demo2.ToString Demo2.oddSummary "pets" = Returned l).
Proof.
  destruct (queries_return_iff Demo2.ToString Demo2.oddSummary "pets" "pets")
    as [Htag Hsearch].
  split.
  - apply Htag. eexists. split; [vm_compute; reflexivity|].
    intros ep Hep. apply list_elem_of_singleton in Hep. subst ep. reflexivity.
  - intros Hrun. apply Hsearch in Hrun as (allEndpoints & Hall & Hok).
    vm_compute in Hall. injection Hall as <-.
    destruct (Hok _ ltac:(left)) as (_ & [text Htext] & _).
    vm_compute in Htext. discriminate.
Defined.

End MoreRuns.
